(** * AutoTruth: the scoring engine and the EV-domain detector

    A shallow embedding of [engine/offset_detector.py],
    [engine/lifecycle_scorer.py], [engine/nlp_engine.py],
    [engine/scoring.py] and of [_detect_ev_domain] in [app.py].

    Conventions of the embedding.
    - A Python number ([int] or [float]) is the rational [Q] it denotes;
      values that the code only ever builds from integer literals are [Z].
      The functions that compute are given twice.  Under the names of the
      source they compute exactly, [round(x, n)] rounding the exact value
      of [x] half-to-even at [n] decimals; these carry the properties that
      rounding cannot disturb: which branch is taken, orderings, bounds,
      and all that does not compute.  Module [Binary64] gives them again
      with the float arithmetic of module [F64], which is Python's; every
      property that names a computed value, or compares one with a
      threshold, is stated of those.
    - Python [str] is [string]; [str.lower] and [str.upper] act on [A-Z]
      and [a-z] and leave every other character alone, which is what Python
      does on ASCII text.  Properties that depend on letter case or on the
      character classes of [re] are stated for ASCII text.
    - Constant tables iterated with [.items()] are association lists in
      source order; dictionaries that are only looked up are [gmap]s.
    - A [KeyError] is a value of [result]. *)

From Stdlib Require Import ZArith QArith Qabs Qpower Qround Qminmax Lia Lqa.
From Stdlib Require Import String Ascii List Bool.
From stdpp Require Import gmap strings.
Import ListNotations.

Local Open Scope string_scope.
Local Open Scope Q_scope.

(** ** Python numbers *)

Module Py.

Definition ltb (a b : Q) : bool :=
  match Qcompare a b with Lt => true | _ => false end.

Definition leb (a b : Q) : bool :=
  match Qcompare a b with Gt => false | _ => true end.

(** [max(a, b)]: the first argument unless the second is larger. *)
Definition max (a b : Q) : Q := if ltb a b then b else a.

(** [min(a, b)]: the first argument unless the second is smaller. *)
Definition min (a b : Q) : Q := if ltb b a then b else a.

(** Nearest integer, ties to the even one. *)
Definition round_half_even (x : Q) : Z :=
  let f := Qfloor x in
  match Qcompare (x - inject_Z f) (1 # 2) with
  | Lt => f
  | Gt => (f + 1)%Z
  | Eq => if Z.even f then f else (f + 1)%Z
  end.

Definition pow10 (n : nat) : Q := inject_Z (10 ^ Z.of_nat n).

(** [round(x, ndigits)] *)
Definition round (x : Q) (ndigits : nat) : Q :=
  inject_Z (round_half_even (x * pow10 ndigits)) / pow10 ndigits.

(** [d.get(k, default)] on a constant table. *)
Fixpoint get {V : Type} (d : list (string * V)) (k : string) (default : V) : V :=
  match d with
  | [] => default
  | (k', v) :: d' => if String.eqb k' k then v else get d' k default
  end.

End Py.

(** ** Python floats

    A [float] is an IEEE 754 binary64 number.  A finite one is modelled by
    the rational it denotes, and an operation by the exact operation on
    rationals followed by rounding to the nearest binary64 number, ties to
    the even significand.  Every operation first reads its operands as
    floats, which is what Python does to an [int] operand or to a decimal
    literal, and changes nothing on a number that is a float already.
    Infinities and NaN are not modelled (the engine would need a number
    beyond 1.7e308 to produce one), nor is the sign of zero. *)

Module F64.

(** [2^e], for any integer [e]. *)
Definition pow2 (e : Z) : Q := Qpower 2 e.

(** The binade of [x <> 0]: the [e] with [2^e <= |x| < 2^(e+1)]. *)
Definition binade (x : Q) : Z :=
  let e := (Z.log2 (Z.abs (Qnum x)) - Z.log2 (Z.pos (Qden x)))%Z in
  if Py.leb (pow2 e) (Qabs x) then e else (e - 1)%Z.

(** The unit in the last place at [x]: 53 significant bits, and no exponent
    below that of the subnormal numbers. *)
Definition ulp (x : Q) : Q := pow2 (Z.max (binade x - 52) (-1074)).

(** The nearest binary64 number, ties to the even significand. *)
Definition rnd (x : Q) : Q :=
  if Qeq_bool x 0 then 0
  else Qred (inject_Z (Py.round_half_even (x / ulp x)) * ulp x).

Definition add (a b : Q) : Q := rnd (rnd a + rnd b).
Definition sub (a b : Q) : Q := rnd (rnd a - rnd b).
Definition mul (a b : Q) : Q := rnd (rnd a * rnd b).
(** [a / b], for [b <> 0]. *)
Definition div (a b : Q) : Q := rnd (rnd a / rnd b).

Definition ltb (a b : Q) : bool := Py.ltb (rnd a) (rnd b).
Definition leb (a b : Q) : bool := Py.leb (rnd a) (rnd b).

(** [round(x, ndigits)] on a float: the decimal with [ndigits] places
    nearest the exact value of [x], ties to even, then the float nearest
    that decimal. *)
Definition round (x : Q) (ndigits : nat) : Q := rnd (Py.round (rnd x) ndigits).

End F64.

(** ** engine/offset_detector.py *)

Definition OFFSET_THRESHOLD : Q := 30.

Definition QUALITY_SCORES : list (string * Z) :=
  [ ("Gold Standard", 90%Z); ("VCS", 65%Z); ("Unverified", 25%Z); ("None", 100%Z) ].

Definition QUALITY_DESCRIPTIONS : list (string * string) :=
  [ ("Gold Standard", "High-integrity offset — verified by Gold Standard foundation with co-benefits.");
    ("VCS", "Moderate-integrity offset — Verified Carbon Standard, widely recognized but variable quality.");
    ("Unverified", "Low-integrity offset — no recognized third-party verification. High greenwash risk.");
    ("None", "No carbon offsets used. All emission reductions are real, operational, and technology-driven.") ].

Module OffsetAnalysis.
Record t : Type := {
  offset_dependency_pct : Q;
  offset_quality : string;
  quality_score : Z;
  quality_description : string;
  dependency_penalty : Q;
  risk_level : string;
  risk_label : string;
  threshold : Q;
  exceeds_threshold : bool
}.
End OffsetAnalysis.

Definition quality_multiplier (quality_score : Z) : Q :=
  if (80 <=? quality_score)%Z then 1
  else if (60 <=? quality_score)%Z then 15 # 10
  else 25 # 10.

Definition analyze_offsets (offset_dependency_pct : Q) (offset_quality : string)
  : OffsetAnalysis.t :=
  let quality_score := Py.get QUALITY_SCORES offset_quality 25%Z in
  let dependency_penalty :=
    if String.eqb offset_quality "None" then 0
    else if Py.ltb OFFSET_THRESHOLD offset_dependency_pct then
      let excess := offset_dependency_pct - OFFSET_THRESHOLD in
      Py.min (Py.round ((excess / 10) * quality_multiplier quality_score * 3) 1) 20
    else 0 in
  let risk : string * string :=   (* risk, risk_label *)
    if String.eqb offset_quality "None"
       || (Py.ltb offset_dependency_pct 15 && (65 <=? quality_score)%Z)
    then ("LOW", "✅ Low Offset Risk")
    else if Py.ltb offset_dependency_pct OFFSET_THRESHOLD && (65 <=? quality_score)%Z
    then ("MODERATE", "⚠️ Moderate Offset Risk")
    else if String.eqb offset_quality "Unverified" || Py.ltb 50 offset_dependency_pct
    then ("HIGH", "🚨 High Greenwash Risk")
    else ("MODERATE", "⚠️ Moderate Offset Risk") in
  {| OffsetAnalysis.offset_dependency_pct := offset_dependency_pct;
     OffsetAnalysis.offset_quality := offset_quality;
     OffsetAnalysis.quality_score := quality_score;
     OffsetAnalysis.quality_description := Py.get QUALITY_DESCRIPTIONS offset_quality "Unknown offset type.";
     OffsetAnalysis.dependency_penalty := dependency_penalty;
     OffsetAnalysis.risk_level := fst risk;
     OffsetAnalysis.risk_label := snd risk;
     OffsetAnalysis.threshold := OFFSET_THRESHOLD;
     OffsetAnalysis.exceeds_threshold :=
       Py.ltb OFFSET_THRESHOLD offset_dependency_pct
       && negb (String.eqb offset_quality "None") |}.

(** ** engine/lifecycle_scorer.py *)

Definition PILLAR_WEIGHTS : list (string * Q) :=
  [ ("raw_materials", 20 # 100);
    ("manufacturing", 20 # 100);
    ("supply_chain", 15 # 100);
    ("use_phase", 20 # 100);
    ("end_of_life", 15 # 100);
    ("offsets", 10 # 100) ].

(** [pillar_scores.get(pillar, 0)] *)
Definition score_of (pillar_scores : gmap string Q) (pillar : string) : Q :=
  default 0 (pillar_scores !! pillar).

Definition compute_weighted_score (pillar_scores : gmap string Q) : Q :=
  let total :=
    fold_left
      (fun total '(pillar, weight) => total + score_of pillar_scores pillar * weight)
      PILLAR_WEIGHTS 0 in
  Py.round total 2.

Module Drift.
Record t : Type := {
  current : Q;
  previous : Q;
  delta : Q;
  trend : string
}.
End Drift.

Definition trend_of (delta : Q) : string :=
  if Py.ltb 2 delta then "improved"
  else if Py.ltb delta (-2) then "declined"
  else "stable".

Definition drift_entry (current previous : gmap string Q) (pillar : string) : Drift.t :=
  let cur := score_of current pillar in
  let prev := score_of previous pillar in
  let delta := cur - prev in
  {| Drift.current := cur;
     Drift.previous := prev;
     Drift.delta := Py.round delta 1;
     Drift.trend := trend_of delta |}.

(** The returned dictionary, as its items in insertion order. *)
Definition compute_drift (current previous : gmap string Q) : list (string * Drift.t) :=
  map (fun '(pillar, _) => (pillar, drift_entry current previous pillar)) PILLAR_WEIGHTS.

(** ** Python strings *)

Module Str.

Definition lower_char (c : ascii) : ascii :=
  let n := nat_of_ascii c in
  if (65 <=? n)%nat && (n <=? 90)%nat then ascii_of_nat (n + 32) else c.

(** [s.lower()] *)
Fixpoint lower (s : string) : string :=
  match s with
  | EmptyString => EmptyString
  | String c s' => String (lower_char c) (lower s')
  end.

(** [s.startswith(p)] *)
Fixpoint startswith (p s : string) : bool :=
  match p, s with
  | EmptyString, _ => true
  | String _ _, EmptyString => false
  | String a p', String b s' => Ascii.eqb a b && startswith p' s'
  end.

(** [sub in s] *)
Fixpoint contains (sub s : string) : bool :=
  startswith sub s
  || match s with
     | EmptyString => false
     | String _ s' => contains sub s'
     end.

(** [s[:n]] for [n >= 0] *)
Fixpoint slice_to (n : Z) (s : string) : string :=
  match s with
  | EmptyString => EmptyString
  | String c s' => if (n <=? 0)%Z then EmptyString else String c (slice_to (n - 1) s')
  end.

(** [str.isspace] of one ASCII character: tab, LF, VT, FF, CR, the
    separators FS, GS, RS, US, and the space. *)
Definition isspace (c : ascii) : bool :=
  let n := nat_of_ascii c in
  ((9 <=? n)%nat && (n <=? 13)%nat) || ((28 <=? n)%nat && (n <=? 32)%nat).

Definition upper_char (c : ascii) : ascii :=
  let n := nat_of_ascii c in
  if (97 <=? n)%nat && (n <=? 122)%nat then ascii_of_nat (n - 32) else c.

(** [s.upper()] *)
Fixpoint upper (s : string) : string :=
  match s with
  | EmptyString => EmptyString
  | String c s' => String (upper_char c) (upper s')
  end.

(** [s.lstrip(...)], the stripped characters given by a test. *)
Fixpoint lstrip (p : ascii -> bool) (s : string) : string :=
  match s with
  | EmptyString => EmptyString
  | String c s' => if p c then lstrip p s' else s
  end.

(** [s.rstrip(...)] *)
Fixpoint rstrip (p : ascii -> bool) (s : string) : string :=
  match s with
  | EmptyString => EmptyString
  | String c s' =>
      match rstrip p s' with
      | EmptyString => if p c then EmptyString else String c EmptyString
      | r => String c r
      end
  end.

Definition strip_with (p : ascii -> bool) (s : string) : string :=
  rstrip p (lstrip p s).

(** [s.strip()] *)
Definition strip (s : string) : string := strip_with isspace s.

(** [s.count(sub)]: occurrences that do not overlap, leftmost first.
    [skip] is how many characters of the last occurrence remain to be
    stepped over. *)
Fixpoint count_from (sub : string) (skip : nat) (s : string) {struct s} : Z :=
  match skip with
  | S k =>
      match s with
      | EmptyString => 0
      | String _ s' => count_from sub k s'
      end
  | O =>
      if startswith sub s then
        (1 + match s with
             | EmptyString => 0
             | String _ s' => count_from sub (String.length sub - 1) s'
             end)%Z
      else
        match s with
        | EmptyString => 0
        | String _ s' => count_from sub 0 s'
        end
  end.

Definition count (sub s : string) : Z := count_from sub 0 s.

(** The word being read and the words after it. *)
Fixpoint split_aux (s : string) : string * list string :=
  match s with
  | EmptyString => (EmptyString, [])
  | String c s' =>
      let '(w, ws) := split_aux s' in
      if isspace c
      then (EmptyString, match w with EmptyString => ws | _ => w :: ws end)
      else (String c w, ws)
  end.

(** [s.split()] *)
Definition split (s : string) : list string :=
  let '(w, ws) := split_aux s in
  match w with EmptyString => ws | _ => w :: ws end.

(** [sep.join(parts)] *)
Fixpoint join (sep : string) (parts : list string) : string :=
  match parts with
  | [] => EmptyString
  | [x] => x
  | x :: parts' => x ++ sep ++ join sep parts'
  end.

(** The line boundaries of [str.splitlines] among the ASCII characters:
    LF, VT, FF, CR, FS, GS, RS. *)
Definition islinebreak (c : ascii) : bool :=
  let n := nat_of_ascii c in
  ((10 <=? n)%nat && (n <=? 13)%nat) || ((28 <=? n)%nat && (n <=? 30)%nat).

(** [s.splitlines()]; CR LF is one boundary. *)
Fixpoint splitlines (s : string) : list string :=
  match s with
  | EmptyString => []
  | String c s' =>
      if islinebreak c then
        match s' with
        | String c' s'' =>
            if Ascii.eqb c "013" && Ascii.eqb c' "010"
            then EmptyString :: splitlines s''
            else EmptyString :: splitlines s'
        | EmptyString => [EmptyString]
        end
      else
        match splitlines s' with
        | [] => [String c EmptyString]
        | line :: lines => String c line :: lines
        end
  end.

End Str.

(** ** The fragment of [re] that NUMERIC_PATTERNS uses, under [re.IGNORECASE] *)

Module Re.

Inductive atom : Type :=
| Digit                (* \d *)
| Space                (* \s *)
| Chr (c : ascii).     (* a literal character *)

Inductive regex : Type :=
| Void
| Eps
| Atom (a : atom)
| Cat (r1 r2 : regex)
| Alt (r1 r2 : regex)
| Star (r : regex).

Definition Plus (r : regex) : regex := Cat r (Star r).
Definition Opt (r : regex) : regex := Alt r Eps.

Fixpoint Lit (s : string) : regex :=
  match s with
  | EmptyString => Eps
  | String c s' => Cat (Atom (Chr c)) (Lit s')
  end.

Fixpoint AnyOf (rs : list regex) : regex :=
  match rs with
  | [] => Void
  | [r] => r
  | r :: rs' => Alt r (AnyOf rs')
  end.

Fixpoint Seq (rs : list regex) : regex :=
  match rs with
  | [] => Eps
  | [r] => r
  | r :: rs' => Cat r (Seq rs')
  end.

Definition is_digit (c : ascii) : bool :=
  let n := nat_of_ascii c in (48 <=? n)%nat && (n <=? 57)%nat.

(** Whitespace of [\s] among the ASCII characters: tab, LF, VT, FF, CR,
    the separators FS, GS, RS, US, and the space. *)
Definition is_space (c : ascii) : bool :=
  let n := nat_of_ascii c in
  ((9 <=? n)%nat && (n <=? 13)%nat) || ((28 <=? n)%nat && (n <=? 32)%nat).

Definition atom_matches (a : atom) (c : ascii) : bool :=
  match a with
  | Digit => is_digit c
  | Space => is_space c
  | Chr x => Ascii.eqb (Str.lower_char x) (Str.lower_char c)
  end.

Fixpoint nullable (r : regex) : bool :=
  match r with
  | Void => false
  | Eps => true
  | Atom _ => false
  | Cat r1 r2 => nullable r1 && nullable r2
  | Alt r1 r2 => nullable r1 || nullable r2
  | Star _ => true
  end.

Definition cat (r1 r2 : regex) : regex :=
  match r1, r2 with
  | Void, _ => Void
  | _, Void => Void
  | Eps, _ => r2
  | _, _ => Cat r1 r2
  end.

Definition alt (r1 r2 : regex) : regex :=
  match r1, r2 with
  | Void, _ => r2
  | _, Void => r1
  | _, _ => Alt r1 r2
  end.

(** The residual of [r] after reading [c]. *)
Fixpoint deriv (c : ascii) (r : regex) : regex :=
  match r with
  | Void => Void
  | Eps => Void
  | Atom a => if atom_matches a c then Eps else Void
  | Cat r1 r2 =>
      alt (cat (deriv c r1) r2) (if nullable r1 then deriv c r2 else Void)
  | Alt r1 r2 => alt (deriv c r1) (deriv c r2)
  | Star r1 => cat (deriv c r1) (Star r1)
  end.

(** Does some prefix of [s] match [r]? *)
Fixpoint match_prefix (r : regex) (s : string) : bool :=
  nullable r
  || match s with
     | EmptyString => false
     | String c s' => match_prefix (deriv c r) s'
     end.

(** [re.search(r, s, re.IGNORECASE) is not None] *)
Fixpoint search (r : regex) (s : string) : bool :=
  match_prefix r s
  || match s with
     | EmptyString => false
     | String _ s' => search r s'
     end.

End Re.

(** ** engine/nlp_engine.py *)

(** [\d+\.?\d*], the number that opens the first two patterns. *)
Definition number_re : Re.regex :=
  Re.Seq [Re.Plus (Re.Atom Re.Digit); Re.Opt (Re.Lit "."); Re.Star (Re.Atom Re.Digit)].

Definition NUMERIC_PATTERNS : list Re.regex :=
  [ (* \d+\.?\d*\s*% *)
    Re.Seq [number_re; Re.Star (Re.Atom Re.Space); Re.Lit "%"];
    (* \d+\.?\d*\s*(tonnes?|tons?|kg|kWh|MWh|GWh|gCO2|km|mi|g/km) *)
    Re.Seq [number_re; Re.Star (Re.Atom Re.Space);
            Re.AnyOf [Re.Cat (Re.Lit "tonne") (Re.Opt (Re.Lit "s"));
                      Re.Cat (Re.Lit "ton") (Re.Opt (Re.Lit "s"));
                      Re.Lit "kg"; Re.Lit "kWh"; Re.Lit "MWh"; Re.Lit "GWh";
                      Re.Lit "gCO2"; Re.Lit "km"; Re.Lit "mi"; Re.Lit "g/km"]];
    (* (reduced|decreased|improved|increased|achieved|recovered)\s+by\s+\d+ *)
    Re.Seq [Re.AnyOf [Re.Lit "reduced"; Re.Lit "decreased"; Re.Lit "improved";
                      Re.Lit "increased"; Re.Lit "achieved"; Re.Lit "recovered"];
            Re.Plus (Re.Atom Re.Space); Re.Lit "by"; Re.Plus (Re.Atom Re.Space);
            Re.Plus (Re.Atom Re.Digit)];
    (* \d+\s*(million|billion|thousand) *)
    Re.Seq [Re.Plus (Re.Atom Re.Digit); Re.Star (Re.Atom Re.Space);
            Re.AnyOf [Re.Lit "million"; Re.Lit "billion"; Re.Lit "thousand"]];
    (* (zero|100%)\s+(cobalt|offset|renewable|recycl) *)
    Re.Seq [Re.AnyOf [Re.Lit "zero"; Re.Lit "100%"];
            Re.Plus (Re.Atom Re.Space);
            Re.AnyOf [Re.Lit "cobalt"; Re.Lit "offset"; Re.Lit "renewable"; Re.Lit "recycl"]] ].

Definition VAGUE_PHRASES : list string :=
  [ "committed to"; "strives to"; "works toward"; "we believe"; "eco-friendly";
    "sustainable future"; "green"; "responsible sourcing"; "better for the planet";
    "environmentally friendly"; "we aim"; "we aspire"; "under assessment";
    "being established"; "plans to"; "intends to"; "dedicated to"; "passionate about";
    "world-class"; "best-in-class"; "industry-leading"; "cutting-edge" ].

Definition OFFSET_PHRASES : list string :=
  [ "carbon neutral"; "carbon offset"; "offset"; "carbon credit"; "net zero via";
    "REC"; "renewable energy certificate"; "forest conservation"; "nature-based";
    "carbon removal"; "inset"; "compensate"; "carbon-neutral" ].

Definition OFFSET_QUALITY_MAP : list (string * string) :=
  [ ("gold standard", "Gold Standard");
    ("vcs", "VCS");
    ("verified carbon standard", "VCS");
    ("redd+", "VCS");
    ("forest conservation", "Unverified");
    ("rec", "Unverified");
    ("renewable energy certificate", "Unverified") ].

Module Classification.
Record t : Type := {
  type : string;
  offset_quality : option string;
  confidence : Q
}.
End Classification.

(** The inner loop over [OFFSET_QUALITY_MAP.items()]: the value of the first
    key found in the text, else the initial ["Unverified"]. *)
Fixpoint resolve_quality (table : list (string * string)) (text_lower : string) : string :=
  match table with
  | [] => "Unverified"
  | (key, val) :: table' =>
      if Str.contains key text_lower then val else resolve_quality table' text_lower
  end.

(** Each of the two loops returns at its first hit with a value that does
    not depend on which element hit, so each is an [existsb]. *)
Definition classify_claim (text : string) : Classification.t :=
  let text_lower := Str.lower text in
  if existsb (fun phrase => Str.contains (Str.lower phrase) text_lower) OFFSET_PHRASES then
    {| Classification.type := "OFFSET_BACKED";
       Classification.offset_quality := Some (resolve_quality OFFSET_QUALITY_MAP text_lower);
       Classification.confidence :=
         Py.round ((85 # 100)
                   + (if existsb (fun p => Str.contains p text_lower) ["gold standard"; "verified"]
                      then 1 # 10 else 0)) 2 |}
  else if existsb (fun pattern => Re.search pattern text) NUMERIC_PATTERNS then
    {| Classification.type := "NUMERIC";
       Classification.offset_quality := None;
       Classification.confidence :=
         Py.round ((88 # 100) + (if Str.contains "%" text then 7 # 100 else 0)) 2 |}
  else
    let vague_score :=
      Z.of_nat (List.length (List.filter (fun phrase => Str.contains phrase text_lower) VAGUE_PHRASES)) in
    let confidence := Py.min ((72 # 100) + inject_Z vague_score * (4 # 100)) (95 # 100) in
    {| Classification.type := "VAGUE";
       Classification.offset_quality := None;
       Classification.confidence := Py.round confidence 2 |}.

(** ** Exceptions *)

Inductive result (A : Type) : Type :=
| Ok (a : A)
| KeyError (key : string).

Arguments Ok {A} a.
Arguments KeyError {A} key.

#[export] Instance result_bind : MBind result := fun A B k m =>
  match m with
  | Ok a => k a
  | KeyError key => KeyError key
  end.

(** [d[key]] on a field that may be absent. *)
Definition subscript {A : Type} (field : option A) (key : string) : result A :=
  match field with
  | Some a => Ok a
  | None => KeyError key
  end.

(** ** Claims and [get_claim_quality_ratio] *)

(** A claim is a dictionary; each key the engine reads may be absent. *)
Module Claim.
Record t : Type := {
  text : option string;
  type : option string;
  pillar : option string;
  confidence : option Q;
  verified : option bool
}.
End Claim.

Module Counts.
Record t : Type := {
  NUMERIC : Z;
  VAGUE : Z;
  OFFSET_BACKED : Z
}.
End Counts.

(** [counts[key] += 1] *)
Definition increment (counts : Counts.t) (key : string) : result Counts.t :=
  if String.eqb key "NUMERIC" then
    Ok {| Counts.NUMERIC := Counts.NUMERIC counts + 1;
          Counts.VAGUE := Counts.VAGUE counts;
          Counts.OFFSET_BACKED := Counts.OFFSET_BACKED counts |}
  else if String.eqb key "VAGUE" then
    Ok {| Counts.NUMERIC := Counts.NUMERIC counts;
          Counts.VAGUE := Counts.VAGUE counts + 1;
          Counts.OFFSET_BACKED := Counts.OFFSET_BACKED counts |}
  else if String.eqb key "OFFSET_BACKED" then
    Ok {| Counts.NUMERIC := Counts.NUMERIC counts;
          Counts.VAGUE := Counts.VAGUE counts;
          Counts.OFFSET_BACKED := Counts.OFFSET_BACKED counts + 1 |}
  else KeyError key.

(** [for claim in claims: counts[claim.get("type", "VAGUE")] += 1] *)
Fixpoint count_claims (claims : list Claim.t) (counts : Counts.t) : result Counts.t :=
  match claims with
  | [] => Ok counts
  | claim :: claims' =>
      counts' ← increment counts (default "VAGUE" (Claim.type claim));
      count_claims claims' counts'
  end.

Module Ratio.
Record detail : Type := {
  numeric_count : Z;
  vague_count : Z;
  offset_count : Z;
  total : Z
}.
(** The dictionary of an empty claim list has the three ratios only. *)
Record t : Type := {
  numeric : Q;
  vague : Q;
  offset : Q;
  counts : option detail
}.
End Ratio.

Definition get_claim_quality_ratio (claims : list Claim.t) : result Ratio.t :=
  let total := Z.of_nat (List.length claims) in
  if (total =? 0)%Z then
    Ok {| Ratio.numeric := 0; Ratio.vague := 0; Ratio.offset := 0; Ratio.counts := None |}
  else
    counts ← count_claims claims
               {| Counts.NUMERIC := 0; Counts.VAGUE := 0; Counts.OFFSET_BACKED := 0 |};
    Ok {| Ratio.numeric := Py.round (inject_Z (Counts.NUMERIC counts) / inject_Z total) 3;
          Ratio.vague := Py.round (inject_Z (Counts.VAGUE counts) / inject_Z total) 3;
          Ratio.offset := Py.round (inject_Z (Counts.OFFSET_BACKED counts) / inject_Z total) 3;
          Ratio.counts :=
            Some {| Ratio.numeric_count := Counts.NUMERIC counts;
                    Ratio.vague_count := Counts.VAGUE counts;
                    Ratio.offset_count := Counts.OFFSET_BACKED counts;
                    Ratio.total := total |} |}.

(** ** engine/scoring.py *)

Definition REGULATORY_BONUSES : list (string * Q) :=
  [ ("GRI", 2); ("CSRD", 3); ("SEC_Climate", 25 # 10); ("TCFD", 15 # 10) ].

Module Risk.
Record t : Type := {
  label : string;
  color : string;
  description : string
}.
End Risk.

Definition RISK_TIERS : list (Q * string * string * string) :=
  [ (80, "Transparent", "#00e676", "✅ High Transparency — claims are well-substantiated and disclosure is comprehensive.");
    (60, "Moderate", "#ffeb3b", "⚠️ Moderate Transparency — some pillars are well-documented, but gaps remain.");
    (40, "Opaque", "#ff9800", "🟠 Opaque Disclosures — significant claim vagueness and lifecycle gaps detected.");
    (0, "Greenwashing", "#f44336", "🚨 Greenwashing Detected — disclosures are primarily vague, offset-dependent, or misleading.") ].

Definition REWRITE_SUGGESTIONS : list (string * string) :=
  [ ("committed to", "State the specific target (e.g., 'committed to reducing Scope 1 emissions by 45% by 2030 vs. 2019 baseline')");
    ("strives to", "Replace with a measurable commitment and timeline.");
    ("eco-friendly", "Quantify the impact (e.g., 'reduces lifecycle CO₂ by X% vs. equivalent ICE vehicle').");
    ("sustainable future", "Disclose specific emission reduction targets with base year and verification methodology.");
    ("responsible sourcing", "Reference a third-party audit or certification (e.g., IRMA, RMI Responsible Minerals).");
    ("under assessment", "Provide current scope and expected reporting timeline.");
    ("being established", "Disclose the partner, target recovery rate, and projected timeline.");
    ("plans to", "Commit to a specific, time-bound, measurable target.");
    ("dedicated to", "Replace with a quantified target and accountability mechanism.") ].

Fixpoint first_suggestion (table : list (string * string)) (claim_lower : string) : string :=
  match table with
  | [] => "Replace vague language with specific metrics, timelines, and verified data sources."
  | (trigger, suggestion) :: table' =>
      if Str.contains trigger claim_lower then suggestion
      else first_suggestion table' claim_lower
  end.

Definition suggest_rewrite (claim_text : string) : string :=
  first_suggestion REWRITE_SUGGESTIONS (Str.lower claim_text).

(** [alignment] is the dictionary's items, in insertion order. *)
Definition compute_regulatory_bonus (alignment : list (string * bool)) : Q :=
  let bonus :=
    fold_left
      (fun bonus '(standard, met) =>
         if met : bool then bonus + Py.get REGULATORY_BONUSES standard 0 else bonus)
      alignment 0 in
  Py.min bonus 8.

Fixpoint first_tier (tiers : list (Q * string * string * string)) (score : Q) : Risk.t :=
  match tiers with
  | [] =>
      {| Risk.label := "Greenwashing"; Risk.color := "#f44336";
         Risk.description := "🚨 Greenwashing Detected — disclosures are primarily vague, offset-dependent, or misleading." |}
  | (threshold, label, color, description) :: tiers' =>
      if Py.leb threshold score
      then {| Risk.label := label; Risk.color := color; Risk.description := description |}
      else first_tier tiers' score
  end.

Definition classify_risk (score : Q) : Risk.t := first_tier RISK_TIERS score.

Module Esg.
Record t : Type := {
  score : Q;
  rating : string;
  interpretation : string
}.
End Esg.

Definition compute_investor_esg_index (lts_score : Q) (offset_risk : string) : Esg.t :=
  let base := lts_score in
  let offset_penalty_map := [ ("LOW", 0); ("MODERATE", -5); ("HIGH", -15) ] in
  let adjusted := Py.max 0 (base + Py.get offset_penalty_map offset_risk 0) in
  let rating : string * string :=   (* rating, interpretation *)
    if Py.leb 75 adjusted then ("AAA", "Minimal ESG disclosure risk")
    else if Py.leb 60 adjusted then ("AA", "Low-moderate ESG risk")
    else if Py.leb 45 adjusted then ("BBB", "Moderate ESG risk — gaps in lifecycle reporting")
    else if Py.leb 30 adjusted then ("BB", "Elevated ESG risk — significant disclosure weaknesses")
    else ("CCC", "High ESG risk — greenwashing exposure") in
  {| Esg.score := Py.round adjusted 1;
     Esg.rating := fst rating;
     Esg.interpretation := snd rating |}.

(** The company record is a dictionary too: [compute_lts] reads every key
    with [.get], so each may be absent. *)
Module Company.
Record t : Type := {
  name : option string;
  model : option string;
  report_year : option Z;
  claims : option (list Claim.t);
  pillar_scores : option (gmap string Q);
  prior_year_scores : option (gmap string Q);
  offset_dependency : option Q;
  offset_quality : option string;
  regulatory_alignment : option (list (string * bool));
  grid_carbon_intensity_gco2_kwh : option Q
}.
End Company.

(** [dict(claim)] with the two keys the fingerprint loop adds. *)
Module Entry.
Record t : Type := {
  claim : Claim.t;
  impact_score : Z;
  rewrite_suggestion : option string
}.
End Entry.

Module Breakdown.
Record t : Type := {
  pillar_weighted_base : Q;
  claim_quality_adjustment : Q;
  offset_penalty : Q;
  regulatory_bonus : Q;
  grid_penalty : Q
}.
End Breakdown.

Module Lts.
Record t : Type := {
  company : option string;
  model : option string;
  report_year : option Z;
  lts : Q;
  risk : Risk.t;
  breakdown : Breakdown.t;
  pillar_scores : gmap string Q;
  prior_year_scores : gmap string Q;
  claim_ratio : Ratio.t;
  claims : list Entry.t;
  offset_analysis : OffsetAnalysis.t;
  regulatory_alignment : list (string * bool);
  grid_carbon_intensity : Q;
  esg_investor_index : Esg.t
}.
End Lts.

(** One turn of the fingerprint loop. *)
Definition fingerprint (offset_quality : string) (claim : Claim.t) : result Entry.t :=
  type ← subscript (Claim.type claim) "type";
  let fp_score :=
    if String.eqb type "VAGUE" then (-8)%Z
    else if String.eqb type "OFFSET_BACKED" && String.eqb offset_quality "Unverified" then (-12)%Z
    else if String.eqb type "NUMERIC" && default false (Claim.verified claim) then 5%Z
    else 0%Z in
  if String.eqb type "VAGUE" then
    text ← subscript (Claim.text claim) "text";
    Ok {| Entry.claim := claim;
          Entry.impact_score := fp_score;
          Entry.rewrite_suggestion := Some (suggest_rewrite text) |}
  else
    Ok {| Entry.claim := claim;
          Entry.impact_score := fp_score;
          Entry.rewrite_suggestion := None |}.

Fixpoint fingerprint_all (offset_quality : string) (claims : list Claim.t)
  : result (list Entry.t) :=
  match claims with
  | [] => Ok []
  | claim :: claims' =>
      entry ← fingerprint offset_quality claim;
      entries ← fingerprint_all offset_quality claims';
      Ok (entry :: entries)
  end.

Definition grid_penalty_of (grid_intensity : Q) : Q :=
  if Py.ltb 500 grid_intensity then -2
  else if Py.ltb 400 grid_intensity then -1
  else 0.

Definition compute_lts (company_data : Company.t) : result Lts.t :=
  let claims := default [] (Company.claims company_data) in
  let pillar_scores := default ∅ (Company.pillar_scores company_data) in
  let prior_year := default ∅ (Company.prior_year_scores company_data) in
  let offset_dep := default 0 (Company.offset_dependency company_data) in
  let offset_quality := default "Unverified" (Company.offset_quality company_data) in
  let regulatory := default [] (Company.regulatory_alignment company_data) in
  let grid_intensity := default 400 (Company.grid_carbon_intensity_gco2_kwh company_data) in
  (* 1. Weighted pillar score *)
  let pillar_total := compute_weighted_score pillar_scores in
  (* 2. Claim quality ratio *)
  claim_ratio ← get_claim_quality_ratio claims;
  let claim_quality_adjustment :=
    Py.round (Ratio.numeric claim_ratio * 8 - Ratio.vague claim_ratio * 6) 2 in
  (* 3. Offset analysis *)
  let offset_analysis := analyze_offsets offset_dep offset_quality in
  let offset_penalty := OffsetAnalysis.dependency_penalty offset_analysis in
  (* 4. Regulatory alignment bonus *)
  let regulatory_bonus := compute_regulatory_bonus regulatory in
  (* 5. Grid carbon adjustment *)
  let grid_penalty := grid_penalty_of grid_intensity in
  (* 6. Final LTS *)
  let raw_lts :=
    pillar_total + claim_quality_adjustment - offset_penalty + regulatory_bonus + grid_penalty in
  let lts := Py.round (Py.max 0 (Py.min 100 raw_lts)) 1 in
  (* 7. Risk classification *)
  let risk := classify_risk lts in
  (* 8. ESG investor index *)
  let esg_index := compute_investor_esg_index lts (OffsetAnalysis.risk_level offset_analysis) in
  (* 9. Greenwash fingerprint per claim *)
  fingerprinted_claims ← fingerprint_all offset_quality claims;
  Ok {| Lts.company := Company.name company_data;
        Lts.model := Company.model company_data;
        Lts.report_year := Company.report_year company_data;
        Lts.lts := lts;
        Lts.risk := risk;
        Lts.breakdown :=
          {| Breakdown.pillar_weighted_base := Py.round pillar_total 1;
             Breakdown.claim_quality_adjustment := claim_quality_adjustment;
             Breakdown.offset_penalty := - offset_penalty;
             Breakdown.regulatory_bonus := regulatory_bonus;
             Breakdown.grid_penalty := grid_penalty |};
        Lts.pillar_scores := pillar_scores;
        Lts.prior_year_scores := prior_year;
        Lts.claim_ratio := claim_ratio;
        Lts.claims := fingerprinted_claims;
        Lts.offset_analysis := offset_analysis;
        Lts.regulatory_alignment := regulatory;
        Lts.grid_carbon_intensity := grid_intensity;
        Lts.esg_investor_index := esg_index |}.

(** ** app.py: the EV-domain detector *)

Definition EV_DOMAIN_TERMS_core : list string :=
  [ "electric vehicle"; "electric vehicles"; "ev"; "battery electric";
    "plug-in"; "charging"; "battery pack"; "kwh/100km"; "kwh/100 mi" ].

Definition EV_DOMAIN_TERMS_vehicle : list string :=
  [ "vehicle"; "vehicles"; "automotive"; "car"; "truck"; "model y"; "model 3";
    "fleet"; "drivetrain"; "range" ].

Definition EV_DOMAIN_TERMS_supply : list string :=
  [ "lithium"; "nickel"; "cobalt"; "battery cell"; "gigafactory";
    "scope 3"; "supplier" ].

Definition EV_AUTO_ANCHORS : list string :=
  [ "ev manufacturer"; "electric vehicle manufacturer"; "vehicle production";
    "vehicle deliveries"; "vehicle sales"; "passenger vehicle"; "automaker";
    "automobile"; "automotive oem"; "battery electric vehicle"; "bev" ].

Definition KNOWN_EV_COMPANIES : list string :=
  [ "tesla"; "rivian"; "byd"; "volkswagen"; "vw"; "hyundai"; "kia"; "ford";
    "general motors"; "gm"; "mercedes"; "bmw"; "audi"; "nio"; "xpeng"; "lucid"; "polestar" ].

Definition NON_EV_SIGNAL_TERMS : list string :=
  [ "iphone"; "ipad"; "macbook"; "mac"; "apple watch"; "airpods"; "data center";
    "packaging"; "consumer electronics" ].

Module Detection.
Record t : Type := {
  is_ev_domain : bool;
  ev_relevance_score : Z;
  matched_terms : list string;
  non_ev_terms : list string;
  recommendation : string
}.
End Detection.

(** [[t for t in terms if t in content]] *)
Definition hits (terms : list string) (content : string) : list string :=
  List.filter (fun t => Str.contains t content) terms.

Definition len (l : list string) : Z := Z.of_nat (List.length l).

(** [f"{filename} {text[:180000]}".lower()] *)
Definition content_of (text filename : string) : string :=
  Str.lower (filename ++ " " ++ Str.slice_to 180000 text).

Definition _detect_ev_domain (text filename : string) : Detection.t :=
  let content := content_of text filename in
  let core_hits := hits EV_DOMAIN_TERMS_core content in
  let vehicle_hits := hits EV_DOMAIN_TERMS_vehicle content in
  let supply_hits := hits EV_DOMAIN_TERMS_supply content in
  let anchor_hits := hits EV_AUTO_ANCHORS content in
  let company_hits := hits KNOWN_EV_COMPANIES content in
  let non_ev_hits := hits NON_EV_SIGNAL_TERMS content in
  let score :=
    (len core_hits * 3 + len vehicle_hits * 2 + len supply_hits
     + len anchor_hits * 4 + len company_hits * 3 - len non_ev_hits * 2)%Z in
  let has_ev_specific_anchor := (1 <=? len anchor_hits)%Z || (1 <=? len company_hits)%Z in
  let is_ev_domain := has_ev_specific_anchor && (12 <=? score)%Z in
  let recommendation :=
    if is_ev_domain
    then "EV domain confirmed. You can continue with full EV transparency scoring."
    else "This file may not be EV-focused. Re-upload an EV report or continue anyway." in
  let matched :=
    firstn 12 (core_hits ++ vehicle_hits ++ supply_hits ++ anchor_hits ++ company_hits) in
  {| Detection.is_ev_domain := is_ev_domain;
     Detection.ev_relevance_score := score;
     Detection.matched_terms := matched;
     Detection.non_ev_terms := firstn 8 non_ev_hits;
     Detection.recommendation := recommendation |}.

(** ** engine/nlp_engine.py: sentence extraction *)

Definition is_sentence_end (c : ascii) : bool :=
  Ascii.eqb c "." || Ascii.eqb c "!" || Ascii.eqb c "?".

(** [re.split(r'(?<=[.!?])\s+', s)]: a separator is a maximal run of
    whitespace that directly follows one of [.], [!], [?].  [after_end] says
    the previous character was such a mark, [in_sep] that a separator is
    being skipped; the head of the result is the piece being read. *)
Fixpoint split_sentences_from (after_end in_sep : bool) (s : string) : list string :=
  match s with
  | EmptyString => [EmptyString]
  | String c s' =>
      if Re.is_space c && in_sep then split_sentences_from false true s'
      else if Re.is_space c && after_end then EmptyString :: split_sentences_from false true s'
      else
        match split_sentences_from (is_sentence_end c) false s' with
        | [] => [String c EmptyString]
        | piece :: pieces => String c piece :: pieces
        end
  end.

Definition split_sentences (s : string) : list string :=
  split_sentences_from false false s.

(** A dictionary [{"text": ..., **classification}], as the text and the
    classification. *)
Definition extract_and_classify_claims (text : string)
  : list (string * Classification.t) :=
  let sentences := split_sentences (Str.strip text) in
  flat_map
    (fun sentence =>
       let sentence := Str.strip sentence in
       if (20 <? Z.of_nat (String.length sentence))%Z
       then [(sentence, classify_claim sentence)]
       else [])
    sentences.

(** ** app.py: helpers *)

Definition PILLAR_KEYWORDS : list (string * list string) :=
  [ ("raw_materials", ["lithium"; "cobalt"; "nickel"; "mining"; "mineral"; "raw material"]);
    ("manufacturing", ["factory"; "manufacturing"; "plant"; "scope 1"; "scope 2"; "renewable electricity"]);
    ("supply_chain", ["supplier"; "scope 3"; "procurement"; "tier 1"; "tier 2"; "value chain"]);
    ("use_phase", ["use phase"; "kwh"; "efficiency"; "lifecycle emissions"; "grid"; "charging"]);
    ("end_of_life", ["recycle"; "recycling"; "end-of-life"; "second-life"; "recovery"; "battery return"]);
    ("offsets", ["offset"; "carbon credit"; "rec"; "gold standard"; "vcs"; "net zero"]) ].

Definition is_slug_char (c : ascii) : bool :=
  let n := nat_of_ascii c in
  ((97 <=? n)%nat && (n <=? 122)%nat) || ((48 <=? n)%nat && (n <=? 57)%nat).

(** [re.sub(r"[^a-z0-9]+", "-", s)]: each maximal run of other characters
    becomes one dash. [in_run] says that the run being read already gave
    its dash. *)
Fixpoint dash_runs (in_run : bool) (s : string) : string :=
  match s with
  | EmptyString => EmptyString
  | String c s' =>
      if is_slug_char c then String c (dash_runs false s')
      else if in_run then dash_runs true s'
      else String "-" (dash_runs true s')
  end.

Definition _slugify (text : string) : string :=
  Str.strip_with (Ascii.eqb "-") (dash_runs false (Str.lower text)).

(** [_clamp(val, low, high)] *)
Definition _clamp (val low high : Q) : Q :=
  Py.max low (Py.min high (Py.round val 1)).

(** [x or y] on a string that may be [None]. *)
Definition or_else (x : option string) (y : string) : string :=
  match x with
  | Some (String c s) => String c s
  | _ => y
  end.

Definition _logo_for_make (make : option string) : string :=
  let first := Str.upper (Str.slice_to 1 (Str.strip (or_else make "E"))) in
  match first with
  | EmptyString => "E"
  | _ => first
  end.

Fixpoint sum_ord (text : string) : Z :=
  match text with
  | EmptyString => 0
  | String ch text' => (Z.of_nat (nat_of_ascii ch) + sum_ord text')%Z
  end.

(** [_hash_bucket(text, mod)]; [None] is the ZeroDivisionError of [% 0]. *)
Definition _hash_bucket (text : option string) (mod_ : Z) : option Z :=
  if (mod_ =? 0)%Z then None
  else Some (sum_ord (or_else text "") mod mod_)%Z.

(** [sum(1 for kw in keywords if kw in claim_lower)] *)
Definition keyword_hits (keywords : list string) (claim_lower : string) : Z :=
  Z.of_nat (List.length (List.filter (fun kw => Str.contains kw claim_lower) keywords)).

(** [max(scores, key=scores.get)] after the first item: a later key wins
    only with a strictly larger score. *)
Fixpoint max_key (best : string * Z) (scores : list (string * Z)) : string * Z :=
  match scores with
  | [] => best
  | item :: scores' =>
      max_key (if (snd best <? snd item)%Z then item else best) scores'
  end.

(** [max] of an empty dictionary raises; [PILLAR_KEYWORDS] has six keys, so
    the first branch is never taken. *)
Definition _infer_pillar (claim_text : string) : string :=
  let claim_lower := Str.lower claim_text in
  let scores :=
    map (fun '(pillar, keywords) => (pillar, keyword_hits keywords claim_lower))
        PILLAR_KEYWORDS in
  match scores with
  | [] => "supply_chain"
  | first :: rest =>
      let best := max_key first rest in
      if (0 <? snd best)%Z then fst best else "supply_chain"
  end.

(** [sum(text_lower.count(kw) for kw in keywords)] *)
Definition keyword_count (keywords : list string) (text_lower : string) : Z :=
  fold_left (fun total kw => (total + Str.count kw text_lower)%Z) keywords 0%Z.

Definition pillar_score_of_hits (hits : Z) : Z :=
  if (hits =? 0)%Z then 22
  else if (hits <? 3)%Z then 40 + hits * 10
  else Z.min 95 (62 + hits * 4).

Definition _estimate_pillar_scores (text : string) : gmap string Q :=
  let text_lower := Str.lower text in
  list_to_map
    (map (fun '(pillar, keywords) =>
            (pillar, inject_Z (pillar_score_of_hits (keyword_count keywords text_lower))))
         PILLAR_KEYWORDS).

Definition _estimate_regulatory_alignment (text : string) : list (string * bool) :=
  let text_lower := Str.lower text in
  [ ("GRI", Str.contains "gri" text_lower
            || Str.contains "global reporting initiative" text_lower);
    ("CSRD", Str.contains "csrd" text_lower);
    ("SEC_Climate", Str.contains "sec climate" text_lower
                    || Str.contains "sec rule" text_lower);
    ("TCFD", Str.contains "tcfd" text_lower) ].

Definition _estimate_offset_quality (text : string) : string :=
  let text_lower := Str.lower text in
  if Str.contains "gold standard" text_lower then "Gold Standard"
  else if Str.contains "vcs" text_lower
          || Str.contains "verified carbon standard" text_lower then "VCS"
  else if Str.contains "offset" text_lower
          || Str.contains "carbon credit" text_lower
          || Str.contains "rec" text_lower then "Unverified"
  else "None".

(** The loop of [_fallback_claims_from_lines]: it stops once 120 claims
    are collected; [room] is how many more it may take. *)
Fixpoint fallback_loop (room : nat) (lines : list string)
  : list (string * Classification.t) :=
  match room, lines with
  | O, _ => []
  | _, [] => []
  | S room', line :: lines' =>
      let cleaned := Str.join " " (Str.split line) in
      if (Z.of_nat (String.length cleaned) <? 28)%Z
      then fallback_loop room lines'
      else (cleaned, classify_claim cleaned) :: fallback_loop room' lines'
  end.

Definition _fallback_claims_from_lines (text : string)
  : list (string * Classification.t) :=
  fallback_loop 120 (Str.splitlines text).

(** ** app.py: the company synthesized from an uploaded report

    [api_analyze_pdf] from the extraction of claims to the dictionary handed
    to [compute_lts]; [name] stands for
    [os.path.splitext(file.filename)[0][:60]].  [None] is the abort with
    status 400 for a text without analyzable claims.  The key
    ["offset_quality"] of an extracted claim, which the engine never reads,
    is not carried over. *)

Definition enrich (c : string * Classification.t) : Claim.t :=
  {| Claim.text := Some (fst c);
     Claim.type := Some (Classification.type (snd c));
     Claim.pillar := Some (_infer_pillar (fst c));
     Claim.confidence := Some (Classification.confidence (snd c));
     Claim.verified := Some (String.eqb (Classification.type (snd c)) "NUMERIC") |}.

Definition pdf_claims (full_text : string) : list (string * Classification.t) :=
  let claims := extract_and_classify_claims (Str.slice_to 240000 full_text) in
  let claims :=
    match claims with
    | [] => _fallback_claims_from_lines (Str.slice_to 240000 full_text)
    | _ => claims
    end in
  firstn 120 claims.

Definition pdf_offset_dependency (full_text : string) : Q :=
  Py.min 90
    (inject_Z
       (fold_left (fun total k => (total + Str.count k (Str.lower full_text))%Z)
                  ["offset"; "carbon credit"; "rec"] 0%Z
        * 3)).

Definition synthetic_company (full_text name : string) : option Company.t :=
  match pdf_claims full_text with
  | [] => None
  | claims =>
      let enriched_claims := map enrich claims in
      let pillar_scores := _estimate_pillar_scores full_text in
      let prior_scores := (fun v => Py.max 0 (v - 4)) <$> pillar_scores in
      Some {| Company.name := Some name;
              Company.model := Some "Uploaded Sustainability Report";
              Company.report_year := Some 2024%Z;
              Company.claims := Some enriched_claims;
              Company.pillar_scores := Some pillar_scores;
              Company.prior_year_scores := Some prior_scores;
              Company.offset_dependency := Some (pdf_offset_dependency full_text);
              Company.offset_quality := Some (_estimate_offset_quality full_text);
              Company.regulatory_alignment := Some (_estimate_regulatory_alignment full_text);
              Company.grid_carbon_intensity_gco2_kwh := Some 420 |}
  end.

(** The six pillars, in the order of [PILLAR_WEIGHTS]. *)
Definition pillar_names : list string := map fst PILLAR_WEIGHTS.

(** How many claims count under [type]; a claim without a type counts as
    VAGUE. *)
Definition count_type (type : string) (claims : list Claim.t) : Z :=
  Z.of_nat
    (List.length
       (List.filter (fun claim => String.eqb (default "VAGUE" (Claim.type claim)) type)
                    claims)).

Definition known_type (type : string) : Prop :=
  type = "NUMERIC" \/ type = "VAGUE" \/ type = "OFFSET_BACKED".

(** A company record with other pillar scores and offset dependency. *)
Definition rescored (c : Company.t) (pillar_scores : gmap string Q) (dependency : Q)
  : Company.t :=
  {| Company.name := Company.name c;
     Company.model := Company.model c;
     Company.report_year := Company.report_year c;
     Company.claims := Company.claims c;
     Company.pillar_scores := Some pillar_scores;
     Company.prior_year_scores := Company.prior_year_scores c;
     Company.offset_dependency := Some dependency;
     Company.offset_quality := Company.offset_quality c;
     Company.regulatory_alignment := Company.regulatory_alignment c;
     Company.grid_carbon_intensity_gco2_kwh := Company.grid_carbon_intensity_gco2_kwh c |}.

(** The fallback suggestion of [suggest_rewrite]. *)
Definition generic_suggestion : string :=
  "Replace vague language with specific metrics, timelines, and verified data sources.".

Definition starts_with_space (s : string) : bool :=
  match s with String c _ => Re.is_space c | EmptyString => false end.

(** Somewhere in [s], whitespace directly follows one of [.], [!], [?]. *)
Fixpoint has_break (s : string) : bool :=
  match s with
  | EmptyString => false
  | String c1 s' =>
      match s' with
      | EmptyString => false
      | String c2 _ => (is_sentence_end c1 && Re.is_space c2) || has_break s'
      end
  end.

(** [s] holds no whitespace character. *)
Fixpoint no_space (s : string) : bool :=
  match s with
  | EmptyString => true
  | String c s' => negb (Str.isspace c) && no_space s'
  end.

(** A word as [str.split] gives them: not empty, no whitespace inside. *)
Definition is_word (w : string) : Prop := w <> EmptyString /\ no_space w = true.

(** The keys of [_estimate_pillar_scores] with the keywords counted for each. *)
Definition keywords_of (pillar : string) : list string :=
  Py.get PILLAR_KEYWORDS pillar [].

(** The prior-year scores that [api_analyze_pdf] derives. *)
Definition pdf_prior_scores (pillar_scores : gmap string Q) : gmap string Q :=
  (fun v => Py.max 0 (v - 4)) <$> pillar_scores.

(** Letters [a-z], digits and dashes only, no two dashes in a row;
    [after_dash] says that a dash may not come next. *)
Fixpoint dashed (after_dash : bool) (s : string) : bool :=
  match s with
  | EmptyString => true
  | String c s' =>
      if is_slug_char c then dashed false s'
      else Ascii.eqb c "-" && negb after_dash && dashed true s'
  end.

(** The same, and the string does not end with a dash (nor is it empty
    when [after_dash] holds). *)
Fixpoint slug_body (after_dash : bool) (s : string) : bool :=
  match s with
  | EmptyString => negb after_dash
  | String c s' =>
      if is_slug_char c then slug_body false s'
      else Ascii.eqb c "-" && negb after_dash && slug_body true s'
  end.

(** A slug: empty, or runs of [a-z0-9] separated by single dashes. *)
Definition is_slug (s : string) : Prop :=
  s = EmptyString \/ slug_body true s = true.

(** The six pillars with the number of their keywords that occur in the
    lower-cased claim, in table order. *)
Definition pillar_hits (claim_text : string) : list (string * Z) :=
  map (fun pillar => (pillar, keyword_hits (keywords_of pillar) (Str.lower claim_text)))
      pillar_names.

(** [n] spaces. *)
Fixpoint spaces (n : nat) : string :=
  match n with
  | O => EmptyString
  | S n' => String " " (spaces n')
  end.

(** ** The numeric pipeline in binary64

    The functions of the engine that compute with floats, with Python's
    float arithmetic in place of exact arithmetic.  The records, the
    constant tables and the parts that do not compute (classification by
    thresholds, fingerprints, errors) are the ones above. *)

Module Binary64.

(** [engine/offset_detector.py] *)
Definition analyze_offsets (offset_dependency_pct : Q) (offset_quality : string)
  : OffsetAnalysis.t :=
  let quality_score := Py.get QUALITY_SCORES offset_quality 25%Z in
  let dependency_penalty :=
    if String.eqb offset_quality "None" then 0
    else if F64.ltb OFFSET_THRESHOLD offset_dependency_pct then
      let excess := F64.sub offset_dependency_pct OFFSET_THRESHOLD in
      Py.min
        (F64.round
           (F64.mul (F64.mul (F64.div excess 10) (quality_multiplier quality_score)) 3) 1)
        20
    else 0 in
  let risk : string * string :=   (* risk, risk_label *)
    if String.eqb offset_quality "None"
       || (F64.ltb offset_dependency_pct 15 && (65 <=? quality_score)%Z)
    then ("LOW", "✅ Low Offset Risk")
    else if F64.ltb offset_dependency_pct OFFSET_THRESHOLD && (65 <=? quality_score)%Z
    then ("MODERATE", "⚠️ Moderate Offset Risk")
    else if String.eqb offset_quality "Unverified" || F64.ltb 50 offset_dependency_pct
    then ("HIGH", "🚨 High Greenwash Risk")
    else ("MODERATE", "⚠️ Moderate Offset Risk") in
  {| OffsetAnalysis.offset_dependency_pct := offset_dependency_pct;
     OffsetAnalysis.offset_quality := offset_quality;
     OffsetAnalysis.quality_score := quality_score;
     OffsetAnalysis.quality_description := Py.get QUALITY_DESCRIPTIONS offset_quality "Unknown offset type.";
     OffsetAnalysis.dependency_penalty := dependency_penalty;
     OffsetAnalysis.risk_level := fst risk;
     OffsetAnalysis.risk_label := snd risk;
     OffsetAnalysis.threshold := OFFSET_THRESHOLD;
     OffsetAnalysis.exceeds_threshold :=
       F64.ltb OFFSET_THRESHOLD offset_dependency_pct
       && negb (String.eqb offset_quality "None") |}.

(** [engine/lifecycle_scorer.py] *)
Definition compute_weighted_score (pillar_scores : gmap string Q) : Q :=
  let total :=
    fold_left
      (fun total '(pillar, weight) =>
         F64.add total (F64.mul (score_of pillar_scores pillar) weight))
      PILLAR_WEIGHTS 0 in
  F64.round total 2.

Definition drift_entry (current previous : gmap string Q) (pillar : string) : Drift.t :=
  let cur := score_of current pillar in
  let prev := score_of previous pillar in
  let delta := F64.sub cur prev in
  {| Drift.current := cur;
     Drift.previous := prev;
     Drift.delta := F64.round delta 1;
     Drift.trend := trend_of delta |}.

Definition compute_drift (current previous : gmap string Q) : list (string * Drift.t) :=
  map (fun '(pillar, _) => (pillar, drift_entry current previous pillar)) PILLAR_WEIGHTS.

(** [engine/nlp_engine.py] *)
Definition get_claim_quality_ratio (claims : list Claim.t) : result Ratio.t :=
  let total := Z.of_nat (List.length claims) in
  if (total =? 0)%Z then
    Ok {| Ratio.numeric := 0; Ratio.vague := 0; Ratio.offset := 0; Ratio.counts := None |}
  else
    counts ← count_claims claims
               {| Counts.NUMERIC := 0; Counts.VAGUE := 0; Counts.OFFSET_BACKED := 0 |};
    Ok {| Ratio.numeric := F64.round (F64.div (inject_Z (Counts.NUMERIC counts)) (inject_Z total)) 3;
          Ratio.vague := F64.round (F64.div (inject_Z (Counts.VAGUE counts)) (inject_Z total)) 3;
          Ratio.offset := F64.round (F64.div (inject_Z (Counts.OFFSET_BACKED counts)) (inject_Z total)) 3;
          Ratio.counts :=
            Some {| Ratio.numeric_count := Counts.NUMERIC counts;
                    Ratio.vague_count := Counts.VAGUE counts;
                    Ratio.offset_count := Counts.OFFSET_BACKED counts;
                    Ratio.total := total |} |}.

(** [engine/scoring.py] *)
Definition compute_regulatory_bonus (alignment : list (string * bool)) : Q :=
  let bonus :=
    fold_left
      (fun bonus '(standard, met) =>
         if met : bool then F64.add bonus (Py.get REGULATORY_BONUSES standard 0) else bonus)
      alignment 0 in
  Py.min bonus 8.

Definition compute_investor_esg_index (lts_score : Q) (offset_risk : string) : Esg.t :=
  let base := lts_score in
  let offset_penalty_map := [ ("LOW", 0); ("MODERATE", -5); ("HIGH", -15) ] in
  let adjusted := Py.max 0 (F64.add base (Py.get offset_penalty_map offset_risk 0)) in
  let rating : string * string :=   (* rating, interpretation *)
    if Py.leb 75 adjusted then ("AAA", "Minimal ESG disclosure risk")
    else if Py.leb 60 adjusted then ("AA", "Low-moderate ESG risk")
    else if Py.leb 45 adjusted then ("BBB", "Moderate ESG risk — gaps in lifecycle reporting")
    else if Py.leb 30 adjusted then ("BB", "Elevated ESG risk — significant disclosure weaknesses")
    else ("CCC", "High ESG risk — greenwashing exposure") in
  {| Esg.score := F64.round adjusted 1;
     Esg.rating := fst rating;
     Esg.interpretation := snd rating |}.

Definition grid_penalty_of (grid_intensity : Q) : Q :=
  if F64.ltb 500 grid_intensity then -2
  else if F64.ltb 400 grid_intensity then -1
  else 0.

Definition compute_lts (company_data : Company.t) : result Lts.t :=
  let claims := default [] (Company.claims company_data) in
  let pillar_scores := default ∅ (Company.pillar_scores company_data) in
  let prior_year := default ∅ (Company.prior_year_scores company_data) in
  let offset_dep := default 0 (Company.offset_dependency company_data) in
  let offset_quality := default "Unverified" (Company.offset_quality company_data) in
  let regulatory := default [] (Company.regulatory_alignment company_data) in
  let grid_intensity := default 400 (Company.grid_carbon_intensity_gco2_kwh company_data) in
  (* 1. Weighted pillar score *)
  let pillar_total := compute_weighted_score pillar_scores in
  (* 2. Claim quality ratio *)
  claim_ratio ← get_claim_quality_ratio claims;
  let claim_quality_adjustment :=
    F64.round
      (F64.sub (F64.mul (Ratio.numeric claim_ratio) 8) (F64.mul (Ratio.vague claim_ratio) 6)) 2 in
  (* 3. Offset analysis *)
  let offset_analysis := analyze_offsets offset_dep offset_quality in
  let offset_penalty := OffsetAnalysis.dependency_penalty offset_analysis in
  (* 4. Regulatory alignment bonus *)
  let regulatory_bonus := compute_regulatory_bonus regulatory in
  (* 5. Grid carbon adjustment *)
  let grid_penalty := grid_penalty_of grid_intensity in
  (* 6. Final LTS *)
  let raw_lts :=
    F64.add
      (F64.add (F64.sub (F64.add pillar_total claim_quality_adjustment) offset_penalty)
               regulatory_bonus)
      grid_penalty in
  let lts := F64.round (Py.max 0 (Py.min 100 raw_lts)) 1 in
  (* 7. Risk classification *)
  let risk := classify_risk lts in
  (* 8. ESG investor index *)
  let esg_index := compute_investor_esg_index lts (OffsetAnalysis.risk_level offset_analysis) in
  (* 9. Greenwash fingerprint per claim *)
  fingerprinted_claims ← fingerprint_all offset_quality claims;
  Ok {| Lts.company := Company.name company_data;
        Lts.model := Company.model company_data;
        Lts.report_year := Company.report_year company_data;
        Lts.lts := lts;
        Lts.risk := risk;
        Lts.breakdown :=
          {| Breakdown.pillar_weighted_base := F64.round pillar_total 1;
             Breakdown.claim_quality_adjustment := claim_quality_adjustment;
             Breakdown.offset_penalty := - offset_penalty;
             Breakdown.regulatory_bonus := regulatory_bonus;
             Breakdown.grid_penalty := grid_penalty |};
        Lts.pillar_scores := pillar_scores;
        Lts.prior_year_scores := prior_year;
        Lts.claim_ratio := claim_ratio;
        Lts.claims := fingerprinted_claims;
        Lts.offset_analysis := offset_analysis;
        Lts.regulatory_alignment := regulatory;
        Lts.grid_carbon_intensity := grid_intensity;
        Lts.esg_investor_index := esg_index |}.

End Binary64.

(** ** Vocabulary of the specification

    What the specification's sentences speak of, defined on their own terms
    so that the code above can be compared with them. *)

(** [sub] occurs in [s]. *)
Definition occurs_in (sub s : string) : Prop :=
  exists pre post : string, s = pre ++ sub ++ post.

(** The words a regular expression denotes, letter case ignored. *)
Inductive Matches : Re.regex -> string -> Prop :=
| MEps : Matches Re.Eps ""
| MAtom a c : Re.atom_matches a c = true -> Matches (Re.Atom a) (String c "")
| MCat r1 r2 w1 w2 : Matches r1 w1 -> Matches r2 w2 -> Matches (Re.Cat r1 r2) (w1 ++ w2)
| MAltL r1 r2 w : Matches r1 w -> Matches (Re.Alt r1 r2) w
| MAltR r1 r2 w : Matches r2 w -> Matches (Re.Alt r1 r2) w
| MStar0 r : Matches (Re.Star r) ""
| MStarS r w1 w2 : Matches r w1 -> Matches (Re.Star r) w2 -> Matches (Re.Star r) (w1 ++ w2).

(** Some part of [s] is a word of [r]. *)
Definition found_in (r : Re.regex) (s : string) : Prop :=
  exists pre w post : string, s = pre ++ w ++ post /\ Matches r w.

Definition has_offset_phrase (sentence : string) : Prop :=
  exists phrase, In phrase OFFSET_PHRASES
                 /\ occurs_in (Str.lower phrase) (Str.lower sentence).

Definition has_numeric_pattern (sentence : string) : Prop :=
  exists pattern, In pattern NUMERIC_PATTERNS /\ found_in pattern sentence.


(** The binary64 numbers: a significand of at most 53 bits at an exponent
    no smaller than that of the subnormal numbers. *)
Definition representable (x : Q) : Prop :=
  exists m e : Z, (Z.abs m <= 2 ^ 53)%Z /\ (-1074 <= e)%Z /\ x == inject_Z m * F64.pow2 e.

(** [clamp(x, lo, hi)] *)
Definition clamp (x lo hi : Q) : Q := Qmax lo (Qmin hi x).

(** The fixed bonus of a standard; 0 outside the table. *)
Definition fixed_bonus (standard : string) : Q :=
  if String.eqb standard "GRI" then 2
  else if String.eqb standard "CSRD" then 3
  else if String.eqb standard "SEC_Climate" then 25 # 10
  else if String.eqb standard "TCFD" then 15 # 10
  else 0.

(** The sum of the fixed bonuses over the standards flagged true. *)
Fixpoint flagged_sum (alignment : list (string * bool)) : Q :=
  match alignment with
  | [] => 0
  | (standard, met) :: rest =>
      (if met then fixed_bonus standard else 0) + flagged_sum rest
  end.

(** How many entries flag [standard] true. *)
Fixpoint flagged_count (standard : string) (alignment : list (string * bool)) : Z :=
  match alignment with
  | [] => 0
  | (s, met) :: rest =>
      ((if met && String.eqb s standard then 1 else 0) + flagged_count standard rest)%Z
  end.

(** How many terms of a list occur in the content. *)
Fixpoint hit_count (terms : list string) (content : string) : Z :=
  match terms with
  | [] => 0
  | t :: terms' =>
      ((if Str.contains t content then 1 else 0) + hit_count terms' content)%Z
  end.

(** 3*core + 2*vehicle + 1*supply + 4*anchor + 3*company - 2*non_ev *)
Definition weighted_score (content : string) : Z :=
  (3 * hit_count EV_DOMAIN_TERMS_core content
   + 2 * hit_count EV_DOMAIN_TERMS_vehicle content
   + 1 * hit_count EV_DOMAIN_TERMS_supply content
   + 4 * hit_count EV_AUTO_ANCHORS content
   + 3 * hit_count KNOWN_EV_COMPANIES content
   - 2 * hit_count NON_EV_SIGNAL_TERMS content)%Z.

(** A claim with a text and one of the three types. *)
Definition well_typed_claim (claim : Claim.t) : Prop :=
  (exists text, Claim.text claim = Some text)
  /\ (Claim.type claim = Some "NUMERIC"
      \/ Claim.type claim = Some "VAGUE"
      \/ Claim.type claim = Some "OFFSET_BACKED").

Definition well_typed (company_data : Company.t) : Prop :=
  Forall well_typed_claim (default [] (Company.claims company_data)).

(** The aggregate before clamping, from the parts of a result. *)
Definition raw_lts (pillar_total claim_quality_adjustment offset_penalty
                    regulatory_bonus grid_penalty : Q) : Q :=
  pillar_total + claim_quality_adjustment - offset_penalty + regulatory_bonus + grid_penalty.

(** Inputs used as examples below. *)
Definition pillars_at (score : Q) : gmap string Q :=
  list_to_map (map (fun '(pillar, _) => (pillar, score)) PILLAR_WEIGHTS).

Definition all_four_standards : list (string * bool) :=
  [ ("GRI", true); ("CSRD", true); ("SEC_Climate", true); ("TCFD", true) ].

Definition saturated_company : Company.t :=
  {| Company.name := Some "Example Motors";
     Company.model := None;
     Company.report_year := None;
     Company.claims := Some [];
     Company.pillar_scores := Some (pillars_at 100);
     Company.prior_year_scores := None;
     Company.offset_dependency := Some 0;
     Company.offset_quality := Some "None";
     Company.regulatory_alignment := Some all_four_standards;
     Company.grid_carbon_intensity_gco2_kwh := Some 300 |}.

Definition claim_of (type text : string) : Claim.t :=
  {| Claim.text := Some text;
     Claim.type := Some type;
     Claim.pillar := None;
     Claim.confidence := None;
     Claim.verified := Some true |}.

Definition typed_company : Company.t :=
  {| Company.name := Some "Example Motors";
     Company.model := Some "E1";
     Company.report_year := Some 2024%Z;
     Company.claims :=
       Some [ claim_of "VAGUE" "We are committed to a sustainable future";
              claim_of "NUMERIC" "Scope 1 emissions reduced by 45% since 2019";
              claim_of "OFFSET_BACKED" "Remaining emissions are covered by carbon credits" ];
     Company.pillar_scores := Some (pillars_at 50);
     Company.prior_year_scores := Some (pillars_at 47);
     Company.offset_dependency := Some 80;
     Company.offset_quality := None;
     Company.regulatory_alignment := Some [ ("GRI", true); ("TCFD", false) ];
     Company.grid_carbon_intensity_gco2_kwh := Some 600 |}.

(** * Properties *)

Section PyFacts.

Lemma ltb_lt (a b : Q) : Py.ltb a b = true <-> a < b.
Proof.
  unfold Py.ltb. rewrite Qlt_alt.
  destruct (Qcompare a b); split; congruence.
Qed.

Lemma ltb_ge (a b : Q) : Py.ltb a b = false <-> b <= a.
Proof.
  rewrite <- not_true_iff_false, ltb_lt. split; [apply Qnot_lt_le | apply Qle_not_lt].
Qed.

Lemma leb_le (a b : Q) : Py.leb a b = true <-> a <= b.
Proof.
  unfold Py.leb. rewrite Qle_alt.
  destruct (Qcompare a b); split; congruence.
Qed.

Lemma min_Qmin (a b : Q) : Py.min a b == Qmin a b.
Proof.
  unfold Py.min. destruct (Py.ltb b a) eqn:E.
  - apply ltb_lt in E. symmetry. apply Q.min_r. lra.
  - apply ltb_ge in E. symmetry. apply Q.min_l. exact E.
Qed.

Lemma max_Qmax (a b : Q) : Py.max a b == Qmax a b.
Proof.
  unfold Py.max. destruct (Py.ltb a b) eqn:E.
  - apply ltb_lt in E. symmetry. apply Q.max_r. lra.
  - apply ltb_ge in E. symmetry. apply Q.max_l. exact E.
Qed.

Lemma round_half_even_ge (k : Z) (x : Q) :
  inject_Z k <= x -> (k <= Py.round_half_even x)%Z.
Proof.
  intros H. apply Qfloor_resp_le in H. rewrite Qfloor_Z in H.
  unfold Py.round_half_even.
  destruct (Qcompare _ _); [destruct (Z.even _) | |]; lia.
Qed.

Lemma round_half_even_le (k : Z) (x : Q) :
  x <= inject_Z k -> (Py.round_half_even x <= k)%Z.
Proof.
  intros H. pose proof (Qfloor_resp_le _ _ H) as Hf. rewrite Qfloor_Z in Hf.
  unfold Py.round_half_even.
  destruct (Z.eq_dec (Qfloor x) k) as [->|Hne].
  - destruct (Qcompare (x - inject_Z k) (1 # 2)) eqn:E; [|lia|].
    + apply Qeq_alt in E. lra.
    + apply Qgt_alt in E. lra.
  - destruct (Qcompare _ _); [destruct (Z.even _) | |]; lia.
Qed.

Lemma pow10_pos (n : nat) : 0 < Py.pow10 n.
Proof.
  unfold Py.pow10. change 0 with (inject_Z 0). rewrite <- Zlt_Qlt.
  apply Z.pow_pos_nonneg; lia.
Qed.

Lemma round_ge (k : Z) (x : Q) (n : nat) :
  inject_Z k <= x -> inject_Z k <= Py.round x n.
Proof.
  intros H. unfold Py.round. pose proof (pow10_pos n) as Hp.
  apply Qle_shift_div_l; [exact Hp|].
  unfold Py.pow10 in *. rewrite <- inject_Z_mult, <- Zle_Qle.
  apply round_half_even_ge. rewrite inject_Z_mult.
  apply Qmult_le_compat_r; lra.
Qed.

Lemma round_le (k : Z) (x : Q) (n : nat) :
  x <= inject_Z k -> Py.round x n <= inject_Z k.
Proof.
  intros H. unfold Py.round. pose proof (pow10_pos n) as Hp.
  apply Qle_shift_div_r; [exact Hp|].
  unfold Py.pow10 in *. rewrite <- inject_Z_mult, <- Zle_Qle.
  apply round_half_even_le. rewrite inject_Z_mult.
  apply Qmult_le_compat_r; lra.
Qed.

#[export] Instance round_half_even_proper : Proper (Qeq ==> eq) Py.round_half_even.
Proof.
  intros x y E. unfold Py.round_half_even.
  rewrite (Qfloor_comp _ _ E).
  assert (Qcompare (x - inject_Z (Qfloor y)) (1 # 2) = Qcompare (y - inject_Z (Qfloor y)) (1 # 2)) as ->.
  { apply Qcompare_comp; [rewrite E|]; reflexivity. }
  reflexivity.
Qed.

#[export] Instance round_proper : Proper (Qeq ==> eq ==> Qeq) Py.round.
Proof.
  intros x y E n ? <-. unfold Py.round.
  assert (x * Py.pow10 n == y * Py.pow10 n) as -> by (rewrite E; reflexivity).
  reflexivity.
Qed.

Lemma round_zero (n : nat) : Py.round 0 n == 0.
Proof.
  apply Qle_antisym.
  - apply (round_le 0), Qle_refl.
  - apply (round_ge 0), Qle_refl.
Qed.

End PyFacts.

#[local] Arguments String.append !s1 s2 : simpl nomatch.

Section StringFacts.

Lemma app_nil_r (s : string) : (s ++ "")%string = s.
Proof. induction s as [|c s IH]; simpl; [reflexivity | now rewrite IH]. Qed.

Lemma app_assoc (a b c : string) : ((a ++ b) ++ c = a ++ (b ++ c))%string.
Proof. induction a as [|x a IH]; simpl; [reflexivity | now rewrite IH]. Qed.

Lemma app_eq_nil (a b : string) : (a ++ b)%string = "" -> a = "" /\ b = "".
Proof. destruct a; simpl; [auto | discriminate]. Qed.

Lemma startswith_spec (p s : string) :
  Str.startswith p s = true <-> exists post, s = (p ++ post)%string.
Proof.
  revert s. induction p as [|a p IH]; intros [|b s]; simpl.
  - split; [exists ""; reflexivity | reflexivity].
  - split; [eexists; reflexivity | reflexivity].
  - split; [discriminate | intros [post H]; discriminate].
  - rewrite andb_true_iff, Ascii.eqb_eq, IH. split.
    + intros [-> [post ->]]. exists post. reflexivity.
    + intros [post H]. injection H as -> ->. eauto.
Qed.

(** [Str.contains] decides occurrence. *)
Lemma contains_spec (sub s : string) :
  Str.contains sub s = true <-> occurs_in sub s.
Proof.
  unfold occurs_in. induction s as [|c s IH].
  - simpl. rewrite orb_false_r, startswith_spec. split.
    + intros [post H]. exists "", post. exact H.
    + intros (pre & post & H). symmetry in H.
      apply app_eq_nil in H as [-> H]. exists post. simpl. now symmetry.
  - change (Str.contains sub (String c s))
      with (Str.startswith sub (String c s) || Str.contains sub s).
    rewrite orb_true_iff, startswith_spec, IH. split.
    + intros [[post H] | (pre & post & H)].
      * exists "", post. exact H.
      * exists (String c pre), post. simpl. now rewrite H.
    + intros ([|x pre] & post & H); simpl in H.
      * left. eauto.
      * right. injection H as -> ->. eauto.
Qed.

Lemma lower_app (a b : string) :
  Str.lower (a ++ b) = (Str.lower a ++ Str.lower b)%string.
Proof. induction a as [|c a IH]; simpl; [reflexivity | now rewrite IH]. Qed.

Lemma occurs_in_lower (sub s : string) :
  occurs_in sub s -> occurs_in (Str.lower sub) (Str.lower s).
Proof.
  intros (pre & post & ->). exists (Str.lower pre), (Str.lower post).
  now rewrite !lower_app.
Qed.

End StringFacts.

Section RegexFacts.

Lemma nullable_spec (r : Re.regex) : Re.nullable r = true <-> Matches r "".
Proof.
  induction r as [| |a|r1 IH1 r2 IH2|r1 IH1 r2 IH2|r IH]; simpl.
  - split; [discriminate | inversion 1].
  - split; [constructor | reflexivity].
  - split; [discriminate | inversion 1].
  - rewrite andb_true_iff, IH1, IH2. split.
    + intros [H1 H2]. apply (MCat _ _ "" "" H1 H2).
    + inversion 1 as [| |? ? w1 w2 H1 H2 E1 E2| | | |]; subst.
      apply app_eq_nil in E2 as [-> ->]. auto.
  - rewrite orb_true_iff, IH1, IH2. split.
    + intros [H|H]; [apply MAltL | apply MAltR]; exact H.
    + inversion 1; subst; auto.
  - split; [constructor | reflexivity].
Qed.

Lemma cat_spec (r1 r2 : Re.regex) (w : string) :
  Matches (Re.cat r1 r2) w <-> Matches (Re.Cat r1 r2) w.
Proof.
  split.
  - destruct r1, r2; simpl; try (inversion 1; fail); try (exact id);
      intros H; apply (MCat _ _ "" w MEps H).
  - intros H. inversion H as [| |? ? w1 w2 H1 H2 E1 E2| | | |]; subst.
    destruct r1, r2; simpl; try (inversion H1; fail); try (inversion H2; fail);
      try exact H; inversion H1; subst; exact H2.
Qed.

Lemma alt_spec (r1 r2 : Re.regex) (w : string) :
  Matches (Re.alt r1 r2) w <-> Matches (Re.Alt r1 r2) w.
Proof.
  split.
  - destruct r1, r2; simpl; try (exact id);
      intros H; first [ apply MAltR; exact H | apply MAltL; exact H ].
  - intros H. inversion H as [| | |? ? ? H1|? ? ? H2| |]; subst;
      destruct r1, r2; simpl; try (inversion H1; fail); try (inversion H2; fail);
      first [ exact H | exact H1 | exact H2 ].
Qed.

(** Splitting a non-empty word of a starred expression at its first
    non-empty iteration. *)
Lemma star_cons (r : Re.regex) (c : ascii) (w : string) :
  Matches (Re.Star r) (String c w) ->
  exists w1 w2, w = (w1 ++ w2)%string /\ Matches r (String c w1) /\ Matches (Re.Star r) w2.
Proof.
  intros H. remember (Re.Star r) as e eqn:He. remember (String c w) as s eqn:Hs.
  revert w Hs. induction H as [| | | | | |r' w1 w2 H1 _ H2 IH2]; intros v Hs;
    try discriminate.
  injection He as ->. destruct w1 as [|x w1]; simpl in Hs.
  - apply IH2; [reflexivity | exact Hs].
  - injection Hs as -> <-. eauto.
Qed.

Lemma deriv_spec (c : ascii) (r : Re.regex) (w : string) :
  Matches (Re.deriv c r) w <-> Matches r (String c w).
Proof.
  revert w. induction r as [| |a|r1 IH1 r2 IH2|r1 IH1 r2 IH2|r IH]; intros w; simpl.
  - split; inversion 1.
  - split; inversion 1.
  - destruct (Re.atom_matches a c) eqn:E; split.
    + inversion 1; subst. now constructor.
    + inversion 1; subst. constructor.
    + inversion 1.
    + inversion 1; subst. congruence.
  - rewrite alt_spec. split.
    + inversion 1 as [| | |? ? ? H1|? ? ? H2| |]; subst.
      * apply cat_spec in H1.
        inversion H1 as [| |? ? w1 w2 Ha Hb E1 E2| | | |]; subst.
        apply IH1 in Ha. apply (MCat _ _ (String c w1) w2 Ha Hb).
      * destruct (Re.nullable r1) eqn:E; [|inversion H2].
        apply nullable_spec in E. apply IH2 in H2.
        apply (MCat _ _ "" _ E H2).
    + inversion 1 as [| |? ? w1 w2 Ha Hb E1 E2| | | |]; subst.
      destruct w1 as [|x w1]; simpl in E2.
      * subst w2. apply MAltR. apply nullable_spec in Ha. rewrite Ha.
        now apply IH2.
      * injection E2 as -> <-. apply MAltL, cat_spec.
        apply MCat; [now apply IH1 | exact Hb].
  - rewrite alt_spec. split.
    + inversion 1; subst; [apply MAltL, IH1 | apply MAltR, IH2]; assumption.
    + inversion 1; subst; [apply MAltL, IH1 | apply MAltR, IH2]; assumption.
  - rewrite cat_spec. split.
    + inversion 1 as [| |? ? w1 w2 Ha Hb E1 E2| | | |]; subst.
      apply IH in Ha. apply (MStarS _ (String c w1) w2 Ha Hb).
    + intros H. apply star_cons in H as (w1 & w2 & -> & Ha & Hb).
      apply MCat; [now apply IH | exact Hb].
Qed.

Lemma match_prefix_spec (r : Re.regex) (s : string) :
  Re.match_prefix r s = true
  <-> exists w post, s = (w ++ post)%string /\ Matches r w.
Proof.
  revert r. induction s as [|c s IH]; intros r.
  - simpl. rewrite orb_false_r, nullable_spec. split.
    + intros H. exists "", "". auto.
    + intros (w & post & E & H). symmetry in E.
      apply app_eq_nil in E as [-> _]. exact H.
  - change (Re.match_prefix r (String c s))
      with (Re.nullable r || Re.match_prefix (Re.deriv c r) s).
    rewrite orb_true_iff, nullable_spec, IH. split.
    + intros [H | (w & post & -> & H)].
      * exists "", (String c s). auto.
      * exists (String c w), post. split; [reflexivity | now apply deriv_spec].
    + intros ([|x w] & post & E & H); simpl in E.
      * left. exact H.
      * right. injection E as -> ->. exists w, post.
        split; [reflexivity | now apply deriv_spec].
Qed.

(** [Re.search] decides whether a pattern is found in a text. *)
Lemma search_spec (r : Re.regex) (s : string) :
  Re.search r s = true <-> found_in r s.
Proof.
  unfold found_in. induction s as [|c s IH].
  - change (Re.search r "") with (Re.match_prefix r "" || false).
    rewrite orb_false_r, match_prefix_spec. split.
    + intros (w & post & E & H). exists "", w, post. auto.
    + intros (pre & w & post & E & H). symmetry in E.
      apply app_eq_nil in E as [-> E]. symmetry in E. eauto.
  - change (Re.search r (String c s))
      with (Re.match_prefix r (String c s) || Re.search r s).
    rewrite orb_true_iff, match_prefix_spec, IH. split.
    + intros [(w & post & E & H) | (pre & w & post & E & H)].
      * exists "", w, post. auto.
      * exists (String c pre), w, post. simpl. rewrite E. auto.
    + intros ([|x pre] & w & post & E & H); simpl in E.
      * left. eauto.
      * right. injection E as -> ->. eauto 6.
Qed.

End RegexFacts.

(** ** The offset risk analyzer *)

Section OffsetFacts.

(** C5. For every offset dependency percentage in [0,100], [analyze_offsets]
    with quality tier "None" returns a dependency penalty of 0 and the risk
    level "LOW". *)
Theorem analyze_offsets_none_tier (d : Q) :
  0 <= d <= 100 ->
  OffsetAnalysis.dependency_penalty (analyze_offsets d "None") = 0
  /\ OffsetAnalysis.risk_level (analyze_offsets d "None") = "LOW".
Proof. intros _. split; reflexivity. Qed.

Lemma analyze_offsets_none_tier_witness :
  0 <= 45 <= 100
  /\ OffsetAnalysis.dependency_penalty (analyze_offsets 45 "None") = 0
  /\ OffsetAnalysis.risk_level (analyze_offsets 45 "None") = "LOW".
Proof.
  split.
  - split; discriminate.
  - apply (analyze_offsets_none_tier 45). split; discriminate.
Defined.

Lemma penalty_bounds (x : Q) : 0 <= x -> 0 <= Py.min (Py.round x 1) 20 <= 20.
Proof.
  intros Hx. rewrite min_Qmin. split.
  - apply Q.min_glb; [apply (round_ge 0), Hx | discriminate].
  - apply Q.le_min_r.
Qed.

End OffsetFacts.

(** ** The drift calculator *)

Section DriftFacts.


End DriftFacts.

(** ** The regulatory bonus *)

Section RegulatoryFacts.

Lemma get_bonus_fixed (standard : string) :
  Py.get REGULATORY_BONUSES standard 0 = fixed_bonus standard.
Proof.
  unfold fixed_bonus, REGULATORY_BONUSES, Py.get.
  now rewrite !(String.eqb_sym standard).
Qed.

Lemma bonus_loop (alignment : list (string * bool)) (bonus : Q) :
  fold_left
    (fun bonus '(standard, met) =>
       if met : bool then bonus + Py.get REGULATORY_BONUSES standard 0 else bonus)
    alignment bonus
  == bonus + flagged_sum alignment.
Proof.
  revert bonus. induction alignment as [|[standard met] rest IH]; intros bonus.
  - simpl. ring.
  - cbn [fold_left flagged_sum]. rewrite IH, get_bonus_fixed.
    destruct met; ring.
Qed.

Lemma flagged_count_nonneg (standard : string) (alignment : list (string * bool)) :
  (0 <= flagged_count standard alignment)%Z.
Proof.
  induction alignment as [|[s met] rest IH]; simpl; [lia|].
  destruct (met && String.eqb s standard); lia.
Qed.

Lemma flagged_count_in (standard : string) (alignment : list (string * bool)) :
  In (standard, true) alignment -> (1 <= flagged_count standard alignment)%Z.
Proof.
  induction alignment as [|[s met] rest IH]; simpl; [tauto|].
  pose proof (flagged_count_nonneg standard rest).
  intros [E|Hin].
  - injection E as -> ->. simpl. rewrite String.eqb_refl. lia.
  - specialize (IH Hin). destruct (met && String.eqb s standard); lia.
Qed.

(** The sum, regrouped by standard. *)
Lemma flagged_sum_by_standard (alignment : list (string * bool)) :
  flagged_sum alignment
  == 2 * inject_Z (flagged_count "GRI" alignment)
     + 3 * inject_Z (flagged_count "CSRD" alignment)
     + (25 # 10) * inject_Z (flagged_count "SEC_Climate" alignment)
     + (15 # 10) * inject_Z (flagged_count "TCFD" alignment).
Proof.
  induction alignment as [|[s met] rest IH]; [reflexivity|].
  cbn [flagged_sum flagged_count]. rewrite IH, !inject_Z_plus.
  destruct met; cbn [andb]; [|change (inject_Z 0) with 0; ring].
  unfold fixed_bonus.
  destruct (String.eqb_spec s "GRI") as [->|_]; [cbn; ring|].
  destruct (String.eqb_spec s "CSRD") as [->|_]; [cbn; ring|].
  destruct (String.eqb_spec s "SEC_Climate") as [->|_]; [cbn; ring|].
  destruct (String.eqb_spec s "TCFD") as [->|_]; cbn; ring.
Qed.

(** C7. [compute_regulatory_bonus] returns min(S, 8.0), S being the sum of
    the fixed bonuses (GRI 2.0, CSRD 3.0, SEC_Climate 2.5, TCFD 1.5; 0 for a
    standard outside the table) over the standards flagged true; when all
    four standards are flagged true the result is 8.0, not 9.0. *)
Theorem compute_regulatory_bonus_capped (alignment : list (string * bool)) :
  compute_regulatory_bonus alignment == Qmin (flagged_sum alignment) 8
  /\ ((forall standard, In standard ["GRI"; "CSRD"; "SEC_Climate"; "TCFD"] ->
                        In (standard, true) alignment) ->
      compute_regulatory_bonus alignment == 8).
Proof.
  assert (H : compute_regulatory_bonus alignment == Qmin (flagged_sum alignment) 8).
  { unfold compute_regulatory_bonus. rewrite min_Qmin, bonus_loop.
    assert (0 + flagged_sum alignment == flagged_sum alignment) as -> by ring.
    reflexivity. }
  split; [exact H|]. intros Hall. rewrite H. apply Q.min_r.
  rewrite flagged_sum_by_standard.
  assert (H1 := flagged_count_in "GRI" alignment (Hall "GRI" ltac:(simpl; tauto))).
  assert (H2 := flagged_count_in "CSRD" alignment (Hall "CSRD" ltac:(simpl; tauto))).
  assert (H3 := flagged_count_in "SEC_Climate" alignment (Hall "SEC_Climate" ltac:(simpl; tauto))).
  assert (H4 := flagged_count_in "TCFD" alignment (Hall "TCFD" ltac:(simpl; tauto))).
  rewrite Zle_Qle in H1, H2, H3, H4.
  change (inject_Z 1) with 1 in *. lra.
Qed.

Lemma compute_regulatory_bonus_capped_witness :
  flagged_sum all_four_standards == 9
  /\ compute_regulatory_bonus all_four_standards == 8.
Proof.
  split; [reflexivity|].
  apply (compute_regulatory_bonus_capped all_four_standards).
  intros standard Hin. simpl in Hin. unfold all_four_standards.
  destruct Hin as [<-|[<-|[<-|[<-|[]]]]]; simpl; tauto.
Defined.

End RegulatoryFacts.

(** ** The claim classifier *)

Section ClassifierFacts.

Lemma offset_phrase_hit (sentence : string) :
  has_offset_phrase sentence ->
  existsb (fun phrase => Str.contains (Str.lower phrase) (Str.lower sentence))
          OFFSET_PHRASES = true.
Proof.
  intros (phrase & Hin & Hocc). apply existsb_exists.
  exists phrase. split; [exact Hin | now apply contains_spec].
Qed.

Lemma numeric_pattern_hit (sentence : string) :
  has_numeric_pattern sentence <->
  existsb (fun pattern => Re.search pattern sentence) NUMERIC_PATTERNS = true.
Proof.
  rewrite existsb_exists. unfold has_numeric_pattern.
  split; intros (pattern & Hin & H); exists pattern; (split; [exact Hin|]);
    now apply search_spec.
Qed.

Lemma classify_claim_offset (sentence : string) :
  has_offset_phrase sentence ->
  Classification.type (classify_claim sentence) = "OFFSET_BACKED".
Proof.
  intros H. unfold classify_claim. now rewrite (offset_phrase_hit _ H).
Qed.

(** The offset rule is exactly lower-case substring matching. *)
Lemma classify_claim_offset_iff (sentence : string) :
  Classification.type (classify_claim sentence) = "OFFSET_BACKED"
  <-> has_offset_phrase sentence.
Proof.
  split; [|apply classify_claim_offset].
  unfold classify_claim. destruct (existsb _ OFFSET_PHRASES) eqn:E.
  - intros _. apply existsb_exists in E as (phrase & Hin & H).
    exists phrase. split; [exact Hin | now apply contains_spec].
  - destruct (existsb _ NUMERIC_PATTERNS); discriminate.
Qed.

(** Without an offset phrase, a numeric pattern decides. *)
Lemma classify_claim_numeric (sentence : string) :
  ~ has_offset_phrase sentence ->
  has_numeric_pattern sentence ->
  Classification.type (classify_claim sentence) = "NUMERIC".
Proof.
  intros Hno Hnum. unfold classify_claim.
  destruct (existsb _ OFFSET_PHRASES) eqn:E.
  - exfalso. apply Hno. apply existsb_exists in E as (phrase & Hin & H).
    exists phrase. split; [exact Hin | now apply contains_spec].
  - apply numeric_pattern_hit in Hnum. now rewrite Hnum.
Qed.

(** C4. The offset phrases are checked before the numeric patterns: a
    sentence that contains both an offset-related phrase and a numeric
    pattern, such as "We offset 10,000 tonnes of CO2", is classified
    OFFSET_BACKED, not NUMERIC. *)
Theorem classify_claim_offset_before_numeric (sentence : string) :
  has_offset_phrase sentence ->
  has_numeric_pattern sentence ->
  Classification.type (classify_claim sentence) = "OFFSET_BACKED"
  /\ Classification.type (classify_claim sentence) <> "NUMERIC".
Proof.
  intros Hoff _. rewrite (classify_claim_offset _ Hoff). split; [reflexivity | discriminate].
Qed.

Lemma classify_claim_offset_before_numeric_witness :
  let sentence := "We offset 10,000 tonnes of CO2" in
  has_offset_phrase sentence
  /\ has_numeric_pattern sentence
  /\ Classification.type (classify_claim sentence) = "OFFSET_BACKED".
Proof.
  intros sentence.
  assert (Hoff : has_offset_phrase sentence).
  { exists "offset". split; [simpl; tauto|]. apply contains_spec. reflexivity. }
  assert (Hnum : has_numeric_pattern sentence).
  { apply numeric_pattern_hit. reflexivity. }
  split; [exact Hoff|]. split; [exact Hnum|].
  apply (classify_claim_offset_before_numeric sentence Hoff Hnum).
Defined.

(** C10. Offset phrases are matched as lower-case substrings of the whole
    sentence (a sentence is OFFSET_BACKED exactly when some lower-cased
    phrase occurs in its lower-cased text), and the list holds the bare
    substrings "offset" and "rec" (from "REC"): every sentence whose
    lower-case text contains "rec" anywhere, even inside a longer word such
    as "recycling" or "record", is classified OFFSET_BACKED, whatever
    numbers it holds. *)
Theorem classify_claim_rec_substring :
  In "offset" (map Str.lower OFFSET_PHRASES)
  /\ In "rec" (map Str.lower OFFSET_PHRASES)
  /\ (forall sentence : string,
        Classification.type (classify_claim sentence) = "OFFSET_BACKED"
        <-> exists phrase, In phrase (map Str.lower OFFSET_PHRASES)
                           /\ occurs_in phrase (Str.lower sentence))
  /\ (forall sentence : string,
        occurs_in "rec" (Str.lower sentence) ->
        Classification.type (classify_claim sentence) = "OFFSET_BACKED").
Proof.
  split; [cbv; tauto|]. split; [cbv; tauto|]. split.
  - intros sentence. rewrite classify_claim_offset_iff. unfold has_offset_phrase. split.
    + intros (phrase & Hin & H). exists (Str.lower phrase).
      split; [now apply in_map | exact H].
    + intros (phrase & Hin & H). apply in_map_iff in Hin as (phrase' & <- & Hin).
      exists phrase'. split; assumption.
  - intros sentence H. apply classify_claim_offset.
    exists "REC". split; [simpl; tauto | exact H].
Qed.

Lemma classify_claim_rec_substring_witness :
  let sentence := "Battery recycling recovered 95% of the cobalt" in
  occurs_in "rec" (Str.lower sentence)
  /\ has_numeric_pattern sentence
  /\ Classification.type (classify_claim sentence) = "OFFSET_BACKED".
Proof.
  intros sentence.
  assert (H : occurs_in "rec" (Str.lower sentence)) by (apply contains_spec; reflexivity).
  split; [exact H|]. split; [apply numeric_pattern_hit; reflexivity|].
  destruct classify_claim_rec_substring as (_ & _ & _ & Hrec). apply (Hrec sentence H).
Defined.

End ClassifierFacts.

(** ** The EV-domain detector *)

Section DetectorFacts.

Lemma len_hits (terms : list string) (content : string) :
  len (hits terms content) = hit_count terms content.
Proof.
  unfold len, hits. induction terms as [|t terms IH]; [reflexivity|].
  cbn [List.filter hit_count]. destruct (Str.contains t content).
  - cbn [List.length]. lia.
  - rewrite IH. lia.
Qed.

Lemma hit_count_nonneg (terms : list string) (content : string) :
  (0 <= hit_count terms content)%Z.
Proof.
  induction terms as [|t terms IH]; simpl; [lia|].
  destruct (Str.contains t content); lia.
Qed.

Lemma hit_count_in (terms : list string) (content t : string) :
  In t terms -> occurs_in t content -> (1 <= hit_count terms content)%Z.
Proof.
  intros Hin Hocc. apply contains_spec in Hocc.
  induction terms as [|t' terms IH]; simpl in *; [tauto|].
  pose proof (hit_count_nonneg terms content).
  destruct Hin as [->|Hin].
  - rewrite Hocc. lia.
  - specialize (IH Hin). destruct (Str.contains t' content); lia.
Qed.

Lemma detect_score (text filename : string) :
  Detection.ev_relevance_score (_detect_ev_domain text filename)
  = weighted_score (content_of text filename).
Proof.
  unfold _detect_ev_domain, weighted_score. cbn [Detection.ev_relevance_score].
  rewrite !len_hits. lia.
Qed.

Lemma detect_gate (text filename : string) :
  let content := content_of text filename in
  Detection.is_ev_domain (_detect_ev_domain text filename)
  = ((1 <=? hit_count EV_AUTO_ANCHORS content)%Z
     || (1 <=? hit_count KNOWN_EV_COMPANIES content)%Z)
    && (12 <=? weighted_score content)%Z.
Proof.
  intros content. pose proof (detect_score text filename) as Hs.
  unfold _detect_ev_domain in *. cbn [Detection.is_ev_domain Detection.ev_relevance_score] in *.
  fold content in Hs |- *. rewrite Hs, !len_hits. reflexivity.
Qed.

(** C3. The detector returns is_ev_domain = True if and only if there is at
    least one anchor-list or known-company-list hit AND the weighted score
    3*core + 2*vehicle + 1*supply + 4*anchor + 3*company - 2*non_ev is at
    least 12; with zero anchor and zero company hits it never returns True,
    however large the score. *)
Theorem detect_ev_domain_two_part_gate (text filename : string) :
  let content := content_of text filename in
  let r := _detect_ev_domain text filename in
  Detection.ev_relevance_score r = weighted_score content
  /\ (Detection.is_ev_domain r = true
      <-> ((1 <= hit_count EV_AUTO_ANCHORS content)%Z
           \/ (1 <= hit_count KNOWN_EV_COMPANIES content)%Z)
          /\ (12 <= weighted_score content)%Z)
  /\ (hit_count EV_AUTO_ANCHORS content = 0%Z ->
      hit_count KNOWN_EV_COMPANIES content = 0%Z ->
      Detection.is_ev_domain r = false).
Proof.
  intros content r. subst r. split; [apply detect_score|].
  rewrite detect_gate. fold content. split.
  - rewrite andb_true_iff, orb_true_iff, !Z.leb_le. reflexivity.
  - intros -> ->. reflexivity.
Qed.

Lemma detect_ev_domain_two_part_gate_witness :
  let text := "Electric Vehicle charging battery pack plug-in vehicles fleet car truck lithium cobalt" in
  let content := content_of text "sustainability.pdf" in
  hit_count EV_AUTO_ANCHORS content = 0%Z
  /\ hit_count KNOWN_EV_COMPANIES content = 0%Z
  /\ weighted_score content = 24%Z
  /\ Detection.is_ev_domain (_detect_ev_domain text "sustainability.pdf") = false.
Proof.
  intros text content.
  assert (Ha : hit_count EV_AUTO_ANCHORS content = 0%Z) by reflexivity.
  assert (Hc : hit_count KNOWN_EV_COMPANIES content = 0%Z) by reflexivity.
  split; [exact Ha|]. split; [exact Hc|]. split; [reflexivity|].
  destruct (detect_ev_domain_two_part_gate text "sustainability.pdf") as (_ & _ & H).
  exact (H Ha Hc).
Defined.

(** C2, as stated, fails: "Tesla Model 3" contains "Model 3" and "Tesla",
    hits no anchor and no known company but "tesla", and scores
    2 + 3 = 5 < 12, so the detector answers False. *)
Lemma tesla_model_3_scores_five :
  let text := "Tesla Model 3" in
  let r := _detect_ev_domain text "report.pdf" in
  occurs_in "Model 3" text
  /\ occurs_in "Tesla" text
  /\ hits EV_AUTO_ANCHORS (content_of text "report.pdf") = []
  /\ hits KNOWN_EV_COMPANIES (content_of text "report.pdf") = ["tesla"]
  /\ Detection.ev_relevance_score r = 5%Z
  /\ Detection.is_ev_domain r = false.
Proof.
  cbv zeta. repeat split; try reflexivity; apply contains_spec; reflexivity.
Qed.

(** C2, amended. For an input whose lower-cased content contains "model 3"
    and hits no anchor and no known company other than "tesla", the anchor
    half of the gate holds (company_hits >= 1), the score is
    3*core + 2*vehicle + supply + 3 - 2*non_ev with vehicle >= 1, and
    is_ev_domain is True exactly when that score is at least 12. *)
Theorem detect_ev_domain_tesla_model_3 (text filename : string) :
  let content := content_of text filename in
  let r := _detect_ev_domain text filename in
  occurs_in "model 3" content ->
  hits KNOWN_EV_COMPANIES content = ["tesla"] ->
  hits EV_AUTO_ANCHORS content = [] ->
  (1 <= len (hits KNOWN_EV_COMPANIES content))%Z
  /\ (1 <= hit_count EV_DOMAIN_TERMS_vehicle content)%Z
  /\ Detection.ev_relevance_score r
     = (3 * hit_count EV_DOMAIN_TERMS_core content
        + 2 * hit_count EV_DOMAIN_TERMS_vehicle content
        + hit_count EV_DOMAIN_TERMS_supply content
        + 3
        - 2 * hit_count NON_EV_SIGNAL_TERMS content)%Z
  /\ (Detection.is_ev_domain r = true <-> (12 <= Detection.ev_relevance_score r)%Z).
Proof.
  intros content r Hmodel Hcompany Hanchor. subst r.
  assert (Hc : hit_count KNOWN_EV_COMPANIES content = 1%Z)
    by (rewrite <- len_hits, Hcompany; reflexivity).
  assert (Ha : hit_count EV_AUTO_ANCHORS content = 0%Z)
    by (rewrite <- len_hits, Hanchor; reflexivity).
  split; [rewrite Hcompany; reflexivity|].
  split; [apply (hit_count_in _ _ "model 3"); [simpl; tauto | exact Hmodel]|].
  rewrite detect_gate, detect_score. fold content.
  unfold weighted_score. rewrite Hc, Ha. split; [lia|].
  cbn [Z.leb Z.compare orb andb]. apply Z.leb_le.
Qed.

Lemma detect_ev_domain_tesla_model_3_witness :
  let text := "Tesla Model 3 electric vehicle charging range" in
  let r := _detect_ev_domain text "report.pdf" in
  Detection.ev_relevance_score r = 15%Z
  /\ Detection.is_ev_domain r = true.
Proof.
  intros text r.
  assert (Hmodel : occurs_in "model 3" (content_of text "report.pdf"))
    by (apply contains_spec; reflexivity).
  assert (Hcompany : hits KNOWN_EV_COMPANIES (content_of text "report.pdf") = ["tesla"])
    by reflexivity.
  assert (Hanchor : hits EV_AUTO_ANCHORS (content_of text "report.pdf") = [])
    by reflexivity.
  destruct (detect_ev_domain_tesla_model_3 text "report.pdf" Hmodel Hcompany Hanchor)
    as (_ & _ & Hscore & Hgate).
  split; [reflexivity|]. apply Hgate. subst r. rewrite Hscore. vm_compute. discriminate.
Defined.

End DetectorFacts.

(** ** The LTS aggregator *)

Section AggregatorFacts.

Lemma clamp_unit_interval (x : Q) : Py.max 0 (Py.min 100 x) == clamp x 0 100.
Proof.
  unfold clamp. rewrite max_Qmax.
  apply Q.max_compat; [reflexivity | apply min_Qmin].
Qed.

Lemma clamp_bounds (x : Q) : 0 <= clamp x 0 100 <= 100.
Proof.
  unfold clamp. split.
  - apply Q.le_max_l.
  - apply Q.max_lub; [discriminate | apply Q.le_min_l].
Qed.

(** What [compute_lts] returns when neither loop raises. *)
Lemma compute_lts_ok (c : Company.t) (r : Lts.t) :
  compute_lts c = Ok r ->
  exists claim_ratio fingerprinted_claims,
    let claims := default [] (Company.claims c) in
    let offset_quality := default "Unverified" (Company.offset_quality c) in
    let offset_analysis :=
      analyze_offsets (default 0 (Company.offset_dependency c)) offset_quality in
    let pillar_total := compute_weighted_score (default ∅ (Company.pillar_scores c)) in
    let claim_quality_adjustment :=
      Py.round (Ratio.numeric claim_ratio * 8 - Ratio.vague claim_ratio * 6) 2 in
    let regulatory_bonus :=
      compute_regulatory_bonus (default [] (Company.regulatory_alignment c)) in
    let grid_penalty :=
      grid_penalty_of (default 400 (Company.grid_carbon_intensity_gco2_kwh c)) in
    get_claim_quality_ratio claims = Ok claim_ratio
    /\ fingerprint_all offset_quality claims = Ok fingerprinted_claims
    /\ Lts.claim_ratio r = claim_ratio
    /\ Lts.claims r = fingerprinted_claims
    /\ Lts.pillar_scores r = default ∅ (Company.pillar_scores c)
    /\ Lts.offset_analysis r = offset_analysis
    /\ Breakdown.claim_quality_adjustment (Lts.breakdown r) = claim_quality_adjustment
    /\ Breakdown.regulatory_bonus (Lts.breakdown r) = regulatory_bonus
    /\ Breakdown.grid_penalty (Lts.breakdown r) = grid_penalty
    /\ Lts.lts r
       = Py.round
           (Py.max 0
              (Py.min 100
                 (raw_lts pillar_total claim_quality_adjustment
                    (OffsetAnalysis.dependency_penalty offset_analysis)
                    regulatory_bonus grid_penalty))) 1.
Proof.
  unfold compute_lts. intros H.
  destruct (get_claim_quality_ratio _) as [claim_ratio|key] eqn:Eratio;
    [|discriminate H].
  cbn [mbind result_bind] in H.
  destruct (fingerprint_all _ _) as [entries|key] eqn:Efp; [|discriminate H].
  cbn [mbind result_bind] in H. injection H as <-.
  exists claim_ratio, entries. cbv zeta. cbn -[compute_weighted_score analyze_offsets
    compute_regulatory_bonus Py.round Py.max Py.min].
  repeat split.
Qed.

Lemma increment_typed (counts : Counts.t) (type : string) :
  type = "NUMERIC" \/ type = "VAGUE" \/ type = "OFFSET_BACKED" ->
  exists counts', increment counts type = Ok counts'.
Proof. intros [-> | [-> | ->]]; eexists; reflexivity. Qed.

Lemma count_claims_typed (claims : list Claim.t) :
  Forall well_typed_claim claims ->
  forall counts, exists counts', count_claims claims counts = Ok counts'.
Proof.
  induction 1 as [|claim claims [_ Htype] _ IH]; intros counts.
  - eexists. reflexivity.
  - cbn [count_claims].
    assert (Hkey : exists counts', increment counts (default "VAGUE" (Claim.type claim)) = Ok counts').
    { apply increment_typed. destruct Htype as [-> | [-> | ->]]; simpl; tauto. }
    destruct Hkey as [counts' ->]. cbn [mbind result_bind]. apply IH.
Qed.

Lemma get_claim_quality_ratio_typed (claims : list Claim.t) :
  Forall well_typed_claim claims ->
  exists ratio, get_claim_quality_ratio claims = Ok ratio.
Proof.
  intros H. unfold get_claim_quality_ratio.
  destruct (Z.of_nat (List.length claims) =? 0)%Z; [eexists; reflexivity|].
  destruct (count_claims_typed claims H
              {| Counts.NUMERIC := 0; Counts.VAGUE := 0; Counts.OFFSET_BACKED := 0 |})
    as [counts ->].
  eexists. reflexivity.
Qed.

Lemma fingerprint_typed (offset_quality : string) (claim : Claim.t) :
  well_typed_claim claim ->
  exists entry, fingerprint offset_quality claim = Ok entry
                /\ Entry.claim entry = claim.
Proof.
  intros [[text Htext] Htype]. unfold fingerprint.
  destruct Htype as [-> | [-> | ->]]; cbn [subscript mbind result_bind];
    rewrite ?Htext; cbn; eexists; split; reflexivity.
Qed.

Lemma fingerprint_all_typed (offset_quality : string) (claims : list Claim.t) :
  Forall well_typed_claim claims ->
  exists entries, fingerprint_all offset_quality claims = Ok entries
                  /\ map Entry.claim entries = claims.
Proof.
  induction 1 as [|claim claims Hc _ (entries & IH & Hmap)].
  - exists []. split; reflexivity.
  - destruct (fingerprint_typed offset_quality claim Hc) as (entry & He & Hentry).
    exists (entry :: entries). cbn [fingerprint_all]. rewrite He. cbn [mbind result_bind].
    rewrite IH. cbn [mbind result_bind map]. now rewrite Hentry, Hmap.
Qed.

(** On well-typed input the pipeline reaches its [return]. *)
Lemma compute_lts_returns (c : Company.t) :
  well_typed c ->
  exists r : Lts.t,
    compute_lts c = Ok r
    /\ map Entry.claim (Lts.claims r) = default [] (Company.claims c).
Proof.
  intros H.
  destruct (get_claim_quality_ratio_typed _ H) as [ratio Hratio].
  destruct (fingerprint_all_typed (default "Unverified" (Company.offset_quality c)) _ H)
    as (entries & Hfp & Hmap).
  unfold compute_lts. rewrite Hratio. cbn [mbind result_bind].
  rewrite Hfp. cbn [mbind result_bind].
  eexists. split; [reflexivity | exact Hmap].
Qed.

(** C9. [compute_lts] succeeds on well-typed input: when every claim has a
    "text" and a "type" among NUMERIC, VAGUE and OFFSET_BACKED, neither the
    per-type counter lookup of [get_claim_quality_ratio] nor the per-claim
    fingerprint loop raises, and a complete result record comes back, one
    entry per claim. *)
Theorem compute_lts_succeeds (c : Company.t) :
  well_typed c ->
  let claims := default [] (Company.claims c) in
  (exists ratio, get_claim_quality_ratio claims = Ok ratio)
  /\ (exists entries,
        fingerprint_all (default "Unverified" (Company.offset_quality c)) claims = Ok entries
        /\ map Entry.claim entries = claims)
  /\ (exists r : Lts.t,
        compute_lts c = Ok r
        /\ map Entry.claim (Lts.claims r) = claims).
Proof.
  intros H claims. split; [|split].
  - apply get_claim_quality_ratio_typed, H.
  - apply fingerprint_all_typed, H.
  - apply compute_lts_returns, H.
Qed.

Lemma compute_lts_succeeds_witness :
  well_typed typed_company
  /\ exists r : Lts.t,
       compute_lts typed_company = Ok r
       /\ map Entry.claim (Lts.claims r) = default [] (Company.claims typed_company).
Proof.
  assert (H : well_typed typed_company).
  { unfold well_typed, typed_company, claim_of. simpl.
    repeat (constructor; [split; [eexists; reflexivity | cbn; auto]|]).
    constructor. }
  split; [exact H|].
  destruct (compute_lts_succeeds typed_company H) as (_ & _ & r & Hr & Hmap).
  exists r. split; [exact Hr | exact Hmap].
Defined.

(** The error branches are live: a claim of an unknown type, a claim
    without a type, a vague claim without a text. *)
Example compute_lts_unknown_type :
  compute_lts
    {| Company.name := None; Company.model := None; Company.report_year := None;
       Company.claims := Some [claim_of "FORWARD_LOOKING" "We will do better"];
       Company.pillar_scores := None; Company.prior_year_scores := None;
       Company.offset_dependency := None; Company.offset_quality := None;
       Company.regulatory_alignment := None;
       Company.grid_carbon_intensity_gco2_kwh := None |}
  = KeyError "FORWARD_LOOKING".
Proof. reflexivity. Qed.

Example compute_lts_missing_type :
  compute_lts
    {| Company.name := None; Company.model := None; Company.report_year := None;
       Company.claims :=
         Some [ {| Claim.text := Some "We will do better"; Claim.type := None;
                   Claim.pillar := None; Claim.confidence := None;
                   Claim.verified := None |} ];
       Company.pillar_scores := None; Company.prior_year_scores := None;
       Company.offset_dependency := None; Company.offset_quality := None;
       Company.regulatory_alignment := None;
       Company.grid_carbon_intensity_gco2_kwh := None |}
  = KeyError "type".
Proof. reflexivity. Qed.

Example compute_lts_missing_text :
  compute_lts
    {| Company.name := None; Company.model := None; Company.report_year := None;
       Company.claims :=
         Some [ {| Claim.text := None; Claim.type := Some "VAGUE";
                   Claim.pillar := None; Claim.confidence := None;
                   Claim.verified := None |} ];
       Company.pillar_scores := None; Company.prior_year_scores := None;
       Company.offset_dependency := None; Company.offset_quality := None;
       Company.regulatory_alignment := None;
       Company.grid_carbon_intensity_gco2_kwh := None |}
  = KeyError "text".
Proof. reflexivity. Qed.

End AggregatorFacts.

(** * Further properties of the engine *)

Section RoundingFacts.

Ltac order_of_compare :=
  repeat match goal with
    | H : Qcompare _ _ = Eq |- _ => apply Qeq_alt in H
    | H : Qcompare _ _ = Lt |- _ => apply Qlt_alt in H
    | H : Qcompare _ _ = Gt |- _ => apply Qgt_alt in H
    end.

Lemma round_half_even_floor (x : Q) :
  (Qfloor x <= Py.round_half_even x <= Qfloor x + 1)%Z.
Proof.
  unfold Py.round_half_even.
  destruct (Qcompare _ _); [destruct (Z.even _) | |]; lia.
Qed.

Lemma round_half_even_mono (x y : Q) :
  x <= y -> (Py.round_half_even x <= Py.round_half_even y)%Z.
Proof.
  intros H. pose proof (Qfloor_resp_le _ _ H) as Hf.
  destruct (Z.eq_dec (Qfloor x) (Qfloor y)) as [E|Hne].
  - unfold Py.round_half_even. rewrite <- E.
    destruct (Qcompare (x - inject_Z (Qfloor x)) (1 # 2)) eqn:Ex;
      destruct (Qcompare (y - inject_Z (Qfloor x)) (1 # 2)) eqn:Ey;
      try (destruct (Z.even (Qfloor x))); try lia;
      order_of_compare; exfalso; lra.
  - pose proof (round_half_even_floor x). pose proof (round_half_even_floor y). lia.
Qed.

Lemma round_mono (x y : Q) (n : nat) : x <= y -> Py.round x n <= Py.round y n.
Proof.
  intros H. unfold Py.round. pose proof (pow10_pos n) as Hp.
  apply Qmult_le_compat_r; [|apply Qlt_le_weak, Qinv_lt_0_compat, Hp].
  rewrite <- Zle_Qle. apply round_half_even_mono.
  apply Qmult_le_compat_r; [exact H | apply Qlt_le_weak, Hp].
Qed.

Lemma round_half_even_Z (k : Z) : Py.round_half_even (inject_Z k) = k.
Proof.
  apply Z.le_antisymm.
  - apply round_half_even_le, Qle_refl.
  - apply round_half_even_ge, Qle_refl.
Qed.

Lemma round_decimal_fixed (k : Z) (n : nat) :
  Py.round (inject_Z k / Py.pow10 n) n == inject_Z k / Py.pow10 n.
Proof.
  pose proof (pow10_pos n) as Hp.
  assert (E : inject_Z k / Py.pow10 n * Py.pow10 n == inject_Z k) by (field; lra).
  unfold Py.round. rewrite (round_half_even_proper _ _ E), round_half_even_Z.
  reflexivity.
Qed.

(** Rounding a rounded number changes nothing. *)
Lemma round_idem (x : Q) (n : nat) : Py.round (Py.round x n) n == Py.round x n.
Proof. unfold Py.round at 2 3. apply round_decimal_fixed. Qed.

Lemma min_mono (a x y : Q) : x <= y -> Py.min a x <= Py.min a y.
Proof.
  intros H. rewrite !min_Qmin. apply Q.min_le_compat_l, H.
Qed.

Lemma min_mono_l (a x y : Q) : x <= y -> Py.min x a <= Py.min y a.
Proof.
  intros H. rewrite !min_Qmin. apply Q.min_le_compat_r, H.
Qed.

Lemma max_mono (a x y : Q) : x <= y -> Py.max a x <= Py.max a y.
Proof.
  intros H. rewrite !max_Qmax. apply Q.max_le_compat_l, H.
Qed.

End RoundingFacts.

Ltac order_of_tests :=
  unfold OFFSET_THRESHOLD in *;
  repeat match goal with
    | H : Py.ltb _ _ = true |- _ => apply ltb_lt in H
    | H : Py.ltb _ _ = false |- _ => apply ltb_ge in H
    | H : (_ <=? _)%Z = true |- _ => apply Z.leb_le in H
    | H : (_ <=? _)%Z = false |- _ => apply Z.leb_gt in H
    end.

Lemma leb_gt (a b : Q) : Py.leb a b = false <-> b < a.
Proof.
  rewrite <- not_true_iff_false, leb_le. split; [apply Qnot_le_lt | apply Qlt_not_le].
Qed.

(** ** Binary64 arithmetic *)

Section PowersOfTwo.

Lemma pow2_pos (e : Z) : 0 < F64.pow2 e.
Proof. apply Qpower_0_lt. reflexivity. Qed.

Lemma pow2_add (a b : Z) : F64.pow2 (a + b) == F64.pow2 a * F64.pow2 b.
Proof. apply Qpower_plus. discriminate. Qed.

Lemma pow2_le (a b : Z) : (a <= b)%Z -> F64.pow2 a <= F64.pow2 b.
Proof. intros H. apply Qpower_le_compat_l; [exact H | discriminate]. Qed.

Lemma pow2_lt (a b : Z) : (a < b)%Z -> F64.pow2 a < F64.pow2 b.
Proof. intros H. apply Qpower_lt_compat_l; [exact H | reflexivity]. Qed.

Lemma pow2_lt_inv (a b : Z) : F64.pow2 a < F64.pow2 b -> (a < b)%Z.
Proof. intros H. apply (Qpower_lt_compat_l_inv 2); [exact H | reflexivity]. Qed.

Lemma pow2_Z (e : Z) : (0 <= e)%Z -> F64.pow2 e == inject_Z (2 ^ e).
Proof. intros H. unfold F64.pow2. rewrite Zpower_Qpower by exact H. reflexivity. Qed.

End PowersOfTwo.

Section Binade.

Lemma Qabs_num_den (x : Q) :
  Qabs x == inject_Z (Z.abs (Qnum x)) / inject_Z (Z.pos (Qden x)).
Proof. destruct x as [n d]. unfold Qabs. cbn [Qnum Qden]. apply Qmake_Qdiv. Qed.

Lemma fraction_le (n d p b : Z) :
  (0 < d)%Z -> (0 < b)%Z -> (n * b <= p * d)%Z ->
  inject_Z n / inject_Z d <= inject_Z p / inject_Z b.
Proof.
  intros Hd Hb H. rewrite Zlt_Qlt in Hd, Hb. rewrite Zle_Qle, !inject_Z_mult in H.
  apply Qle_shift_div_l; [exact Hb|].
  assert (E : inject_Z n / inject_Z d * inject_Z b == inject_Z n * inject_Z b / inject_Z d)
    by (field; apply Qnot_eq_sym, Qlt_not_eq, Hd).
  rewrite E. apply Qle_shift_div_r; [exact Hd | exact H].
Qed.

Lemma fraction_lt (n d p b : Z) :
  (0 < d)%Z -> (0 < b)%Z -> (n * b < p * d)%Z ->
  inject_Z n / inject_Z d < inject_Z p / inject_Z b.
Proof.
  intros Hd Hb H. rewrite Zlt_Qlt in Hd, Hb. rewrite Zlt_Qlt, !inject_Z_mult in H.
  apply Qlt_shift_div_l; [exact Hb|].
  assert (E : inject_Z n / inject_Z d * inject_Z b == inject_Z n * inject_Z b / inject_Z d)
    by (field; apply Qnot_eq_sym, Qlt_not_eq, Hd).
  rewrite E. apply Qlt_shift_div_r; [exact Hd | exact H].
Qed.

Lemma pow2_sub (a b : Z) :
  (0 <= a)%Z -> (0 <= b)%Z -> F64.pow2 (a - b) == inject_Z (2 ^ a) / inject_Z (2 ^ b).
Proof.
  intros Ha Hb. unfold F64.pow2. rewrite Qpower_minus by discriminate.
  rewrite !Zpower_Qpower by assumption. reflexivity.
Qed.

(** [binade x] is the exponent of the power of two at or just below [|x|]. *)
Lemma binade_spec (x : Q) :
  ~ x == 0 -> F64.pow2 (F64.binade x) <= Qabs x < F64.pow2 (F64.binade x + 1).
Proof.
  intros Hx.
  assert (Hn : (0 < Z.abs (Qnum x))%Z).
  { destruct x as [[|n|n] d]; [exfalso; apply Hx; reflexivity | |]; reflexivity. }
  assert (Hd : (0 < Z.pos (Qden x))%Z) by reflexivity.
  pose proof (Z.log2_spec _ Hn) as [Hn1 Hn2].
  pose proof (Z.log2_spec _ Hd) as [Hd1 Hd2].
  pose proof (Z.log2_nonneg (Z.abs (Qnum x))) as Ha.
  pose proof (Z.log2_nonneg (Z.pos (Qden x))) as Hb.
  unfold F64.binade.
  set (a := Z.log2 (Z.abs (Qnum x))) in *. set (b := Z.log2 (Z.pos (Qden x))) in *.
  assert (Hpa : (0 < 2 ^ a)%Z) by (apply Z.pow_pos_nonneg; lia).
  assert (Hpb : (0 < 2 ^ b)%Z) by (apply Z.pow_pos_nonneg; lia).
  destruct (Py.leb (F64.pow2 (a - b)) (Qabs x)) eqn:E.
  - apply leb_le in E. split; [exact E|].
    replace (a - b + 1)%Z with (Z.succ a - b)%Z by lia.
    rewrite pow2_sub by lia. rewrite Qabs_num_den.
    apply fraction_lt; [reflexivity | exact Hpb | nia].
  - apply leb_gt in E. split.
    + replace (a - b - 1)%Z with (a - Z.succ b)%Z by lia.
      rewrite pow2_sub by lia. rewrite Qabs_num_den.
      apply fraction_le; [apply Z.pow_pos_nonneg; lia | reflexivity | nia].
    + replace (a - b - 1 + 1)%Z with (a - b)%Z by lia. exact E.
Qed.

Lemma binade_unique (x : Q) (e : Z) :
  F64.pow2 e <= Qabs x < F64.pow2 (e + 1) -> F64.binade x = e.
Proof.
  intros [H1 H2].
  assert (Hx : ~ x == 0).
  { intros E. rewrite E in H1. pose proof (pow2_pos e).
    change (Qabs 0) with 0 in H1. lra. }
  destruct (binade_spec x Hx) as [B1 B2].
  assert (L1 : (e < F64.binade x + 1)%Z) by (apply pow2_lt_inv; lra).
  assert (L2 : (F64.binade x < e + 1)%Z) by (apply pow2_lt_inv; lra).
  lia.
Qed.

Lemma binade_proper (x y : Q) : ~ x == 0 -> x == y -> F64.binade x = F64.binade y.
Proof.
  intros Hx E. symmetry. apply binade_unique. rewrite <- E. apply binade_spec, Hx.
Qed.

Lemma binade_mono (x y : Q) :
  ~ x == 0 -> Qabs x <= Qabs y -> (F64.binade x <= F64.binade y)%Z.
Proof.
  intros Hx H.
  assert (Hy : ~ y == 0).
  { intros E. rewrite E in H. change (Qabs 0) with 0 in H.
    apply Hx. revert H. apply Qabs_case; intros; lra. }
  destruct (binade_spec x Hx) as [X1 _]. destruct (binade_spec y Hy) as [_ Y2].
  assert (L : (F64.binade x < F64.binade y + 1)%Z) by (apply pow2_lt_inv; lra).
  lia.
Qed.

End Binade.

Section Rounding64.

Lemma ulp_pos (x : Q) : 0 < F64.ulp x.
Proof. apply pow2_pos. Qed.

Lemma ulp_proper (x y : Q) : ~ x == 0 -> x == y -> F64.ulp x = F64.ulp y.
Proof. intros Hx E. unfold F64.ulp. now rewrite (binade_proper x y Hx E). Qed.

(** Equal rationals round to the same float, whatever their fractions. *)
#[export] Instance rnd_proper : Proper (Qeq ==> eq) F64.rnd.
Proof.
  intros x y E. unfold F64.rnd.
  rewrite <- (Qeqb_comp x y E 0 0 (Qeq_refl 0)).
  destruct (Qeq_bool x 0) eqn:Ex; [reflexivity|].
  apply Qeq_bool_neq in Ex. rewrite <- (ulp_proper x y Ex E).
  assert (E' : x / F64.ulp x == y / F64.ulp x)
    by (apply Qmult_comp; [exact E | reflexivity]).
  now rewrite (round_half_even_proper _ _ E').
Qed.

Lemma rnd_zero (x : Q) : x == 0 -> F64.rnd x = 0.
Proof. intros E. rewrite (rnd_proper _ _ E). reflexivity. Qed.

Lemma rnd_value (x : Q) :
  ~ x == 0 -> F64.rnd x == inject_Z (Py.round_half_even (x / F64.ulp x)) * F64.ulp x.
Proof.
  intros Hx. unfold F64.rnd.
  destruct (Qeq_bool x 0) eqn:Ex; [apply Qeq_bool_iff in Ex; contradiction|].
  apply Qred_correct.
Qed.

Lemma rnd_nonneg (x : Q) : 0 <= x -> 0 <= F64.rnd x.
Proof.
  intros H. destruct (Qeq_dec x 0) as [E|Hx]; [rewrite (rnd_zero x E); apply Qle_refl|].
  rewrite (rnd_value x Hx). pose proof (ulp_pos x) as Hu.
  apply Qmult_le_0_compat; [|lra].
  change 0 with (inject_Z 0). rewrite <- Zle_Qle. apply round_half_even_ge.
  apply Qle_shift_div_l; [exact Hu|]. change (inject_Z 0) with 0. lra.
Qed.

Lemma rnd_nonpos (x : Q) : x <= 0 -> F64.rnd x <= 0.
Proof.
  intros H. destruct (Qeq_dec x 0) as [E|Hx]; [rewrite (rnd_zero x E); apply Qle_refl|].
  rewrite (rnd_value x Hx). pose proof (ulp_pos x) as Hu.
  assert (Hk : (Py.round_half_even (x / F64.ulp x) <= 0)%Z).
  { apply round_half_even_le. apply Qle_shift_div_r; [exact Hu|].
    change (inject_Z 0) with 0. lra. }
  rewrite Zle_Qle in Hk. change (inject_Z 0) with 0 in Hk. nra.
Qed.

(** Within one binade, and between two. *)
Lemma rnd_mono_pos (x y : Q) : 0 < x -> x <= y -> F64.rnd x <= F64.rnd y.
Proof.
  intros Hx H.
  assert (Nx : ~ x == 0) by lra. assert (Ny : ~ y == 0) by lra.
  rewrite (rnd_value x Nx), (rnd_value y Ny).
  destruct (binade_spec x Nx) as [_ X2]. destruct (binade_spec y Ny) as [Y1 _].
  rewrite Qabs_pos in X2, Y1 by lra.
  assert (Hb : (F64.binade x <= F64.binade y)%Z).
  { apply binade_mono; [exact Nx|]. rewrite !Qabs_pos by lra. exact H. }
  unfold F64.ulp.
  set (bx := F64.binade x) in *. set (by_ := F64.binade y) in *.
  set (qx := Z.max (bx - 52) (-1074)). set (qy := Z.max (by_ - 52) (-1074)).
  pose proof (pow2_pos qx) as Ux. pose proof (pow2_pos qy) as Uy.
  destruct (Z.eq_dec qx qy) as [E|Hne].
  - rewrite <- E. apply Qmult_le_compat_r; [|lra].
    rewrite <- Zle_Qle. apply round_half_even_mono.
    apply Qmult_le_compat_r; [exact H | apply Qlt_le_weak, Qinv_lt_0_compat, Ux].
  - assert (Hq : (qx < qy)%Z) by lia.
    assert (Eqy : qy = (by_ - 52)%Z) by lia.
    apply Qle_trans with (F64.pow2 by_).
    + assert (Hk : (Py.round_half_even (x / F64.pow2 qx) <= 2 ^ (by_ - qx))%Z).
      { apply round_half_even_le. rewrite <- pow2_Z by lia.
        apply Qle_shift_div_r; [exact Ux|]. rewrite <- pow2_add.
        replace (by_ - qx + qx)%Z with by_ by lia.
        pose proof (pow2_le (bx + 1) by_ ltac:(lia)). lra. }
      rewrite Zle_Qle, <- pow2_Z in Hk by lia.
      assert (E : F64.pow2 by_ == F64.pow2 (by_ - qx) * F64.pow2 qx).
      { rewrite <- pow2_add. now replace (by_ - qx + qx)%Z with by_ by lia. }
      rewrite E. apply Qmult_le_compat_r; [exact Hk | lra].
    + assert (Hk : (2 ^ 52 <= Py.round_half_even (y / F64.pow2 qy))%Z).
      { apply round_half_even_ge. rewrite <- pow2_Z by lia.
        apply Qle_shift_div_l; [exact Uy|]. rewrite <- pow2_add.
        replace (52 + qy)%Z with by_ by lia. exact Y1. }
      rewrite Zle_Qle, <- pow2_Z in Hk by lia.
      assert (E : F64.pow2 by_ == F64.pow2 52 * F64.pow2 qy).
      { rewrite <- pow2_add. now replace (52 + qy)%Z with by_ by lia. }
      rewrite E. apply Qmult_le_compat_r; [exact Hk | lra].
Qed.

End Rounding64.

Section Symmetry64.

Ltac order_of_compare :=
  repeat match goal with
    | H : Qcompare _ _ = Eq |- _ => apply Qeq_alt in H
    | H : Qcompare _ _ = Lt |- _ => apply Qlt_alt in H
    | H : Qcompare _ _ = Gt |- _ => apply Qgt_alt in H
    end.

Lemma floor_unique (x : Q) (k : Z) :
  inject_Z k <= x < inject_Z (k + 1) -> Qfloor x = k.
Proof.
  intros [H1 H2]. pose proof (Qfloor_le x) as F1. pose proof (Qlt_floor x) as F2.
  assert (L1 : (k < Qfloor x + 1)%Z) by (rewrite Zlt_Qlt; lra).
  assert (L2 : (Qfloor x < k + 1)%Z) by (rewrite Zlt_Qlt; lra).
  lia.
Qed.

Lemma even_opp_pred (f : Z) : Z.even (- f - 1) = negb (Z.even f).
Proof.
  replace (- f - 1)%Z with (- (f + 1))%Z by lia.
  rewrite Z.even_opp, Z.even_add. destruct (Z.even f); reflexivity.
Qed.

(** Half-to-even rounding is symmetric about 0. *)
Lemma round_half_even_opp (x : Q) :
  Py.round_half_even (- x) = (- Py.round_half_even x)%Z.
Proof.
  pose proof (Qfloor_le x) as F1. pose proof (Qlt_floor x) as F2.
  rewrite inject_Z_plus in F2. change (inject_Z 1) with 1 in F2.
  destruct (Qeq_dec x (inject_Z (Qfloor x))) as [E|Hne].
  - assert (E' : - x == inject_Z (- Qfloor x)) by (rewrite inject_Z_opp, <- E; reflexivity).
    rewrite (round_half_even_proper _ _ E'), (round_half_even_proper _ _ E).
    now rewrite !round_half_even_Z.
  - assert (G : Qfloor (- x) = (- Qfloor x - 1)%Z).
    { apply floor_unique. replace (- Qfloor x - 1 + 1)%Z with (- Qfloor x)%Z by lia.
      unfold Z.sub. rewrite inject_Z_plus, !inject_Z_opp. change (inject_Z 1) with 1.
      split; [lra|]. apply Qnot_le_lt. intros C. apply Hne. lra. }
    unfold Py.round_half_even. rewrite G.
    unfold Z.sub at 1. rewrite inject_Z_plus, !inject_Z_opp. change (inject_Z 1) with 1.
    rewrite even_opp_pred.
    destruct (Qcompare (- x - (- inject_Z (Qfloor x) + - (1))) (1 # 2)) eqn:C1;
      destruct (Qcompare (x - inject_Z (Qfloor x)) (1 # 2)) eqn:C2;
      order_of_compare; try (exfalso; lra); try lia.
    destruct (Z.even (Qfloor x)); cbn [negb]; lia.
Qed.

Lemma binade_opp (x : Q) : F64.binade (- x) = F64.binade x.
Proof.
  destruct x as [n d]. unfold F64.binade, Qopp, Qabs. cbn [Qnum Qden].
  now rewrite Z.abs_opp.
Qed.

Lemma rnd_opp (x : Q) : F64.rnd (- x) == - F64.rnd x.
Proof.
  destruct (Qeq_dec x 0) as [E|Hx].
  - rewrite (rnd_zero x E), (rnd_zero (- x)); [reflexivity | rewrite E; reflexivity].
  - assert (Hx' : ~ - x == 0) by (intros C; apply Hx; lra).
    rewrite (rnd_value x Hx), (rnd_value _ Hx').
    unfold F64.ulp. rewrite binade_opp.
    set (u := F64.pow2 _).
    assert (E : - x / u == - (x / u)) by (unfold Qdiv; ring).
    rewrite (round_half_even_proper _ _ E), round_half_even_opp, inject_Z_opp. ring.
Qed.

(** Rounding to binary64 keeps the order. *)
Lemma rnd_mono (x y : Q) : x <= y -> F64.rnd x <= F64.rnd y.
Proof.
  intros H. destruct (Qlt_le_dec 0 x) as [Hx|Hx].
  - apply rnd_mono_pos; assumption.
  - destruct (Qlt_le_dec y 0) as [Hy|Hy].
    + assert (L : F64.rnd (- y) <= F64.rnd (- x)) by (apply rnd_mono_pos; lra).
      rewrite !rnd_opp in L. lra.
    + apply Qle_trans with 0; [apply rnd_nonpos, Hx | apply rnd_nonneg, Hy].
Qed.

End Symmetry64.

Section Representable.

Lemma abs_inject_Z (m : Z) : Qabs (inject_Z m) == inject_Z (Z.abs m).
Proof. reflexivity. Qed.

Lemma integral_quotient (m e q : Z) :
  (q <= e)%Z ->
  inject_Z m * F64.pow2 e / F64.pow2 q == inject_Z (m * 2 ^ (e - q)).
Proof.
  intros H. rewrite inject_Z_mult, <- pow2_Z by lia.
  unfold Qdiv. rewrite <- Qmult_assoc. apply Qmult_comp; [reflexivity|].
  change (F64.pow2 e * / F64.pow2 q) with (F64.pow2 e / F64.pow2 q).
  unfold F64.pow2. rewrite <- Qpower_minus by discriminate. reflexivity.
Qed.

(** A binary64 number rounds to itself. *)
Lemma rnd_exact (x : Q) : representable x -> F64.rnd x == x.
Proof.
  intros (m & e & Hm & He & E).
  destruct (Qeq_dec x 0) as [Z0|Hx]; [rewrite (rnd_zero x Z0), Z0; reflexivity|].
  rewrite (rnd_value x Hx). unfold F64.ulp.
  destruct (binade_spec x Hx) as [B1 B2].
  set (b := F64.binade x) in *. set (q := Z.max (b - 52) (-1074)).
  pose proof (pow2_pos q) as Uq. pose proof (pow2_pos e) as Ue.
  assert (A : Qabs x == inject_Z (Z.abs m) * F64.pow2 e).
  { rewrite E, Qabs_Qmult, abs_inject_Z. rewrite (Qabs_pos (F64.pow2 e)) by lra. reflexivity. }
  assert (K : exists k : Z, x / F64.pow2 q == inject_Z k).
  { destruct (Z_le_gt_dec q e) as [L|G].
    - exists (m * 2 ^ (e - q))%Z. rewrite <- integral_quotient by exact L.
      apply Qmult_comp; [exact E | reflexivity].
    - assert (Eq : q = (b - 52)%Z) by lia.
      assert (Hb : (b < 53 + e + 1)%Z).
      { apply pow2_lt_inv. apply Qle_lt_trans with (Qabs x); [exact B1|].
        rewrite A. apply Qle_lt_trans with (inject_Z (2 ^ 53) * F64.pow2 e).
        - apply Qmult_le_compat_r; [rewrite <- Zle_Qle; exact Hm | lra].
        - rewrite <- pow2_Z, <- pow2_add by lia. apply pow2_lt. lia. }
      assert (Eb : b = (53 + e)%Z) by lia.
      assert (Hm' : (2 ^ 53 <= Z.abs m)%Z).
      { rewrite Zle_Qle. apply Qmult_le_r with (F64.pow2 e); [exact Ue|].
        rewrite <- A, <- pow2_Z, <- pow2_add by lia. rewrite <- Eb. exact B1. }
      assert (Em : m = (2 * (m / 2))%Z).
      { assert (Hm2 : Z.abs m = (2 ^ 53)%Z) by lia.
        destruct (Z.abs_eq_or_opp m) as [Em|Em]; rewrite Em in Hm2.
        - rewrite Hm2. reflexivity.
        - assert (Em' : m = (- 2 ^ 53)%Z) by lia. rewrite Em'. reflexivity. }
      exists (m / 2)%Z.
      assert (Eqe : q = (e + 1)%Z) by lia.
      rewrite E, Eqe, pow2_add. rewrite Em at 1. rewrite inject_Z_mult.
      change (F64.pow2 1) with 2. change (inject_Z 2) with 2. field. lra. }
  destruct K as [k K].
  rewrite (round_half_even_proper _ _ K), round_half_even_Z, <- K.
  field. lra.
Qed.

(** What rounding returns is a binary64 number. *)
Lemma rnd_representable (x : Q) : representable (F64.rnd x).
Proof.
  destruct (Qeq_dec x 0) as [Z0|Hx].
  - exists 0%Z, 0%Z. rewrite (rnd_zero x Z0). repeat split; [discriminate | lia].
  - exists (Py.round_half_even (x / F64.ulp x)), (Z.max (F64.binade x - 52) (-1074)).
    split; [|split; [lia | apply rnd_value, Hx]].
    destruct (binade_spec x Hx) as [_ B2]. unfold F64.ulp.
    set (b := F64.binade x) in *. set (q := Z.max (b - 52) (-1074)).
    pose proof (pow2_pos q) as Uq.
    assert (L : Qabs x <= inject_Z (2 ^ 53) * F64.pow2 q).
    { rewrite <- pow2_Z, <- pow2_add by lia.
      pose proof (pow2_le (b + 1) (53 + q) ltac:(lia)). lra. }
    apply Qabs_Qle_condition in L. destruct L as [L1 L2].
    apply Z.abs_le. split.
    + apply round_half_even_ge. apply Qle_shift_div_l; [exact Uq|].
      rewrite inject_Z_opp. lra.
    + apply round_half_even_le. apply Qle_shift_div_r; [exact Uq | exact L2].
Qed.

Lemma rnd_idem (x : Q) : F64.rnd (F64.rnd x) == F64.rnd x.
Proof. apply rnd_exact, rnd_representable. Qed.

(** Integers up to [2^53] are binary64 numbers. *)
Lemma rnd_Z (k : Z) : (Z.abs k <= 2 ^ 53)%Z -> F64.rnd (inject_Z k) == inject_Z k.
Proof.
  intros H. apply rnd_exact. exists k, 0%Z.
  split; [exact H|]. split; [lia|]. change (F64.pow2 0) with 1. ring.
Qed.

End Representable.

Section Nearest.

Ltac order_of_compare :=
  repeat match goal with
    | H : Qcompare _ _ = Eq |- _ => apply Qeq_alt in H
    | H : Qcompare _ _ = Lt |- _ => apply Qlt_alt in H
    | H : Qcompare _ _ = Gt |- _ => apply Qgt_alt in H
    end.

(** No integer is nearer than the one half-to-even rounding picks. *)
Lemma round_half_even_nearest (t : Q) (k : Z) :
  Qabs (inject_Z (Py.round_half_even t) - t) <= Qabs (inject_Z k - t).
Proof.
  pose proof (Qfloor_le t) as F1. pose proof (Qlt_floor t) as F2.
  rewrite inject_Z_plus in F2. change (inject_Z 1) with 1 in F2.
  set (f := Qfloor t) in *.
  assert (D : Qabs (inject_Z (Py.round_half_even t) - t) <= t - inject_Z f
              /\ Qabs (inject_Z (Py.round_half_even t) - t) <= inject_Z f + 1 - t).
  { unfold Py.round_half_even. fold f.
    destruct (Qcompare (t - inject_Z f) (1 # 2)) eqn:C; order_of_compare.
    - destruct (Z.even f); rewrite ?inject_Z_plus; change (inject_Z 1) with 1;
        split; apply Qabs_case; intros; lra.
    - split; apply Qabs_case; intros; lra.
    - rewrite inject_Z_plus. change (inject_Z 1) with 1.
      split; apply Qabs_case; intros; lra. }
  destruct D as [D1 D2].
  destruct (Z_le_gt_dec k f) as [L|G].
  - rewrite Zle_Qle in L. apply Qle_trans with (t - inject_Z f); [exact D1|].
    apply Qabs_case; intros; lra.
  - assert (L : (f + 1 <= k)%Z) by lia.
    rewrite Zle_Qle, inject_Z_plus in L. change (inject_Z 1) with 1 in L.
    apply Qle_trans with (inject_Z f + 1 - t); [exact D2|].
    apply Qabs_case; intros; lra.
Qed.

Lemma representable_opp (y : Q) : representable y -> representable (- y).
Proof.
  intros (m & e & Hm & He & E). exists (- m)%Z, e.
  split; [now rewrite Z.abs_opp|]. split; [exact He|].
  rewrite E, inject_Z_opp. ring.
Qed.

Lemma rnd_nearest_pos (x y : Q) :
  0 < x -> representable y -> Qabs (F64.rnd x - x) <= Qabs (y - x).
Proof.
  intros Hx (m & e & Hm & He & E).
  assert (Nx : ~ x == 0) by lra.
  rewrite (rnd_value x Nx). unfold F64.ulp.
  destruct (binade_spec x Nx) as [B1 _]. rewrite Qabs_pos in B1 by lra.
  set (b := F64.binade x) in *. set (q := Z.max (b - 52) (-1074)).
  pose proof (pow2_pos q) as Uq. pose proof (pow2_pos e) as Ue.
  set (u := F64.pow2 q) in *. set (t := x / u).
  assert (Et : x == t * u) by (unfold t; field; lra).
  assert (scale : forall k : Z,
             Qabs (inject_Z (Py.round_half_even t) * u - x) <= Qabs (inject_Z k * u - x)).
  { intros k. pose proof (round_half_even_nearest t k) as N.
    assert (E1 : forall j : Z, inject_Z j * u - x == (inject_Z j - t) * u)
      by (intros j; rewrite Et at 1; ring).
    rewrite !E1, !Qabs_Qmult, (Qabs_pos u) by lra.
    apply Qmult_le_compat_r; [exact N | lra]. }
  destruct (Z_le_gt_dec q e) as [L|G].
  - assert (Ey : y == inject_Z (m * 2 ^ (e - q)) * u).
    { rewrite <- (integral_quotient m e q L), E. unfold u. field.
      apply Qnot_eq_sym, Qlt_not_eq, pow2_pos. }
    rewrite Ey. apply scale.
  - assert (Eq : q = (b - 52)%Z) by lia.
    assert (Hy : Qabs y <= F64.pow2 b).
    { rewrite E, Qabs_Qmult, abs_inject_Z, (Qabs_pos (F64.pow2 e)) by lra.
      apply Qle_trans with (inject_Z (2 ^ 53) * F64.pow2 e).
      - apply Qmult_le_compat_r; [rewrite <- Zle_Qle; exact Hm | lra].
      - rewrite <- pow2_Z, <- pow2_add by lia. apply pow2_le. lia. }
    assert (Eb : F64.pow2 b == inject_Z (2 ^ 52) * u).
    { unfold u. rewrite <- pow2_Z, <- pow2_add by lia.
      now replace (52 + q)%Z with b by lia. }
    apply Qle_trans with (Qabs (inject_Z (2 ^ 52) * u - x)); [apply scale|].
    rewrite <- Eb. apply Qabs_Qle_condition in Hy.
    apply Qabs_case; intros; apply Qabs_case; intros; lra.
Qed.

(** [rnd x] is a binary64 number, and none is nearer to [x]. *)
Lemma rnd_nearest (x y : Q) :
  representable y -> Qabs (F64.rnd x - x) <= Qabs (y - x).
Proof.
  intros Hy. destruct (Qlt_le_dec 0 x) as [Hx|Hx].
  - now apply rnd_nearest_pos.
  - destruct (Qeq_dec x 0) as [E|Nx].
    + rewrite (rnd_zero x E), E. apply Qabs_case; intros; apply Qabs_case; intros; lra.
    + assert (Hx' : 0 < - x) by lra.
      pose proof (rnd_nearest_pos (- x) (- y) Hx' (representable_opp y Hy)) as N.
      rewrite rnd_opp in N.
      assert (E1 : - F64.rnd x - - x == - (F64.rnd x - x)) by ring.
      assert (E2 : - y - - x == - (y - x)) by ring.
      now rewrite E1, E2, !Qabs_opp in N.
Qed.

End Nearest.

(** ** Float operations *)

Section FloatOperations.

Lemma rnd_le_Z (x : Q) (k : Z) :
  (Z.abs k <= 2 ^ 53)%Z -> x <= inject_Z k -> F64.rnd x <= inject_Z k.
Proof. intros Hk H. rewrite <- (rnd_Z k Hk). now apply rnd_mono. Qed.

Lemma round64_proper (x y : Q) (n : nat) : x == y -> F64.round x n = F64.round y n.
Proof. intros E. unfold F64.round. now rewrite (rnd_proper x y E). Qed.

Lemma round64_mono (x y : Q) (n : nat) : x <= y -> F64.round x n <= F64.round y n.
Proof. intros H. unfold F64.round. now apply rnd_mono, round_mono, rnd_mono. Qed.

Lemma round64_zero (n : nat) : F64.round 0 n = 0.
Proof. unfold F64.round. apply rnd_zero. change (F64.rnd 0) with 0. apply round_zero. Qed.

Lemma round64_nonneg (x : Q) (n : nat) : 0 <= x -> 0 <= F64.round x n.
Proof. intros H. rewrite <- (round64_zero n). now apply round64_mono. Qed.

(** A number rounded to [n] decimals is the float of a decimal. *)
Lemma round64_decimal (x : Q) (n : nat) :
  F64.round x n
  = F64.rnd (inject_Z (Py.round_half_even (F64.rnd x * Py.pow10 n)) / Py.pow10 n).
Proof. reflexivity. Qed.

Lemma add_mono (a a' b b' : Q) : a <= a' -> b <= b' -> F64.add a b <= F64.add a' b'.
Proof.
  intros Ha Hb. unfold F64.add. apply rnd_mono.
  apply Qplus_le_compat; now apply rnd_mono.
Qed.

Lemma sub_self (a b : Q) : F64.rnd a == F64.rnd b -> F64.sub a b = 0.
Proof. intros E. unfold F64.sub. apply rnd_zero. rewrite E. ring. Qed.

Lemma mul_nonneg (a b : Q) : 0 <= a -> 0 <= b -> 0 <= F64.mul a b.
Proof.
  intros Ha Hb. unfold F64.mul. apply rnd_nonneg.
  apply Qmult_le_0_compat; now apply rnd_nonneg.
Qed.

Lemma mul_mono (a a' w : Q) : 0 <= w -> a <= a' -> F64.mul a w <= F64.mul a' w.
Proof.
  intros Hw Ha. unfold F64.mul. apply rnd_mono.
  apply Qmult_le_compat_r; [now apply rnd_mono | now apply rnd_nonneg].
Qed.

Lemma div_nonneg (a b : Q) : 0 <= a -> 0 <= b -> 0 <= F64.div a b.
Proof.
  intros Ha Hb. unfold F64.div. apply rnd_nonneg.
  pose proof (rnd_nonneg a Ha) as Ha'. pose proof (rnd_nonneg b Hb) as Hb'.
  destruct (Qeq_dec (F64.rnd b) 0) as [E|Hne].
  - rewrite E. unfold Qdiv. change (/ 0) with 0. lra.
  - apply Qle_shift_div_l; lra.
Qed.

Lemma mul_zero_l (b : Q) : F64.mul 0 b = 0.
Proof. unfold F64.mul. apply rnd_zero. change (F64.rnd 0) with 0. ring. Qed.

Lemma div_zero_l (b : Q) : F64.div 0 b = 0.
Proof. unfold F64.div. apply rnd_zero. change (F64.rnd 0) with 0. unfold Qdiv. ring. Qed.

Lemma ltb64_lt (a b : Q) : F64.ltb a b = true <-> F64.rnd a < F64.rnd b.
Proof. apply ltb_lt. Qed.

Lemma ltb64_ge (a b : Q) : F64.ltb a b = false <-> F64.rnd b <= F64.rnd a.
Proof. apply ltb_ge. Qed.

(** The familiar cases: 0.1 is 0x1.999999999999ap-4; 0.1 + 0.2 is
    0.30000000000000004 and not 0.3; 2.675 lies below the decimal it is
    written as and rounds to 2.67; 0.125 is a float and rounds to even;
    1/80 lies above 0.0125 and rounds to 0.013. *)
Example float_arithmetic :
  F64.rnd (1 # 10) = 3602879701896397 # 36028797018963968
  /\ F64.add (1 # 10) (2 # 10) = F64.rnd (30000000000000004 # 100000000000000000)
  /\ F64.add (1 # 10) (2 # 10) <> F64.rnd (3 # 10)
  /\ F64.round (2675 # 1000) 2 = F64.rnd (267 # 100)
  /\ F64.round (125 # 1000) 2 = F64.rnd (12 # 100)
  /\ F64.round (F64.div 1 80) 3 = F64.rnd (13 # 1000).
Proof. vm_compute. repeat split; try reflexivity. discriminate. Qed.

End FloatOperations.

(** * The engine in binary64 *)

Section Binary64Offsets.

Lemma penalty64_bounds (x : Q) : 0 <= x -> 0 <= Py.min (F64.round x 1) 20 <= 20.
Proof.
  intros Hx. rewrite min_Qmin. split.
  - apply Q.min_glb; [apply round64_nonneg, Hx | discriminate].
  - apply Q.le_min_r.
Qed.

Lemma quality_multiplier_cases (q : Z) :
  ((80 <= q)%Z -> quality_multiplier q = 1)
  /\ ((60 <= q < 80)%Z -> quality_multiplier q = 15 # 10)
  /\ ((q < 60)%Z -> quality_multiplier q = 25 # 10)
  /\ 0 <= quality_multiplier q.
Proof.
  unfold quality_multiplier.
  destruct (Z.leb_spec 80 q); [|destruct (Z.leb_spec 60 q)];
    repeat split; intros; try reflexivity; try lia; discriminate.
Qed.

(** C6. For every quality tier other than "None" and every dependency
    percentage d in [0,100]: the penalty is 0 when d <= 30; when d > 30 it is
    min(round((d-30)/10 * m * 3, 1), 20), computed in floats as the code
    computes it, where m is 1.0 for a quality score of at least 80, 1.5 for
    one of at least 60, and 2.5 otherwise; so the penalty always lies in
    [0,20]. *)
Theorem analyze_offsets_penalty (tier : string) (d : Q) :
  tier <> "None" ->
  0 <= d <= 100 ->
  let r := Binary64.analyze_offsets d tier in
  let q := OffsetAnalysis.quality_score r in
  let penalty := OffsetAnalysis.dependency_penalty r in
  q = Py.get QUALITY_SCORES tier 25%Z
  /\ (d <= 30 -> penalty = 0)
  /\ (30 < d ->
      exists m : Q,
        ((80 <= q)%Z -> m = 1)
        /\ ((60 <= q < 80)%Z -> m = 15 # 10)
        /\ ((q < 60)%Z -> m = 25 # 10)
        /\ penalty
           == Qmin (F64.round (F64.mul (F64.mul (F64.div (F64.sub d 30) 10) m) 3) 1) 20)
  /\ 0 <= penalty <= 20.
Proof.
  intros Htier Hd r q penalty.
  assert (Hnone : String.eqb tier "None" = false) by now apply String.eqb_neq.
  subst penalty q r. unfold Binary64.analyze_offsets. cbn [OffsetAnalysis.quality_score
    OffsetAnalysis.dependency_penalty]. rewrite Hnone.
  set (q := Py.get QUALITY_SCORES tier 25%Z).
  destruct (quality_multiplier_cases q) as (M1 & M2 & M3 & Mpos).
  split; [reflexivity|]. unfold OFFSET_THRESHOLD.
  destruct (F64.ltb 30 d) eqn:E.
  - apply ltb64_lt in E. split.
    { intros H. pose proof (rnd_mono d 30 H). lra. }
    split.
    + intros _. exists (quality_multiplier q).
      split; [exact M1|]. split; [exact M2|]. split; [exact M3|]. apply min_Qmin.
    + apply penalty64_bounds.
      apply mul_nonneg; [|discriminate].
      apply mul_nonneg; [|exact Mpos].
      apply div_nonneg; [|discriminate].
      unfold F64.sub. apply rnd_nonneg. lra.
  - apply ltb64_ge in E. split; [reflexivity|]. split; [|split; discriminate].
    intros H. exists (quality_multiplier q).
    split; [exact M1|]. split; [exact M2|]. split; [exact M3|].
    assert (E' : F64.rnd d == F64.rnd 30).
    { apply Qle_antisym; [exact E | apply rnd_mono; lra]. }
    rewrite (sub_self d 30 E'), div_zero_l, !mul_zero_l, round64_zero.
    reflexivity.
Qed.

(** Just above the threshold the float product falls on the other side of
    the halfway point than the exact one: 0.45000000000000007 for d = 31
    and 1.3499999999999999 for d = 33, where exact arithmetic has 0.45 and
    1.35 and would round them to 0.4 and 1.4. *)
Lemma analyze_offsets_penalty_witness :
  OffsetAnalysis.quality_score (Binary64.analyze_offsets 45 "VCS") = 65%Z
  /\ OffsetAnalysis.dependency_penalty (Binary64.analyze_offsets 45 "VCS")
     == F64.rnd (68 # 10)
  /\ 0 <= OffsetAnalysis.dependency_penalty (Binary64.analyze_offsets 45 "VCS") <= 20
  /\ OffsetAnalysis.dependency_penalty (Binary64.analyze_offsets 31 "VCS") == 5 # 10
  /\ OffsetAnalysis.dependency_penalty (Binary64.analyze_offsets 33 "VCS")
     == F64.rnd (13 # 10).
Proof.
  assert (Hd : 0 <= 45 <= 100) by (split; discriminate).
  assert (Htier : "VCS" <> "None") by discriminate.
  pose proof (analyze_offsets_penalty "VCS" 45 Htier Hd) as (Hq & _ & _ & Hb).
  split; [exact Hq|]. split; [vm_compute; reflexivity|]. split; [exact Hb|].
  split; vm_compute; reflexivity.
Defined.

End Binary64Offsets.

Section Binary64Drift.




End Binary64Drift.

Section Binary64Aggregate.

Lemma get_claim_quality_ratio64_typed (claims : list Claim.t) :
  Forall well_typed_claim claims ->
  exists ratio, Binary64.get_claim_quality_ratio claims = Ok ratio.
Proof.
  intros H. unfold Binary64.get_claim_quality_ratio.
  destruct (Z.of_nat (List.length claims) =? 0)%Z; [eexists; reflexivity|].
  destruct (count_claims_typed claims H
              {| Counts.NUMERIC := 0; Counts.VAGUE := 0; Counts.OFFSET_BACKED := 0 |})
    as [counts ->].
  eexists. reflexivity.
Qed.

Lemma compute_lts64_returns (c : Company.t) :
  well_typed c -> exists r : Lts.t, Binary64.compute_lts c = Ok r.
Proof.
  intros H.
  destruct (get_claim_quality_ratio64_typed _ H) as [ratio Hratio].
  destruct (fingerprint_all_typed (default "Unverified" (Company.offset_quality c)) _ H)
    as (entries & Hfp & _).
  unfold Binary64.compute_lts. rewrite Hratio. cbn [mbind result_bind].
  rewrite Hfp. cbn [mbind result_bind]. eexists. reflexivity.
Qed.

(** The final rounding, on a clamped aggregate. *)
Lemma lts64_of_clamped (v : Q) :
  0 <= v <= 100 ->
  0 <= F64.round v 1 <= 100
  /\ exists k : Z, (0 <= k <= 1000)%Z /\ F64.round v 1 = F64.rnd (inject_Z k / 10).
Proof.
  intros [Hlo Hhi]. split.
  - split.
    + apply round64_nonneg, Hlo.
    + change 100 with (F64.round 100 1). apply round64_mono, Hhi.
  - exists (Py.round_half_even (F64.rnd v * Py.pow10 1)).
    split; [|apply round64_decimal].
    assert (L : 0 <= F64.rnd v) by apply rnd_nonneg, Hlo.
    assert (U : F64.rnd v <= inject_Z 100) by (apply rnd_le_Z; [vm_compute; discriminate | exact Hhi]).
    change (inject_Z 100) with 100 in U. change (Py.pow10 1) with 10.
    split.
    + apply round_half_even_ge. change (inject_Z 0) with 0. lra.
    + apply round_half_even_le. change (inject_Z 1000) with 1000. lra.
Qed.

(** C1. The LTS that [compute_lts] returns (and it does return on
    well-typed input) is
    round(clamp(pillar_total + claim_quality_adjustment - offset_penalty
    + regulatory_bonus + grid_penalty, 0, 100), 1), each part computed from
    the input and all of it in floats: it lies in [0,100] and is the float
    of a number with one decimal, also when the raw aggregate is outside
    [0,100], where it is 100 or 0. *)
Theorem compute_lts_clamped (c : Company.t) :
  (well_typed c -> exists r, Binary64.compute_lts c = Ok r)
  /\ forall r : Lts.t,
  Binary64.compute_lts c = Ok r ->
  exists claim_ratio : Ratio.t,
    Binary64.get_claim_quality_ratio (default [] (Company.claims c)) = Ok claim_ratio
    /\ let pillar_total :=
         Binary64.compute_weighted_score (default ∅ (Company.pillar_scores c)) in
       let claim_quality_adjustment :=
         F64.round (F64.sub (F64.mul (Ratio.numeric claim_ratio) 8)
                            (F64.mul (Ratio.vague claim_ratio) 6)) 2 in
       let offset_penalty :=
         OffsetAnalysis.dependency_penalty
           (Binary64.analyze_offsets (default 0 (Company.offset_dependency c))
                                     (default "Unverified" (Company.offset_quality c))) in
       let regulatory_bonus :=
         Binary64.compute_regulatory_bonus (default [] (Company.regulatory_alignment c)) in
       let grid_penalty :=
         Binary64.grid_penalty_of (default 400 (Company.grid_carbon_intensity_gco2_kwh c)) in
       let raw :=
         F64.add
           (F64.add (F64.sub (F64.add pillar_total claim_quality_adjustment) offset_penalty)
                    regulatory_bonus)
           grid_penalty in
       Lts.lts r = F64.round (clamp raw 0 100) 1
       /\ 0 <= Lts.lts r <= 100
       /\ (exists k : Z, (0 <= k <= 1000)%Z /\ Lts.lts r = F64.rnd (inject_Z k / 10))
       /\ (100 <= raw -> Lts.lts r = 100)
       /\ (raw <= 0 -> Lts.lts r = 0).
Proof.
  split; [apply compute_lts64_returns|].
  intros r H. unfold Binary64.compute_lts in H.
  destruct (Binary64.get_claim_quality_ratio _) as [claim_ratio|key] eqn:Eratio;
    [|discriminate H].
  cbn [mbind result_bind] in H.
  destruct (fingerprint_all _ _) as [entries|key] eqn:Efp; [|discriminate H].
  cbn [mbind result_bind] in H. injection H as <-.
  exists claim_ratio. split; [reflexivity|]. cbv zeta. cbn [Lts.lts].
  set (raw := F64.add _ _).
  assert (E : F64.round (Py.max 0 (Py.min 100 raw)) 1 = F64.round (clamp raw 0 100) 1)
    by apply round64_proper, clamp_unit_interval.
  rewrite E. pose proof (clamp_bounds raw) as Hb.
  destruct (lts64_of_clamped _ Hb) as [Hrange Hdec].
  split; [reflexivity|]. split; [exact Hrange|]. split; [exact Hdec|].
  unfold clamp. split; intros Hraw.
  - change 100 with (F64.round 100 1) at 2. apply round64_proper.
    rewrite Q.min_l by exact Hraw. apply Q.max_r. discriminate.
  - rewrite <- (round64_zero 1). apply round64_proper.
    apply Q.max_l. apply Qle_trans with raw; [apply Q.le_min_r | exact Hraw].
Qed.

(** All pillars at 100, no claims, the four standards met: the raw
    aggregate is 108 and the score is 100. *)
Lemma compute_lts_clamped_witness :
  exists r : Lts.t,
    Binary64.compute_lts saturated_company = Ok r
    /\ Breakdown.regulatory_bonus (Lts.breakdown r) == 8
    /\ Breakdown.pillar_weighted_base (Lts.breakdown r) == 100
    /\ Lts.lts r = 100
    /\ 0 <= Lts.lts r <= 100.
Proof.
  destruct (Binary64.compute_lts saturated_company) as [r|key] eqn:E.
  - exists r.
    destruct (compute_lts_clamped saturated_company) as [_ Hclamped].
    destruct (Hclamped r E) as (ratio & Hratio & Hlts & Hb & _ & Hhi & _).
    split; [reflexivity|].
    vm_compute in E. injection E as <-.
    split; [reflexivity|]. split; [reflexivity|]. split; [|exact Hb].
    apply Hhi. injection Hratio as <-. vm_compute. discriminate.
  - vm_compute in E. discriminate E.
Defined.

(** Where float and exact arithmetic part ways: one numeric claim, a
    dependency of 31 % on VCS offsets, CSRD met.  The code scores 39.9,
    "Greenwashing"; exact arithmetic would score 40.0, "Opaque". *)
Example compute_lts_in_floats :
  let company :=
    {| Company.name := None; Company.model := None; Company.report_year := None;
       Company.claims := Some [claim_of "NUMERIC" "Scope 1 emissions reduced by 45% since 2019"];
       Company.pillar_scores :=
         Some (list_to_map [ ("raw_materials", 39); ("manufacturing", 7);
                             ("supply_chain", 44); ("use_phase", 1);
                             ("end_of_life", 61); ("offsets", 42) ]);
       Company.prior_year_scores := None;
       Company.offset_dependency := Some 31;
       Company.offset_quality := Some "VCS";
       Company.regulatory_alignment := Some [ ("CSRD", true) ];
       Company.grid_carbon_intensity_gco2_kwh := None |} in
  (exists r, Binary64.compute_lts company = Ok r
             /\ Lts.lts r == F64.rnd (399 # 10) /\ Risk.label (Lts.risk r) = "Greenwashing")
  /\ (exists r, compute_lts company = Ok r
                /\ Lts.lts r == 40 /\ Risk.label (Lts.risk r) = "Opaque").
Proof.
  intros company. split.
  - destruct (Binary64.compute_lts company) as [r|key] eqn:E;
      vm_compute in E; [|discriminate E].
    injection E as <-. eexists. split; [reflexivity|]. split; reflexivity.
  - destruct (compute_lts company) as [r|key] eqn:E;
      vm_compute in E; [|discriminate E].
    injection E as <-. eexists. split; [reflexivity|]. split; reflexivity.
Qed.

End Binary64Aggregate.

Section OffsetRiskFacts.

(** X1. The risk level by tier and dependency d. Tier "None" is LOW. A
    tier with a quality score of at least 65 (Gold Standard, VCS) is LOW for
    d < 15, MODERATE for 15 <= d <= 50 and HIGH for d > 50. "Unverified" is
    HIGH for every d. Any other tier (score 25 by default) is never LOW:
    MODERATE for d <= 50, HIGH for d > 50. *)
Theorem analyze_offsets_risk_table (d : Q) (tier : string) :
  let r := analyze_offsets d tier in
  let q := OffsetAnalysis.quality_score r in
  let risk := OffsetAnalysis.risk_level r in
  (tier = "None" -> risk = "LOW")
  /\ (tier = "Unverified" -> risk = "HIGH")
  /\ (tier <> "None" -> (65 <= q)%Z ->
      (d < 15 -> risk = "LOW")
      /\ (15 <= d <= 50 -> risk = "MODERATE")
      /\ (50 < d -> risk = "HIGH"))
  /\ (tier <> "None" -> tier <> "Unverified" -> (q < 65)%Z ->
      (d <= 50 -> risk = "MODERATE")
      /\ (50 < d -> risk = "HIGH")).
Proof.
  cbv zeta. unfold analyze_offsets.
  cbn [OffsetAnalysis.risk_level OffsetAnalysis.quality_score].
  split; [intros ->; reflexivity|].
  split.
  { intros ->. cbn [String.eqb Ascii.eqb Bool.eqb orb andb Py.get QUALITY_SCORES Z.leb Z.compare].
    rewrite !andb_false_r. reflexivity. }
  set (q := Py.get QUALITY_SCORES tier 25%Z).
  split.
  - intros Hnone Hq. apply String.eqb_neq in Hnone. apply Z.leb_le in Hq.
    destruct (String.eqb_spec tier "Unverified") as [->|_];
      [subst q; cbv in Hq; discriminate Hq|].
    rewrite Hnone, Hq, !andb_true_r. cbn [orb].
    destruct (Py.ltb d 15) eqn:E1; destruct (Py.ltb d OFFSET_THRESHOLD) eqn:E2;
      destruct (Py.ltb 50 d) eqn:E3;
      cbn [orb fst]; order_of_tests;
      (split; [|split]); intros; first [reflexivity | exfalso; lra].
  - intros Hnone Hunv Hq. apply String.eqb_neq in Hnone, Hunv. apply Z.leb_gt in Hq.
    rewrite Hnone, Hunv, Hq, !andb_false_r. cbn [orb].
    destruct (Py.ltb 50 d) eqn:E3; cbn [fst]; order_of_tests;
      split; intros; first [reflexivity | exfalso; lra].
Qed.

Lemma quality_multiplier_nonneg (q : Z) : 0 <= quality_multiplier q.
Proof.
  unfold quality_multiplier.
  destruct (80 <=? q)%Z; [|destruct (60 <=? q)%Z]; discriminate.
Qed.

Lemma penalty_mono (tier : string) (d1 d2 : Q) :
  d1 <= d2 ->
  OffsetAnalysis.dependency_penalty (analyze_offsets d1 tier)
  <= OffsetAnalysis.dependency_penalty (analyze_offsets d2 tier).
Proof.
  intros H. unfold analyze_offsets. cbn [OffsetAnalysis.dependency_penalty].
  destruct (String.eqb tier "None"); [apply Qle_refl|].
  set (m := quality_multiplier _). pose proof (quality_multiplier_nonneg (Py.get QUALITY_SCORES tier 25%Z)) as Hm.
  fold m in Hm.
  destruct (Py.ltb OFFSET_THRESHOLD d1) eqn:E1; destruct (Py.ltb OFFSET_THRESHOLD d2) eqn:E2;
    order_of_tests.
  - apply min_mono_l, round_mono.
    apply Qmult_le_compat_r; [|discriminate].
    apply Qmult_le_compat_r; [|exact Hm].
    apply Qmult_le_compat_r; [lra | discriminate].
  - exfalso. lra.
  - apply penalty_bounds.
    apply Qmult_le_0_compat; [apply Qmult_le_0_compat; [|exact Hm] | discriminate].
    apply Qle_shift_div_l; lra.
  - apply Qle_refl.
Qed.

(** X2. For a fixed tier, the dependency penalty never decreases when the
    dependency percentage grows. *)
Theorem analyze_offsets_monotone_penalty (tier : string) (d1 d2 : Q) :
  d1 <= d2 ->
  OffsetAnalysis.dependency_penalty (analyze_offsets d1 tier)
  <= OffsetAnalysis.dependency_penalty (analyze_offsets d2 tier).
Proof. apply penalty_mono. Qed.

Lemma analyze_offsets_monotone_penalty_witness :
  OffsetAnalysis.dependency_penalty (analyze_offsets 45 "VCS")
  <= OffsetAnalysis.dependency_penalty (analyze_offsets 60 "VCS")
  /\ OffsetAnalysis.dependency_penalty (analyze_offsets 45 "VCS") == 68 # 10
  /\ OffsetAnalysis.dependency_penalty (analyze_offsets 60 "VCS") == 135 # 10.
Proof.
  split; [|split; reflexivity].
  apply (analyze_offsets_monotone_penalty "VCS" 45 60). discriminate.
Defined.

End OffsetRiskFacts.

Section WeightedScoreFacts.

Lemma weighted_sum_unfold (X : gmap string Q) :
  compute_weighted_score X
  = Py.round
      (0 + score_of X "raw_materials" * (20 # 100)
         + score_of X "manufacturing" * (20 # 100)
         + score_of X "supply_chain" * (15 # 100)
         + score_of X "use_phase" * (20 # 100)
         + score_of X "end_of_life" * (15 # 100)
         + score_of X "offsets" * (10 # 100)) 2.
Proof. reflexivity. Qed.

Ltac at_each_pillar H :=
  pose proof (H "raw_materials" ltac:(cbv; tauto));
  pose proof (H "manufacturing" ltac:(cbv; tauto));
  pose proof (H "supply_chain" ltac:(cbv; tauto));
  pose proof (H "use_phase" ltac:(cbv; tauto));
  pose proof (H "end_of_life" ltac:(cbv; tauto));
  pose proof (H "offsets" ltac:(cbv; tauto)).

Lemma weighted_sum64_unfold (X : gmap string Q) :
  Binary64.compute_weighted_score X
  = F64.round
      (F64.add
         (F64.add
            (F64.add
               (F64.add
                  (F64.add
                     (F64.add 0 (F64.mul (score_of X "raw_materials") (20 # 100)))
                     (F64.mul (score_of X "manufacturing") (20 # 100)))
                  (F64.mul (score_of X "supply_chain") (15 # 100)))
               (F64.mul (score_of X "use_phase") (20 # 100)))
            (F64.mul (score_of X "end_of_life") (15 # 100)))
         (F64.mul (score_of X "offsets") (10 # 100))) 2.
Proof. reflexivity. Qed.

Lemma weighted_score64_mono (X Y : gmap string Q) :
  (forall pillar, In pillar pillar_names -> score_of X pillar <= score_of Y pillar) ->
  Binary64.compute_weighted_score X <= Binary64.compute_weighted_score Y.
Proof.
  intros H. rewrite !weighted_sum64_unfold. at_each_pillar H.
  apply round64_mono.
  repeat (apply add_mono; [|apply mul_mono; [discriminate | assumption]]).
  apply Qle_refl.
Qed.

Lemma score_of_pillars_at (s : Q) (pillar : string) :
  In pillar pillar_names -> score_of (pillars_at s) pillar = s.
Proof.
  intros Hin. cbv in Hin.
  destruct Hin as [<-|[<-|[<-|[<-|[<-|[<-|[]]]]]]]; reflexivity.
Qed.

(** X3. When each of the six pillars scores within [0,100] (an absent
    pillar counts 0), the weighted score lies in [0,100], in exact
    arithmetic and in the float arithmetic of the code alike. *)
Theorem compute_weighted_score_bounds (X : gmap string Q) :
  (forall pillar, In pillar pillar_names -> 0 <= score_of X pillar <= 100) ->
  0 <= compute_weighted_score X <= 100
  /\ 0 <= Binary64.compute_weighted_score X <= 100.
Proof.
  intros H. split.
  - rewrite weighted_sum_unfold. at_each_pillar H. split.
    + apply (round_ge 0). change (inject_Z 0) with 0. lra.
    + apply (round_le 100). change (inject_Z 100) with 100. lra.
  - split.
    + apply Qle_trans with (Binary64.compute_weighted_score (pillars_at 0));
        [vm_compute; discriminate|].
      apply weighted_score64_mono. intros pillar Hin.
      rewrite (score_of_pillars_at 0 pillar Hin). apply H, Hin.
    + apply Qle_trans with (Binary64.compute_weighted_score (pillars_at 100));
        [|vm_compute; discriminate].
      apply weighted_score64_mono. intros pillar Hin.
      rewrite (score_of_pillars_at 100 pillar Hin). apply H, Hin.
Qed.

(** Six pillars at 31.125: the float sum is 31.125000000000004 and the
    score 31.13, where the exact sum 31.125 rounds to 31.12. *)
Lemma compute_weighted_score_bounds_witness :
  (0 <= compute_weighted_score (pillars_at (31125 # 1000)) <= 100
   /\ 0 <= Binary64.compute_weighted_score (pillars_at (31125 # 1000)) <= 100)
  /\ compute_weighted_score (pillars_at (31125 # 1000)) == 3112 # 100
  /\ Binary64.compute_weighted_score (pillars_at (31125 # 1000)) == F64.rnd (3113 # 100).
Proof.
  split; [|split; vm_compute; reflexivity].
  apply (compute_weighted_score_bounds (pillars_at (31125 # 1000))).
  intros pillar Hin. rewrite (score_of_pillars_at _ pillar Hin).
  split; discriminate.
Defined.

Lemma weighted_score_mono (X Y : gmap string Q) :
  (forall pillar, In pillar pillar_names -> score_of X pillar <= score_of Y pillar) ->
  compute_weighted_score X <= compute_weighted_score Y.
Proof.
  intros H. rewrite !weighted_sum_unfold. at_each_pillar H.
  apply round_mono. lra.
Qed.

(** X4. Raising pillar scores never lowers the weighted score. *)
Theorem compute_weighted_score_monotone (X Y : gmap string Q) :
  (forall pillar, In pillar pillar_names -> score_of X pillar <= score_of Y pillar) ->
  compute_weighted_score X <= compute_weighted_score Y.
Proof. apply weighted_score_mono. Qed.

Lemma compute_weighted_score_monotone_witness :
  compute_weighted_score (pillars_at 47) <= compute_weighted_score (pillars_at 50).
Proof.
  apply compute_weighted_score_monotone. intros pillar Hin. cbv in Hin.
  destruct Hin as [<-|[<-|[<-|[<-|[<-|[<-|[]]]]]]]; vm_compute; discriminate.
Defined.

End WeightedScoreFacts.

Section RiskTierFacts.

(** X5. The risk tier of a score, for every score (negative ones
    included): "Transparent" exactly from 80 up, "Moderate" exactly on
    [60,80), "Opaque" exactly on [40,60), "Greenwashing" exactly below 40. *)
Theorem classify_risk_bands (score : Q) :
  let label := Risk.label (classify_risk score) in
  (label = "Transparent" <-> 80 <= score)
  /\ (label = "Moderate" <-> 60 <= score < 80)
  /\ (label = "Opaque" <-> 40 <= score < 60)
  /\ (label = "Greenwashing" <-> score < 40).
Proof.
  cbv zeta. unfold classify_risk, RISK_TIERS, first_tier.
  destruct (Py.leb 80 score) eqn:E80; [|destruct (Py.leb 60 score) eqn:E60;
    [|destruct (Py.leb 40 score) eqn:E40; [|destruct (Py.leb 0 score) eqn:E0]]];
    cbn [Risk.label];
    repeat match goal with
      | H : Py.leb _ _ = true |- _ => apply leb_le in H
      | H : Py.leb _ _ = false |- _ => apply leb_gt in H
      end;
    repeat split; intros; try discriminate; try reflexivity; try lra.
Qed.

Lemma esg_unknown_risk (lts : Q) (risk : string) :
  risk <> "LOW" -> risk <> "MODERATE" -> risk <> "HIGH" ->
  compute_investor_esg_index lts risk = compute_investor_esg_index lts "LOW".
Proof.
  intros H1 H2 H3. apply String.eqb_neq in H1, H2, H3.
  unfold compute_investor_esg_index. cbn [Py.get].
  rewrite !(String.eqb_sym _ risk), H1, H2, H3. reflexivity.
Qed.

(** X6. The investor index, by offset risk. The score is never negative
    and never above the one-decimal rounding of the LTS; a worse offset risk
    never gives a higher score; a risk label outside LOW, MODERATE and HIGH
    counts as LOW. The rating is "AAA" exactly from LTS 75 (LOW), 80
    (MODERATE), 90 (HIGH) up, and "CCC" exactly below 30, 35, 45. *)
Theorem compute_investor_esg_index_by_risk (lts : Q) :
  let score risk := Esg.score (compute_investor_esg_index lts risk) in
  let rating risk := Esg.rating (compute_investor_esg_index lts risk) in
  0 <= score "HIGH" /\ score "HIGH" <= score "MODERATE" /\ score "MODERATE" <= score "LOW"
  /\ (0 <= lts -> score "LOW" == Py.round lts 1)
  /\ (forall risk, risk <> "LOW" -> risk <> "MODERATE" -> risk <> "HIGH" ->
        compute_investor_esg_index lts risk = compute_investor_esg_index lts "LOW")
  /\ (rating "LOW" = "AAA" <-> 75 <= lts)
  /\ (rating "MODERATE" = "AAA" <-> 80 <= lts)
  /\ (rating "HIGH" = "AAA" <-> 90 <= lts)
  /\ (rating "LOW" = "CCC" <-> lts < 30)
  /\ (rating "MODERATE" = "CCC" <-> lts < 35)
  /\ (rating "HIGH" = "CCC" <-> lts < 45).
Proof.
  cbv zeta.
  assert (Hunknown := esg_unknown_risk lts).
  unfold compute_investor_esg_index in *. cbn [Esg.score Esg.rating].
  cbn [Py.get String.eqb Ascii.eqb Bool.eqb andb].
  split. { apply (round_ge 0). rewrite max_Qmax. apply Q.le_max_l. }
  split. { apply round_mono, max_mono. lra. }
  split. { apply round_mono, max_mono. lra. }
  split.
  { intros H. apply round_proper; [|reflexivity]. rewrite max_Qmax.
    rewrite Q.max_r; lra. }
  split; [exact Hunknown|]. clear Hunknown.
  repeat split;
    match goal with
    | |- context [Py.max 0 ?x] =>
        pose proof (max_Qmax 0 x) as Hmax;
        destruct (Q.max_spec 0 x) as [[Hlt Hm]|[Hle Hm]];
        rewrite Hm in Hmax; clear Hm
    end;
    repeat match goal with
      | |- context [Py.leb ?a ?b] =>
          let E := fresh "E" in destruct (Py.leb a b) eqn:E;
          [apply leb_le in E | apply leb_gt in E]
      end;
    cbn [fst]; intros; try discriminate; try reflexivity; try lra.
Qed.

End RiskTierFacts.

Section RewriteFacts.

Lemma first_suggestion_skips (pre post : list (string * string))
      (trigger suggestion claim_lower : string) :
  (forall t s : string, In (t, s) pre -> ~ occurs_in t claim_lower) ->
  occurs_in trigger claim_lower ->
  first_suggestion (pre ++ (trigger, suggestion) :: post)%list claim_lower = suggestion.
Proof.
  intros Hpre Hocc. induction pre as [|[t s] pre IH]; cbn [List.app first_suggestion].
  - apply contains_spec in Hocc. now rewrite Hocc.
  - destruct (Str.contains t claim_lower) eqn:E.
    + exfalso. apply (Hpre t s); [now left | now apply contains_spec].
    + apply IH. intros t' s' Hin. apply (Hpre t' s'). now right.
Qed.

Lemma first_suggestion_none (table : list (string * string)) (claim_lower : string) :
  (forall t s, In (t, s) table -> ~ occurs_in t claim_lower) ->
  first_suggestion table claim_lower = generic_suggestion.
Proof.
  intros H. induction table as [|[t s] table IH]; cbn [first_suggestion]; [reflexivity|].
  destruct (Str.contains t claim_lower) eqn:E.
  - exfalso. apply (H t s); [now left | now apply contains_spec].
  - apply IH. intros t' s' Hin. apply (H t' s'). now right.
Qed.

(** X7. [suggest_rewrite] answers with the suggestion of the first trigger
    of the table, in table order, that occurs in the lower-cased claim (an
    earlier trigger wins over a later one, whatever their lengths), and
    with the generic suggestion when no trigger occurs. *)
Theorem suggest_rewrite_first_trigger (claim_text : string) :
  (forall pre post trigger suggestion,
     REWRITE_SUGGESTIONS = (pre ++ (trigger, suggestion) :: post)%list ->
     (forall t s, In (t, s) pre -> ~ occurs_in t (Str.lower claim_text)) ->
     occurs_in trigger (Str.lower claim_text) ->
     suggest_rewrite claim_text = suggestion)
  /\ ((forall t s, In (t, s) REWRITE_SUGGESTIONS -> ~ occurs_in t (Str.lower claim_text)) ->
      suggest_rewrite claim_text = generic_suggestion).
Proof.
  unfold suggest_rewrite. split.
  - intros pre post trigger suggestion -> Hpre Hocc.
    now apply first_suggestion_skips.
  - apply first_suggestion_none.
Qed.

Lemma suggest_rewrite_first_trigger_witness :
  let claim := "We work for a Sustainable Future and are Committed To it" in
  occurs_in "sustainable future" (Str.lower claim)
  /\ suggest_rewrite claim
     = "State the specific target (e.g., 'committed to reducing Scope 1 emissions by 45% by 2030 vs. 2019 baseline')".
Proof.
  intros claim. split; [apply contains_spec; reflexivity|].
  destruct (suggest_rewrite_first_trigger claim) as [Hfirst _].
  apply (Hfirst [] (tl REWRITE_SUGGESTIONS) "committed to"); [reflexivity | |].
  - intros t s [].
  - apply contains_spec. reflexivity.
Defined.

End RewriteFacts.

Section FingerprintFacts.

Lemma fingerprint_ok (offset_quality : string) (claim : Claim.t) (entry : Entry.t) :
  fingerprint offset_quality claim = Ok entry ->
  exists type,
    Claim.type claim = Some type
    /\ Entry.claim entry = claim
    /\ (Entry.impact_score entry = (-8)%Z <-> type = "VAGUE")
    /\ (Entry.impact_score entry = (-12)%Z
        <-> type = "OFFSET_BACKED" /\ offset_quality = "Unverified")
    /\ (Entry.impact_score entry = 5%Z
        <-> type = "NUMERIC" /\ Claim.verified claim = Some true)
    /\ (Entry.impact_score entry = 0%Z
        <-> type <> "VAGUE"
            /\ ~ (type = "OFFSET_BACKED" /\ offset_quality = "Unverified")
            /\ ~ (type = "NUMERIC" /\ Claim.verified claim = Some true))
    /\ (Entry.rewrite_suggestion entry <> None <-> type = "VAGUE")
    /\ (type = "VAGUE" ->
        exists text, Claim.text claim = Some text
                     /\ Entry.rewrite_suggestion entry = Some (suggest_rewrite text)).
Proof.
  unfold fingerprint. destruct (Claim.type claim) as [type|]; [|discriminate].
  cbn [subscript mbind result_bind]. intros H. exists type. split; [reflexivity|].
  destruct (String.eqb_spec type "VAGUE") as [Ev|Ev].
  - destruct (Claim.text claim) as [text|]; [|discriminate].
    cbn [subscript mbind result_bind] in H. injection H as <-.
    cbn [Entry.claim Entry.impact_score Entry.rewrite_suggestion]. subst type.
    repeat split; intros; try discriminate; try congruence; try tauto;
      try (destruct H; discriminate); eauto.
  - injection H as <-.
    cbn [Entry.claim Entry.impact_score Entry.rewrite_suggestion].
    destruct (String.eqb_spec type "OFFSET_BACKED") as [Eo|Eo];
      destruct (String.eqb_spec offset_quality "Unverified") as [Eq|Eq];
      destruct (String.eqb_spec type "NUMERIC") as [En|En];
      destruct (Claim.verified claim) as [[|]|];
      cbn [andb default]; try (subst type; discriminate);
      repeat split; intros; try discriminate; try congruence; try tauto;
      try (exfalso; tauto);
      repeat match goal with H : _ /\ _ |- _ => destruct H end;
      try congruence; try (intros [? ?]; congruence).
Qed.

Lemma fingerprint_all_ok (offset_quality : string) (claims : list Claim.t)
      (entries : list Entry.t) :
  fingerprint_all offset_quality claims = Ok entries ->
  Forall2 (fun claim entry => fingerprint offset_quality claim = Ok entry) claims entries.
Proof.
  revert entries. induction claims as [|claim claims IH]; intros entries; cbn [fingerprint_all].
  - intros H. injection H as <-. constructor.
  - destruct (fingerprint offset_quality claim) as [entry|] eqn:E; [|discriminate].
    cbn [mbind result_bind].
    destruct (fingerprint_all offset_quality claims) as [entries'|]; [|discriminate].
    cbn [mbind result_bind]. intros H. injection H as <-.
    constructor; [exact E | now apply IH].
Qed.

(** X8. In every result of [compute_lts], the claims come back in their
    order, each with its original fields, and for each: the impact score is
    -8 exactly for type VAGUE, -12 exactly for OFFSET_BACKED under offset
    quality "Unverified" (the default when the company has no
    "offset_quality"), +5 exactly for a verified NUMERIC claim, 0 otherwise;
    a rewrite suggestion is present exactly for VAGUE claims. *)
Theorem compute_lts_fingerprints (c : Company.t) (r : Lts.t) :
  compute_lts c = Ok r ->
  let offset_quality := default "Unverified" (Company.offset_quality c) in
  map Entry.claim (Lts.claims r) = default [] (Company.claims c)
  /\ Forall
       (fun entry =>
          exists type,
            Claim.type (Entry.claim entry) = Some type
            /\ (Entry.impact_score entry = (-8)%Z <-> type = "VAGUE")
            /\ (Entry.impact_score entry = (-12)%Z
                <-> type = "OFFSET_BACKED" /\ offset_quality = "Unverified")
            /\ (Entry.impact_score entry = 5%Z
                <-> type = "NUMERIC" /\ Claim.verified (Entry.claim entry) = Some true)
            /\ (Entry.impact_score entry = 0%Z
                <-> type <> "VAGUE"
                    /\ ~ (type = "OFFSET_BACKED" /\ offset_quality = "Unverified")
                    /\ ~ (type = "NUMERIC" /\ Claim.verified (Entry.claim entry) = Some true))
            /\ (Entry.rewrite_suggestion entry <> None <-> type = "VAGUE"))
       (Lts.claims r).
Proof.
  intros H. cbv zeta.
  destruct (compute_lts_ok c r H) as (ratio & entries & _ & Hfp & _ & -> & _).
  cbv zeta in Hfp. apply fingerprint_all_ok in Hfp.
  induction Hfp as [|claim entry claims entries Hone _ [IHmap IHall]].
  - split; constructor.
  - destruct (fingerprint_ok _ _ _ Hone) as (type & Ht & Hc & H8 & H12 & H5 & H0 & Hs & _).
    split.
    + cbn [map]. now rewrite Hc, IHmap.
    + constructor; [|exact IHall]. exists type. rewrite Hc. auto 10.
Qed.

Lemma compute_lts_fingerprints_witness :
  exists r : Lts.t,
    compute_lts typed_company = Ok r
    /\ map Entry.impact_score (Lts.claims r) = [(-8)%Z; 5%Z; (-12)%Z]
    /\ map Entry.claim (Lts.claims r) = default [] (Company.claims typed_company).
Proof.
  destruct (compute_lts typed_company) as [r|key] eqn:E.
  - exists r. split; [reflexivity|].
    destruct (compute_lts_fingerprints typed_company r E) as [Hmap _].
    split; [|exact Hmap].
    vm_compute in E. injection E as <-. reflexivity.
  - vm_compute in E. discriminate E.
Defined.

End FingerprintFacts.

Section ClaimRatioFacts.

Lemma increment_ok (counts counts' : Counts.t) (key : string) :
  increment counts key = Ok counts' ->
  known_type key
  /\ Counts.NUMERIC counts'
     = (Counts.NUMERIC counts + if String.eqb key "NUMERIC" then 1 else 0)%Z
  /\ Counts.VAGUE counts'
     = (Counts.VAGUE counts + if String.eqb key "VAGUE" then 1 else 0)%Z
  /\ Counts.OFFSET_BACKED counts'
     = (Counts.OFFSET_BACKED counts + if String.eqb key "OFFSET_BACKED" then 1 else 0)%Z.
Proof.
  unfold increment, known_type.
  destruct (String.eqb_spec key "NUMERIC") as [->|_].
  { intros H. injection H as <-. cbn. repeat split; auto; lia. }
  destruct (String.eqb_spec key "VAGUE") as [->|_].
  { intros H. injection H as <-. cbn. repeat split; auto; lia. }
  destruct (String.eqb_spec key "OFFSET_BACKED") as [->|_]; [|discriminate].
  intros H. injection H as <-. cbn. repeat split; auto; lia.
Qed.

Lemma increment_fails (counts : Counts.t) (key key' : string) :
  increment counts key = KeyError key' -> key' = key /\ ~ known_type key.
Proof.
  unfold increment, known_type.
  destruct (String.eqb_spec key "NUMERIC"); [discriminate|].
  destruct (String.eqb_spec key "VAGUE"); [discriminate|].
  destruct (String.eqb_spec key "OFFSET_BACKED"); [discriminate|].
  intros H. injection H as <-. split; [reflexivity | tauto].
Qed.

Lemma count_type_cons (type : string) (claim : Claim.t) (claims : list Claim.t) :
  count_type type (claim :: claims)
  = ((if String.eqb (default "VAGUE" (Claim.type claim)) type then 1 else 0)
     + count_type type claims)%Z.
Proof.
  unfold count_type. cbn [List.filter].
  destruct (String.eqb _ type); cbn [List.length]; lia.
Qed.

Lemma count_claims_ok (claims : list Claim.t) (counts counts' : Counts.t) :
  count_claims claims counts = Ok counts' ->
  Forall (fun claim => known_type (default "VAGUE" (Claim.type claim))) claims
  /\ Counts.NUMERIC counts' = (Counts.NUMERIC counts + count_type "NUMERIC" claims)%Z
  /\ Counts.VAGUE counts' = (Counts.VAGUE counts + count_type "VAGUE" claims)%Z
  /\ Counts.OFFSET_BACKED counts'
     = (Counts.OFFSET_BACKED counts + count_type "OFFSET_BACKED" claims)%Z.
Proof.
  revert counts. induction claims as [|claim claims IH]; intros counts; cbn [count_claims].
  - intros H. injection H as <-. unfold count_type. cbn. repeat split; [constructor|lia..].
  - destruct (increment counts _) as [counts1|] eqn:E; [|discriminate].
    cbn [mbind result_bind]. intros H.
    destruct (increment_ok _ _ _ E) as (Hk & Hn & Hv & Ho).
    destruct (IH _ H) as (Hall & Hn' & Hv' & Ho').
    rewrite !count_type_cons. repeat split; [constructor; assumption|lia..].
Qed.

Lemma count_claims_fails (claims : list Claim.t) (counts : Counts.t) (key : string) :
  count_claims claims counts = KeyError key <->
  exists pre claim post,
    claims = (pre ++ claim :: post)%list
    /\ Forall (fun claim => known_type (default "VAGUE" (Claim.type claim))) pre
    /\ default "VAGUE" (Claim.type claim) = key
    /\ ~ known_type key.
Proof.
  revert counts. induction claims as [|claim claims IH]; intros counts; cbn [count_claims].
  - split; [discriminate|]. intros (pre & cl & post & E & _). destruct pre; discriminate.
  - destruct (increment counts _) as [counts1|key'] eqn:E; cbn [mbind result_bind].
    + destruct (increment_ok _ _ _ E) as (Hk & _). rewrite IH. split.
      * intros (pre & cl & post & -> & Hpre & Hkey & Hun).
        exists (claim :: pre), cl, post. repeat split; auto.
      * intros ([|first pre] & cl & post & Ecl & Hpre & Hkey & Hun).
        -- injection Ecl as -> ->. subst key. contradiction.
        -- injection Ecl as -> ->. inversion Hpre; subst. eauto 8.
    + destruct (increment_fails _ _ _ E) as [-> Hun]. split.
      * intros H. injection H as <-. exists [], claim, claims. repeat split; auto.
      * intros ([|first pre] & cl & post & Ecl & Hpre & Hkey & Hun').
        -- injection Ecl as -> ->. now rewrite Hkey.
        -- injection Ecl as -> ->. inversion Hpre; subst. contradiction.
Qed.

Lemma count_types_total (claims : list Claim.t) :
  Forall (fun claim => known_type (default "VAGUE" (Claim.type claim))) claims ->
  (count_type "NUMERIC" claims + count_type "VAGUE" claims
   + count_type "OFFSET_BACKED" claims = Z.of_nat (List.length claims))%Z.
Proof.
  induction 1 as [|claim claims Hk _ IH]; [reflexivity|].
  rewrite !count_type_cons. cbn [List.length].
  destruct Hk as [-> | [-> | ->]]; cbn; lia.
Qed.

Lemma count_type_nonneg (type : string) (claims : list Claim.t) :
  (0 <= count_type type claims)%Z.
Proof. unfold count_type. lia. Qed.

Lemma ratio_bounds (k total : Z) :
  (0 <= k <= total)%Z -> (0 < total)%Z ->
  0 <= Py.round (inject_Z k / inject_Z total) 3 <= 1.
Proof.
  intros Hk Ht.
  assert (Hq : 0 < inject_Z total) by (change 0 with (inject_Z 0); now rewrite <- Zlt_Qlt).
  split.
  - apply (round_ge 0). apply Qle_shift_div_l; [exact Hq|].
    change (inject_Z 0) with 0. rewrite Qmult_0_l.
    change 0 with (inject_Z 0). rewrite <- Zle_Qle. lia.
  - apply (round_le 1). apply Qle_shift_div_r; [exact Hq|].
    change (inject_Z 1) with 1. rewrite Qmult_1_l. rewrite <- Zle_Qle. lia.
Qed.

(** X9. When [get_claim_quality_ratio] returns: for an empty list the three
    ratios are 0 and no counts are reported; otherwise the counts are those
    of the claims by type (a claim without a type counting as VAGUE), they
    add up to the total, which is the number of claims, and each ratio lies
    in [0,1]. *)
Theorem get_claim_quality_ratio_counts (claims : list Claim.t) (ratio : Ratio.t) :
  get_claim_quality_ratio claims = Ok ratio ->
  (claims = [] ->
   ratio = {| Ratio.numeric := 0; Ratio.vague := 0; Ratio.offset := 0;
              Ratio.counts := None |})
  /\ (claims <> [] ->
      exists detail,
        Ratio.counts ratio = Some detail
        /\ Ratio.total detail = Z.of_nat (List.length claims)
        /\ Ratio.numeric_count detail = count_type "NUMERIC" claims
        /\ Ratio.vague_count detail = count_type "VAGUE" claims
        /\ Ratio.offset_count detail = count_type "OFFSET_BACKED" claims
        /\ (Ratio.numeric_count detail + Ratio.vague_count detail
            + Ratio.offset_count detail = Ratio.total detail)%Z
        /\ 0 <= Ratio.numeric ratio <= 1
        /\ 0 <= Ratio.vague ratio <= 1
        /\ 0 <= Ratio.offset ratio <= 1).
Proof.
  intros H. split.
  - intros ->. cbn in H. now injection H as <-.
  - intros Hne. unfold get_claim_quality_ratio in H.
    destruct (Z.eqb_spec (Z.of_nat (List.length claims)) 0) as [E|E].
    { destruct claims; [contradiction | discriminate E]. }
    destruct (count_claims claims _) as [counts|] eqn:Ec; [|discriminate].
    cbn [mbind result_bind] in H. injection H as <-.
    destruct (count_claims_ok _ _ _ Ec) as (Hall & Hn & Hv & Ho).
    cbn [Counts.NUMERIC Counts.VAGUE Counts.OFFSET_BACKED] in Hn, Hv, Ho.
    pose proof (count_types_total claims Hall) as Hsum.
    pose proof (count_type_nonneg "NUMERIC" claims).
    pose proof (count_type_nonneg "VAGUE" claims).
    pose proof (count_type_nonneg "OFFSET_BACKED" claims).
    eexists. split; [reflexivity|].
    cbn [Ratio.total Ratio.numeric_count Ratio.vague_count Ratio.offset_count
         Ratio.numeric Ratio.vague Ratio.offset].
    repeat split; try lia; apply ratio_bounds; lia.
Qed.

Lemma get_claim_quality_ratio_counts_witness :
  exists ratio detail,
    get_claim_quality_ratio (default [] (Company.claims typed_company)) = Ok ratio
    /\ Ratio.counts ratio = Some detail
    /\ Ratio.total detail = 3%Z
    /\ Ratio.vague_count detail = 1%Z.
Proof.
  destruct (get_claim_quality_ratio (default [] (Company.claims typed_company)))
    as [ratio|key] eqn:E.
  - destruct (get_claim_quality_ratio_counts _ ratio E) as [_ H].
    destruct H as (detail & Hd & Ht & _ & Hv & _); [discriminate|].
    exists ratio, detail. repeat split; [exact Hd | exact Ht | exact Hv].
  - vm_compute in E. discriminate E.
Defined.

(** X10. [get_claim_quality_ratio] raises KeyError exactly when some claim
    has a type (VAGUE when absent) outside NUMERIC, VAGUE and
    OFFSET_BACKED, and the key of the error is the type of the first such
    claim. *)
Theorem get_claim_quality_ratio_key_error (claims : list Claim.t) (key : string) :
  get_claim_quality_ratio claims = KeyError key <->
  exists pre claim post,
    claims = (pre ++ claim :: post)%list
    /\ Forall (fun claim => known_type (default "VAGUE" (Claim.type claim))) pre
    /\ default "VAGUE" (Claim.type claim) = key
    /\ ~ known_type key.
Proof.
  unfold get_claim_quality_ratio.
  destruct (Z.eqb_spec (Z.of_nat (List.length claims)) 0) as [E|E].
  - destruct claims; [|discriminate E]. split; [discriminate|].
    intros (pre & cl & post & Ecl & _). destruct pre; discriminate.
  - rewrite <- (count_claims_fails claims
                  {| Counts.NUMERIC := 0; Counts.VAGUE := 0; Counts.OFFSET_BACKED := 0 |}).
    destruct (count_claims claims _); cbn [mbind result_bind]; split;
      intros H; try discriminate; injection H as ->; reflexivity.
Qed.

End ClaimRatioFacts.

Section PipelineFacts.

Lemma count_claims_known (claims : list Claim.t) :
  Forall (fun claim => known_type (default "VAGUE" (Claim.type claim))) claims ->
  forall counts, exists counts', count_claims claims counts = Ok counts'.
Proof.
  induction 1 as [|claim claims Hk _ IH]; intros counts; cbn [count_claims].
  - eexists. reflexivity.
  - destruct (increment_typed counts _ Hk) as [counts' ->]. cbn [mbind result_bind].
    apply IH.
Qed.

Lemma ratio_returns_iff (claims : list Claim.t) :
  (exists ratio, get_claim_quality_ratio claims = Ok ratio)
  <-> Forall (fun claim => known_type (default "VAGUE" (Claim.type claim))) claims.
Proof.
  unfold get_claim_quality_ratio. split.
  - intros [ratio H].
    destruct (Z.of_nat (List.length claims) =? 0)%Z eqn:E.
    + destruct claims; [constructor | discriminate E].
    + destruct (count_claims claims _) as [counts|] eqn:Ec; [|discriminate].
      now destruct (count_claims_ok _ _ _ Ec).
  - intros H. destruct (Z.of_nat (List.length claims) =? 0)%Z; [eauto|].
    destruct (count_claims_known claims H
                {| Counts.NUMERIC := 0; Counts.VAGUE := 0; Counts.OFFSET_BACKED := 0 |})
      as [counts ->].
    cbn [mbind result_bind]. eauto.
Qed.

(** What the fingerprint loop needs of a claim. *)
Lemma fingerprint_returns_iff (offset_quality : string) (claim : Claim.t) :
  (exists entry, fingerprint offset_quality claim = Ok entry)
  <-> exists type, Claim.type claim = Some type
                   /\ (type = "VAGUE" -> exists text, Claim.text claim = Some text).
Proof.
  unfold fingerprint. destruct (Claim.type claim) as [type|]; cbn [subscript mbind result_bind].
  - destruct (String.eqb_spec type "VAGUE") as [->|Hne].
    + destruct (Claim.text claim) as [text|]; cbn [subscript mbind result_bind]; split.
      * intros _. eauto.
      * eauto.
      * intros [entry H]. discriminate.
      * intros (type & E & H). injection E as <-. destruct (H eq_refl) as [text Ht].
        discriminate.
    + split; [|eauto]. intros _. exists type. split; [reflexivity | tauto].
  - split; [intros [entry H]; discriminate | intros (type & E & _); discriminate].
Qed.

Lemma fingerprint_all_returns_iff (offset_quality : string) (claims : list Claim.t) :
  (exists entries, fingerprint_all offset_quality claims = Ok entries)
  <-> Forall (fun claim =>
                exists type, Claim.type claim = Some type
                             /\ (type = "VAGUE" -> exists text, Claim.text claim = Some text))
             claims.
Proof.
  induction claims as [|claim claims IH]; cbn [fingerprint_all].
  - split; [constructor | eauto].
  - split.
    + intros [entries H].
      destruct (fingerprint offset_quality claim) as [entry|] eqn:E; [|discriminate].
      cbn [mbind result_bind] in H.
      destruct (fingerprint_all offset_quality claims) as [entries'|]; [|discriminate].
      constructor; [apply (fingerprint_returns_iff offset_quality); eauto | apply IH; eauto].
    + intros H. inversion H as [|? ? Hc Hrest]; subst.
      apply (fingerprint_returns_iff offset_quality) in Hc as [entry ->].
      apply IH in Hrest as [entries ->]. cbn [mbind result_bind]. eauto.
Qed.

Lemma compute_lts_returns_when (c : Company.t) :
  (exists r, compute_lts c = Ok r)
  <-> (exists ratio, get_claim_quality_ratio (default [] (Company.claims c)) = Ok ratio)
      /\ (exists entries,
            fingerprint_all (default "Unverified" (Company.offset_quality c))
                            (default [] (Company.claims c)) = Ok entries).
Proof.
  split.
  - intros [r H]. destruct (compute_lts_ok c r H) as (ratio & entries & Hr & Hf & _).
    split; eauto.
  - intros [[ratio Hr] [entries Hf]]. unfold compute_lts.
    rewrite Hr. cbn [mbind result_bind]. rewrite Hf. cbn [mbind result_bind]. eauto.
Qed.

(** X11. [compute_lts] returns a result exactly when every claim has a
    type among NUMERIC, VAGUE and OFFSET_BACKED and every VAGUE claim has a
    text; for any other claim list it raises KeyError. *)
Theorem compute_lts_returns_iff (c : Company.t) :
  (exists r, compute_lts c = Ok r)
  <-> Forall (fun claim =>
                exists type,
                  Claim.type claim = Some type
                  /\ known_type type
                  /\ (type = "VAGUE" -> exists text, Claim.text claim = Some text))
             (default [] (Company.claims c)).
Proof.
  rewrite compute_lts_returns_when, ratio_returns_iff, fingerprint_all_returns_iff.
  rewrite !Forall_forall. split.
  - intros [Hk Hf] claim Hin. destruct (Hf claim Hin) as (type & Ht & Hv).
    specialize (Hk claim Hin). rewrite Ht in Hk. eauto.
  - intros H. split; intros claim Hin; destruct (H claim Hin) as (type & Ht & Hk & Hv).
    + now rewrite Ht.
    + eauto.
Qed.

Lemma fingerprint_all_missing_type (offset_quality : string) (claims : list Claim.t) :
  Forall (fun claim => exists text, Claim.text claim = Some text) claims ->
  Exists (fun claim => Claim.type claim = None) claims ->
  fingerprint_all offset_quality claims = KeyError "type".
Proof.
  intros Htext Hex. induction Hex as [claim claims Hnone | claim claims _ IH];
    inversion Htext as [|? ? [text Ht] Hrest]; subst; cbn [fingerprint_all].
  - unfold fingerprint. rewrite Hnone. reflexivity.
  - rewrite (IH Hrest). unfold fingerprint.
    destruct (Claim.type claim) as [type|]; [|reflexivity].
    cbn [subscript mbind result_bind]. rewrite Ht.
    destruct (String.eqb type "VAGUE"); reflexivity.
Qed.

(** X12. A claim without a "type" is counted as VAGUE by
    [get_claim_quality_ratio] but stops the fingerprint loop: when every
    claim has a text and a known or absent type, and some claim has no
    type, the ratio is computed and [compute_lts] raises KeyError "type". *)
Theorem compute_lts_missing_type_raises (c : Company.t) :
  let claims := default [] (Company.claims c) in
  Forall (fun claim =>
            (exists text, Claim.text claim = Some text)
            /\ (Claim.type claim = None
                \/ exists type, Claim.type claim = Some type /\ known_type type))
         claims ->
  Exists (fun claim => Claim.type claim = None) claims ->
  (exists ratio, get_claim_quality_ratio claims = Ok ratio
                 /\ (1 <= count_type "VAGUE" claims)%Z)
  /\ compute_lts c = KeyError "type".
Proof.
  intros claims Hall Hex.
  assert (Hk : Forall (fun claim => known_type (default "VAGUE" (Claim.type claim))) claims).
  { eapply Forall_impl; [exact Hall|]. intros claim [_ [-> | (type & -> & Hk)]].
    - right. left. reflexivity.
    - exact Hk. }
  assert (Ht : Forall (fun claim => exists text, Claim.text claim = Some text) claims).
  { eapply Forall_impl; [exact Hall|]. intros claim [H _]. exact H. }
  destruct (proj2 (ratio_returns_iff claims) Hk) as [ratio Hr].
  split.
  - exists ratio. split; [exact Hr|]. clear - Hex.
    induction Hex as [claim claims Hnone | claim claims _ IH]; rewrite count_type_cons.
    + rewrite Hnone. pose proof (count_type_nonneg "VAGUE" claims). cbn. lia.
    + destruct (String.eqb _ "VAGUE"); lia.
  - unfold compute_lts. fold claims. rewrite Hr. cbn [mbind result_bind].
    now rewrite (fingerprint_all_missing_type _ _ Ht Hex).
Qed.

Lemma compute_lts_missing_type_raises_witness :
  let untyped :=
    {| Claim.text := Some "We will do better"; Claim.type := None;
       Claim.pillar := None; Claim.confidence := None; Claim.verified := None |} in
  let c :=
    {| Company.name := None; Company.model := None; Company.report_year := None;
       Company.claims := Some [claim_of "NUMERIC" "Emissions fell by 12%"; untyped];
       Company.pillar_scores := None; Company.prior_year_scores := None;
       Company.offset_dependency := None; Company.offset_quality := None;
       Company.regulatory_alignment := None;
       Company.grid_carbon_intensity_gco2_kwh := None |} in
  compute_lts c = KeyError "type".
Proof.
  intros untyped c. apply (compute_lts_missing_type_raises c); simpl.
  - constructor.
    { split; [eexists; reflexivity|].
      right. exists "NUMERIC". split; [reflexivity | left; reflexivity]. }
    constructor; [|constructor].
    split; [eexists; reflexivity | left; reflexivity].
  - apply Exists_cons_tl, Exists_cons_hd. reflexivity.
Defined.

Lemma compute_lts_fields (c : Company.t) (r : Lts.t) :
  compute_lts c = Ok r ->
  Lts.risk r = classify_risk (Lts.lts r)
  /\ Lts.esg_investor_index r
     = compute_investor_esg_index (Lts.lts r)
         (OffsetAnalysis.risk_level (Lts.offset_analysis r))
  /\ Lts.grid_carbon_intensity r
     = default 400 (Company.grid_carbon_intensity_gco2_kwh c).
Proof.
  unfold compute_lts. intros H.
  destruct (get_claim_quality_ratio _) as [claim_ratio|key]; [|discriminate H].
  cbn [mbind result_bind] in H.
  destruct (fingerprint_all _ _) as [entries|key]; [|discriminate H].
  cbn [mbind result_bind] in H. injection H as <-.
  cbn [Lts.risk Lts.lts Lts.esg_investor_index Lts.offset_analysis
       Lts.grid_carbon_intensity].
  repeat split.
Qed.

Lemma lts_is_rounded (c : Company.t) (r : Lts.t) :
  compute_lts c = Ok r ->
  0 <= Lts.lts r <= 100 /\ Py.round (Lts.lts r) 1 == Lts.lts r.
Proof.
  intros H.
  destruct (compute_lts_ok c r H)
    as (ratio & entries & _ & _ & _ & _ & _ & _ & _ & _ & _ & Hlts).
  cbv zeta in Hlts. rewrite Hlts. set (raw := raw_lts _ _ _ _ _).
  split; [|apply round_idem].
  pose proof (clamp_bounds raw) as [Hlo Hhi].
  split.
  - apply (round_ge 0). rewrite clamp_unit_interval. exact Hlo.
  - apply (round_le 100). rewrite clamp_unit_interval. exact Hhi.
Qed.

Lemma esg_penalty_nonpos (risk : string) :
  Py.get [("LOW", 0); ("MODERATE", -5); ("HIGH", -15)] risk 0 <= 0.
Proof.
  cbn [Py.get]. destruct (String.eqb "LOW" risk); [discriminate|].
  destruct (String.eqb "MODERATE" risk); [discriminate|].
  destruct (String.eqb "HIGH" risk); discriminate.
Qed.

(** X13. In every result of [compute_lts] the risk tier and the investor
    index agree with the score: the label is "Transparent" exactly for
    lts >= 80, "Moderate" on [60,80), "Opaque" on [40,60), "Greenwashing"
    below 40; the investor score lies between 0 and the LTS, and equals the
    LTS when the offset risk is LOW. *)
Theorem compute_lts_tier_consistent (c : Company.t) (r : Lts.t) :
  compute_lts c = Ok r ->
  let label := Risk.label (Lts.risk r) in
  let esg := Esg.score (Lts.esg_investor_index r) in
  (label = "Transparent" <-> 80 <= Lts.lts r)
  /\ (label = "Moderate" <-> 60 <= Lts.lts r < 80)
  /\ (label = "Opaque" <-> 40 <= Lts.lts r < 60)
  /\ (label = "Greenwashing" <-> Lts.lts r < 40)
  /\ 0 <= esg <= Lts.lts r
  /\ (OffsetAnalysis.risk_level (Lts.offset_analysis r) = "LOW" -> esg == Lts.lts r).
Proof.
  intros H. cbv zeta.
  destruct (compute_lts_fields c r H) as (-> & -> & _).
  destruct (lts_is_rounded c r H) as [[Hlo Hhi] Hround].
  set (lts := Lts.lts r) in *. set (risk := OffsetAnalysis.risk_level _).
  assert (Hbands : forall label,
             label = Risk.label (classify_risk lts) ->
             (label = "Transparent" <-> 80 <= lts)
             /\ (label = "Moderate" <-> 60 <= lts < 80)
             /\ (label = "Opaque" <-> 40 <= lts < 60)
             /\ (label = "Greenwashing" <-> lts < 40)).
  { intros label ->. unfold classify_risk, RISK_TIERS, first_tier.
    destruct (Py.leb 80 lts) eqn:E80; [|destruct (Py.leb 60 lts) eqn:E60;
      [|destruct (Py.leb 40 lts) eqn:E40; [|destruct (Py.leb 0 lts) eqn:E0]]];
      cbn [Risk.label];
      repeat match goal with
        | H : Py.leb _ _ = true |- _ => apply leb_le in H
        | H : Py.leb _ _ = false |- _ => apply leb_gt in H
        end;
      repeat split; intros; try discriminate; try reflexivity; try lra. }
  destruct (Hbands _ eq_refl) as (H1 & H2 & H3 & H4).
  split; [exact H1|]. split; [exact H2|]. split; [exact H3|]. split; [exact H4|].
  unfold compute_investor_esg_index. cbn [Esg.score].
  pose proof (esg_penalty_nonpos risk) as Hpen.
  set (pen := Py.get _ risk 0) in *.
  assert (Hmax : Py.max 0 (lts + pen) <= lts).
  { rewrite max_Qmax. apply Q.max_lub; lra. }
  split; [split|].
  - apply (round_ge 0). rewrite max_Qmax. apply Q.le_max_l.
  - rewrite <- Hround at 2. apply round_mono, Hmax.
  - intros Hrisk. subst pen. rewrite Hrisk. cbn [Py.get String.eqb Ascii.eqb Bool.eqb andb].
    rewrite <- Hround at 2. apply round_proper; [|reflexivity].
    rewrite max_Qmax, Q.max_r; lra.
Qed.

Lemma compute_lts_tier_consistent_witness :
  exists r : Lts.t,
    compute_lts saturated_company = Ok r
    /\ Risk.label (Lts.risk r) = "Transparent"
    /\ Esg.score (Lts.esg_investor_index r) == Lts.lts r.
Proof.
  destruct (compute_lts saturated_company) as [r|key] eqn:E.
  - exists r. split; [reflexivity|].
    destruct (compute_lts_tier_consistent saturated_company r E) as (Ht & _ & _ & _ & _ & Hlow).
    vm_compute in E. injection E as <-. split.
    + apply Ht. vm_compute. discriminate.
    + apply Hlow. reflexivity.
  - vm_compute in E. discriminate E.
Defined.

(** X14. With the claims, the offset quality, the regulatory alignment and
    the grid intensity unchanged, raising pillar scores and lowering the
    offset dependency never lowers the LTS. *)
Theorem compute_lts_monotone (c : Company.t) (X Y : gmap string Q) (d1 d2 : Q)
        (r1 r2 : Lts.t) :
  (forall pillar, In pillar pillar_names -> score_of X pillar <= score_of Y pillar) ->
  d2 <= d1 ->
  compute_lts (rescored c X d1) = Ok r1 ->
  compute_lts (rescored c Y d2) = Ok r2 ->
  Lts.lts r1 <= Lts.lts r2.
Proof.
  intros HXY Hd H1 H2.
  destruct (compute_lts_ok _ _ H1)
    as (ratio1 & entries1 & Hr1 & _ & _ & _ & _ & _ & _ & _ & _ & Hlts1).
  destruct (compute_lts_ok _ _ H2)
    as (ratio2 & entries2 & Hr2 & _ & _ & _ & _ & _ & _ & _ & _ & Hlts2).
  cbv zeta in *. cbn [rescored Company.claims Company.pillar_scores
    Company.offset_dependency Company.offset_quality Company.regulatory_alignment
    Company.grid_carbon_intensity_gco2_kwh default] in *.
  rewrite Hr1 in Hr2. injection Hr2 as <-.
  rewrite Hlts1, Hlts2. unfold raw_lts.
  pose proof (weighted_score_mono X Y HXY) as Hw.
  pose proof (penalty_mono (default "Unverified" (Company.offset_quality c)) d2 d1 Hd) as Hp.
  apply round_mono, max_mono, min_mono.
  unfold id in *. lra.
Qed.

Lemma compute_lts_monotone_witness :
  exists r1 r2 : Lts.t,
    compute_lts (rescored typed_company (pillars_at 47) 80) = Ok r1
    /\ compute_lts (rescored typed_company (pillars_at 50) 60) = Ok r2
    /\ Lts.lts r1 <= Lts.lts r2.
Proof.
  destruct (compute_lts (rescored typed_company (pillars_at 47) 80)) as [r1|] eqn:E1;
    [|vm_compute in E1; discriminate E1].
  destruct (compute_lts (rescored typed_company (pillars_at 50) 60)) as [r2|] eqn:E2;
    [|vm_compute in E2; discriminate E2].
  exists r1, r2. split; [reflexivity|]. split; [reflexivity|].
  apply (compute_lts_monotone typed_company (pillars_at 47) (pillars_at 50) 80 60 r1 r2);
    [|discriminate|exact E1|exact E2].
  intros pillar Hin. cbv in Hin.
  destruct Hin as [<-|[<-|[<-|[<-|[<-|[<-|[]]]]]]]; vm_compute; discriminate.
Defined.

End PipelineFacts.

Section ClassifierShape.

Lemma round_above (k : Z) (n : nat) (x : Q) :
  inject_Z k / Py.pow10 n <= x -> inject_Z k / Py.pow10 n <= Py.round x n.
Proof.
  intros H. rewrite <- (round_decimal_fixed k n). now apply round_mono.
Qed.

Lemma round_below (k : Z) (n : nat) (x : Q) :
  x <= inject_Z k / Py.pow10 n -> Py.round x n <= inject_Z k / Py.pow10 n.
Proof.
  intros H. rewrite <- (round_decimal_fixed k n). now apply round_mono.
Qed.

Lemma classify_claim_known_type (text : string) :
  known_type (Classification.type (classify_claim text)).
Proof.
  unfold classify_claim, known_type.
  destruct (existsb _ OFFSET_PHRASES); [|destruct (existsb _ NUMERIC_PATTERNS)];
    cbn [Classification.type]; tauto.
Qed.

(** X15. Every classification is well-formed: the type is NUMERIC, VAGUE or
    OFFSET_BACKED; an offset quality is given exactly for OFFSET_BACKED;
    the confidence is 0.85 or 0.95 for OFFSET_BACKED, 0.88 or 0.95 for
    NUMERIC, and within [0.72, 0.95] for VAGUE. *)
Theorem classify_claim_well_formed (text : string) :
  let c := classify_claim text in
  known_type (Classification.type c)
  /\ (Classification.offset_quality c <> None <-> Classification.type c = "OFFSET_BACKED")
  /\ (Classification.type c = "OFFSET_BACKED" ->
      Classification.confidence c == 85 # 100 \/ Classification.confidence c == 95 # 100)
  /\ (Classification.type c = "NUMERIC" ->
      Classification.confidence c == 88 # 100 \/ Classification.confidence c == 95 # 100)
  /\ 72 # 100 <= Classification.confidence c <= 95 # 100.
Proof.
  cbv zeta. unfold classify_claim, known_type.
  destruct (existsb _ OFFSET_PHRASES); [|destruct (existsb _ NUMERIC_PATTERNS)];
    cbn [Classification.type Classification.offset_quality Classification.confidence].
  - split; [tauto|]. split; [split; [reflexivity | discriminate]|].
    destruct (existsb _ _).
    + split; [right; reflexivity|]. split; [discriminate|]. split; vm_compute; discriminate.
    + split; [left; reflexivity|]. split; [discriminate|]. split; vm_compute; discriminate.
  - split; [tauto|]. split; [split; [congruence | discriminate]|].
    split; [discriminate|].
    destruct (Str.contains "%" text).
    + split; [right; reflexivity|]. split; vm_compute; discriminate.
    + split; [left; reflexivity|]. split; vm_compute; discriminate.
  - split; [tauto|]. split; [split; [congruence | discriminate]|].
    split; [discriminate|]. split; [discriminate|].
    set (n := Z.of_nat _). assert (Hn : (0 <= n)%Z) by (subst n; lia).
    assert (Hq : 0 <= inject_Z n) by (change 0 with (inject_Z 0); now rewrite <- Zle_Qle).
    split.
    + apply (round_above 72 2). rewrite min_Qmin. apply Q.min_glb; [|discriminate].
      change (inject_Z 72 / Py.pow10 2) with (72 # 100). lra.
    + apply (round_below 95 2). rewrite min_Qmin.
      change (inject_Z 95 / Py.pow10 2) with (95 # 100). apply Q.le_min_r.
Qed.

















End ClassifierShape.

Section ExtractionFacts.

Lemma rstrip_keeps_head (p : ascii -> bool) (s : string) (c : ascii) (r : string) :
  Str.rstrip p s = String c r -> exists s', s = String c s'.
Proof.
  destruct s as [|x s]; cbn [Str.rstrip]; [discriminate|].
  destruct (Str.rstrip p s); [destruct (p x)|]; intros H; try discriminate;
    injection H as -> _; eauto.
Qed.

Lemma rstrip_idem (p : ascii -> bool) (s : string) :
  Str.rstrip p (Str.rstrip p s) = Str.rstrip p s.
Proof.
  induction s as [|c s IH]; [reflexivity|]. cbn [Str.rstrip].
  destruct (Str.rstrip p s) as [|x r] eqn:E.
  - destruct (p c) eqn:Ep; [reflexivity|]. cbn [Str.rstrip]. now rewrite Ep.
  - cbn [Str.rstrip]. cbn [Str.rstrip] in IH. now rewrite IH.
Qed.

Lemma lstrip_fixed (p : ascii -> bool) (s : string) :
  match s with String c _ => p c = false | EmptyString => True end ->
  Str.lstrip p s = s.
Proof. destruct s as [|c s]; [reflexivity|]. cbn [Str.lstrip]. now intros ->. Qed.

Lemma lstrip_head (p : ascii -> bool) (s : string) :
  match Str.lstrip p s with String c _ => p c = false | EmptyString => True end.
Proof.
  induction s as [|c s IH]; [exact I|]. cbn [Str.lstrip].
  destruct (p c) eqn:E; [exact IH | exact E].
Qed.

Lemma rstrip_head (p : ascii -> bool) (s : string) :
  match s with String c _ => p c = false | EmptyString => True end ->
  match Str.rstrip p s with String c _ => p c = false | EmptyString => True end.
Proof.
  destruct s as [|c s]; [trivial|]. intros Hc. cbn [Str.rstrip].
  destruct (Str.rstrip p s); [rewrite Hc|]; exact Hc.
Qed.

(** Stripping twice is stripping once. *)
Lemma strip_with_idem (p : ascii -> bool) (s : string) :
  Str.strip_with p (Str.strip_with p s) = Str.strip_with p s.
Proof.
  unfold Str.strip_with.
  rewrite (lstrip_fixed p (Str.rstrip p (Str.lstrip p s))).
  - apply rstrip_idem.
  - apply rstrip_head, lstrip_head.
Qed.

Lemma has_break_cons (c : ascii) (s : string) :
  has_break (String c s) = (is_sentence_end c && starts_with_space s) || has_break s.
Proof. destruct s; [cbn; now rewrite andb_false_r | reflexivity]. Qed.

Lemma split_head_after_end (s : string) :
  match split_sentences_from true false s with
  | piece :: _ => starts_with_space piece = false
  | [] => True
  end.
Proof.
  destruct s as [|c s]; [reflexivity|]. cbn [split_sentences_from].
  rewrite andb_false_r, andb_true_r.
  destruct (Re.is_space c) eqn:E; [reflexivity|].
  destruct (split_sentences_from _ false s); exact E.
Qed.

Lemma split_no_break (s : string) (after_end in_sep : bool) :
  Forall (fun piece => has_break piece = false)
         (split_sentences_from after_end in_sep s).
Proof.
  revert after_end in_sep. induction s as [|c s IH]; intros after_end in_sep.
  - repeat constructor.
  - cbn [split_sentences_from].
    destruct (Re.is_space c && in_sep); [apply IH|].
    destruct (Re.is_space c && after_end); [constructor; [reflexivity | apply IH]|].
    pose proof (IH (is_sentence_end c) false) as Hrec.
    pose proof (split_head_after_end s) as Hhead.
    destruct (is_sentence_end c) eqn:Eend.
    + destruct (split_sentences_from true false s) as [|piece pieces].
      * repeat constructor.
      * inversion Hrec; subst. constructor; [|assumption].
        rewrite has_break_cons, Hhead, andb_false_r. assumption.
    + destruct (split_sentences_from false false s) as [|piece pieces].
      * repeat constructor.
      * inversion Hrec; subst. constructor; [|assumption].
        rewrite has_break_cons, Eend. cbn. assumption.
Qed.

Lemma has_break_tail (c : ascii) (s : string) :
  has_break (String c s) = false -> has_break s = false.
Proof. rewrite has_break_cons. now intros [_ H]%orb_false_elim. Qed.

Lemma lstrip_no_break (p : ascii -> bool) (s : string) :
  has_break s = false -> has_break (Str.lstrip p s) = false.
Proof.
  induction s as [|c s IH]; [trivial|]. intros H. cbn [Str.lstrip].
  destruct (p c); [apply IH, (has_break_tail c), H | exact H].
Qed.

Lemma rstrip_no_break (p : ascii -> bool) (s : string) :
  has_break s = false -> has_break (Str.rstrip p s) = false.
Proof.
  induction s as [|c s IH]; [trivial|]. intros H. cbn [Str.rstrip].
  pose proof (IH (has_break_tail c s H)) as IH'.
  destruct (Str.rstrip p s) as [|x r] eqn:E.
  - destruct (p c); reflexivity.
  - destruct (rstrip_keeps_head p s x r E) as [s' ->].
    rewrite has_break_cons in H |- *. apply orb_false_elim in H as [H1 _].
    cbn [starts_with_space] in *. now rewrite H1, IH'.
Qed.

Lemma extract_items (text : string) :
  Forall
    (fun item =>
       (20 < String.length (fst item))%nat
       /\ Str.strip (fst item) = fst item
       /\ has_break (fst item) = false
       /\ snd item = classify_claim (fst item))
    (extract_and_classify_claims text).
Proof.
  unfold extract_and_classify_claims, split_sentences.
  pose proof (split_no_break (Str.strip text) false false) as Hnb.
  induction Hnb as [|sentence sentences Hs _ IH]; cbn [flat_map]; [constructor|].
  destruct (20 <? Z.of_nat (String.length (Str.strip sentence)))%Z eqn:E; [|exact IH].
  cbn [List.app]. constructor; [|exact IH]. cbn [fst snd].
  apply Z.ltb_lt in E. split; [lia|]. split; [apply strip_with_idem|].
  split; [|reflexivity].
  unfold Str.strip, Str.strip_with. now apply rstrip_no_break, lstrip_no_break.
Qed.

(** X18. Every claim that [extract_and_classify_claims] returns has a text
    of more than 20 characters, without leading or trailing whitespace and
    holding a single sentence (nowhere in it does whitespace follow ".",
    "!" or "?"), and carries the classification of that text. *)
Theorem extract_and_classify_claims_items (text : string) :
  Forall
    (fun item =>
       (20 < String.length (fst item))%nat
       /\ Str.strip (fst item) = fst item
       /\ has_break (fst item) = false
       /\ snd item = classify_claim (fst item))
    (extract_and_classify_claims text).
Proof. apply extract_items. Qed.

Lemma split_aux_words (s : string) :
  no_space (fst (Str.split_aux s)) = true /\ Forall is_word (snd (Str.split_aux s)).
Proof.
  induction s as [|c s [IHw IHws]]; cbn [Str.split_aux].
  - split; [reflexivity | constructor].
  - destruct (Str.split_aux s) as [w ws]. cbn [fst snd] in *.
    destruct (Str.isspace c) eqn:E; cbn [fst snd].
    + split; [reflexivity|]. destruct w as [|x w]; [exact IHws|].
      constructor; [split; [discriminate | exact IHw] | exact IHws].
    + split; [|exact IHws]. cbn [no_space]. now rewrite E, IHw.
Qed.

(** What [str.split] returns are words. *)
Lemma split_words (s : string) : Forall is_word (Str.split s).
Proof.
  unfold Str.split. pose proof (split_aux_words s) as [Hw Hws].
  destruct (Str.split_aux s) as [w ws]. cbn [fst snd] in *.
  destruct w as [|x w]; [exact Hws|].
  constructor; [split; [discriminate | exact Hw] | exact Hws].
Qed.

Lemma fallback_loop_items (room : nat) (lines : list string) :
  (List.length (fallback_loop room lines) <= room)%nat
  /\ Forall
       (fun item =>
          (28 <= String.length (fst item))%nat
          /\ (exists words, fst item = Str.join " " words /\ Forall is_word words)
          /\ snd item = classify_claim (fst item))
       (fallback_loop room lines).
Proof.
  revert room. induction lines as [|line lines IH]; intros room.
  - destruct room; split; cbn; try constructor; lia.
  - destruct room as [|room]; [split; cbn; [lia | constructor]|].
    cbn [fallback_loop].
    destruct (Z.of_nat (String.length (Str.join " " (Str.split line))) <? 28)%Z eqn:E.
    + apply IH.
    + destruct (IH room) as [Hlen Hall]. split; [cbn [List.length]; lia|].
      constructor; [|exact Hall]. cbn [fst snd]. apply Z.ltb_ge in E.
      split; [lia|]. split; [|reflexivity].
      exists (Str.split line). split; [reflexivity | apply split_words].
Qed.

(** X19. [_fallback_claims_from_lines] returns at most 120 claims; the text
    of each has at least 28 characters, is a sequence of words joined by
    single spaces (no other whitespace, none at the ends), and carries its
    own classification. *)
Theorem fallback_claims_bounded (text : string) :
  (List.length (_fallback_claims_from_lines text) <= 120)%nat
  /\ Forall
       (fun item =>
          (28 <= String.length (fst item))%nat
          /\ (exists words, fst item = Str.join " " words /\ Forall is_word words)
          /\ snd item = classify_claim (fst item))
       (_fallback_claims_from_lines text).
Proof. apply fallback_loop_items. Qed.

End ExtractionFacts.

Section DetectorShape.

Lemma hit_count_le (terms : list string) (content : string) :
  (hit_count terms content <= Z.of_nat (List.length terms))%Z.
Proof.
  induction terms as [|t terms IH]; [reflexivity|]. cbn [hit_count List.length].
  destruct (Str.contains t content); lia.
Qed.

Lemma in_firstn {A : Type} (n : nat) (l : list A) (x : A) :
  In x (firstn n l) -> In x l.
Proof.
  revert l. induction n as [|n IH]; intros [|y l]; simpl; try tauto.
  intros [->|H]; [now left | right; now apply IH].
Qed.

Lemma hits_occur (terms : list string) (content t : string) :
  In t (hits terms content) -> In t terms /\ occurs_in t content.
Proof.
  unfold hits. rewrite filter_In. intros [Hin H]. split; [exact Hin | now apply contains_spec].
Qed.

(** X20. What the detector returns, for every text and file name: at most
    12 matched terms and 8 non-EV terms, each of them a listed term that
    occurs in the lower-cased content; a score between -18 and 149; the
    confirming recommendation exactly when is_ev_domain is True, in which
    case at least one term matched. *)
Theorem detect_ev_domain_output (text filename : string) :
  let r := _detect_ev_domain text filename in
  let content := content_of text filename in
  (List.length (Detection.matched_terms r) <= 12)%nat
  /\ (List.length (Detection.non_ev_terms r) <= 8)%nat
  /\ Forall (fun t => occurs_in t content) (Detection.matched_terms r)
  /\ Forall (fun t => In t NON_EV_SIGNAL_TERMS /\ occurs_in t content)
            (Detection.non_ev_terms r)
  /\ (-18 <= Detection.ev_relevance_score r <= 149)%Z
  /\ (Detection.is_ev_domain r = true
      <-> Detection.recommendation r
          = "EV domain confirmed. You can continue with full EV transparency scoring.")
  /\ (Detection.is_ev_domain r = true -> Detection.matched_terms r <> []).
Proof.
  cbv zeta. pose proof (detect_score text filename) as Hscore.
  pose proof (detect_gate text filename) as Hgate. cbv zeta in Hgate.
  set (content := content_of text filename) in *.
  split; [apply firstn_le_length|]. split; [apply firstn_le_length|].
  split.
  { unfold _detect_ev_domain. cbn [Detection.matched_terms]. fold content.
    apply List.Forall_forall. intros t Hin%in_firstn.
    rewrite !in_app_iff in Hin.
    destruct Hin as [H|[H|[H|[H|H]]]]; apply hits_occur in H; tauto. }
  split.
  { unfold _detect_ev_domain. cbn [Detection.non_ev_terms]. fold content.
    apply List.Forall_forall. intros t Hin%in_firstn. now apply hits_occur. }
  split.
  { rewrite Hscore. unfold weighted_score.
    pose proof (hit_count_nonneg EV_DOMAIN_TERMS_core content).
    pose proof (hit_count_nonneg EV_DOMAIN_TERMS_vehicle content).
    pose proof (hit_count_nonneg EV_DOMAIN_TERMS_supply content).
    pose proof (hit_count_nonneg EV_AUTO_ANCHORS content).
    pose proof (hit_count_nonneg KNOWN_EV_COMPANIES content).
    pose proof (hit_count_nonneg NON_EV_SIGNAL_TERMS content).
    pose proof (hit_count_le EV_DOMAIN_TERMS_core content).
    pose proof (hit_count_le EV_DOMAIN_TERMS_vehicle content).
    pose proof (hit_count_le EV_DOMAIN_TERMS_supply content).
    pose proof (hit_count_le EV_AUTO_ANCHORS content).
    pose proof (hit_count_le KNOWN_EV_COMPANIES content).
    pose proof (hit_count_le NON_EV_SIGNAL_TERMS content).
    cbn [List.length EV_DOMAIN_TERMS_core EV_DOMAIN_TERMS_vehicle EV_DOMAIN_TERMS_supply
         EV_AUTO_ANCHORS KNOWN_EV_COMPANIES NON_EV_SIGNAL_TERMS] in *. lia. }
  split.
  { unfold _detect_ev_domain. cbn [Detection.is_ev_domain Detection.recommendation].
    match goal with |- context [if ?b then _ else _] => destruct b end;
      split; intros H; try reflexivity; discriminate H. }
  intros Hev. rewrite Hgate in Hev. apply andb_true_iff in Hev as [Hanchor _].
  unfold _detect_ev_domain. cbn [Detection.matched_terms]. fold content.
  rewrite <- !len_hits in Hanchor. unfold len in Hanchor.
  intros Hnil.
  assert (Hlen : List.length (firstn 12
            (hits EV_DOMAIN_TERMS_core content ++ hits EV_DOMAIN_TERMS_vehicle content
             ++ hits EV_DOMAIN_TERMS_supply content ++ hits EV_AUTO_ANCHORS content
             ++ hits KNOWN_EV_COMPANIES content)%list) = 0%nat) by now rewrite Hnil.
  rewrite length_firstn, !length_app in Hlen.
  apply orb_true_iff in Hanchor as [H|H]; apply Z.leb_le in H; lia.
Qed.

Lemma slice_to_idem (n : Z) (s : string) :
  Str.slice_to n (Str.slice_to n s) = Str.slice_to n s.
Proof.
  revert n. induction s as [|c s IH]; intros n; [reflexivity|]. cbn [Str.slice_to].
  destruct (n <=? 0)%Z eqn:E; [reflexivity|]. cbn [Str.slice_to]. now rewrite E, IH.
Qed.

Lemma slice_to_app (n : Z) (a b : string) :
  Z.of_nat (String.length a) = n -> Str.slice_to n (a ++ b) = a.
Proof.
  revert n. induction a as [|c a IH]; intros n Hn.
  - cbn in Hn. subst n. destruct b; reflexivity.
  - cbn [String.length] in Hn. simpl. cbn [Str.slice_to].
    destruct (Z.leb_spec n 0) as [H|H]; [lia|]. rewrite IH; [reflexivity | lia].
Qed.

Lemma content_of_prefix (text filename : string) :
  content_of (Str.slice_to 180000 text) filename = content_of text filename.
Proof. unfold content_of. now rewrite slice_to_idem. Qed.

Lemma detect_by_content (text text' filename filename' : string) :
  content_of text filename = content_of text' filename' ->
  _detect_ev_domain text filename = _detect_ev_domain text' filename'.
Proof. unfold _detect_ev_domain. now intros ->. Qed.

(** X21. The detector reads the file name and the first 180000 characters
    of the text only: cutting the text at 180000 characters, or appending
    anything after 180000 characters, leaves the whole answer unchanged. *)
Theorem detect_ev_domain_reads_prefix (text filename : string) :
  _detect_ev_domain (Str.slice_to 180000 text) filename = _detect_ev_domain text filename
  /\ (forall more : string,
        Z.of_nat (String.length text) = 180000%Z ->
        _detect_ev_domain (text ++ more) filename = _detect_ev_domain text filename).
Proof.
  split; [apply detect_by_content, content_of_prefix|].
  intros more Hlen. apply detect_by_content.
  rewrite <- (content_of_prefix (text ++ more)), <- (content_of_prefix text).
  f_equal. rewrite (slice_to_app _ text more Hlen).
  rewrite <- (app_nil_r text) at 2. now rewrite (slice_to_app _ text "" Hlen).
Qed.

End DetectorShape.

Section PdfEstimates.

Lemma count_from_nonneg (sub : string) (skip : nat) (s : string) :
  (0 <= Str.count_from sub skip s)%Z.
Proof.
  revert skip. induction s as [|c s IH]; intros [|k]; cbn [Str.count_from];
    try destruct (Str.startswith sub _); try lia;
    try (specialize (IH (String.length sub - 1)%nat); lia);
    try (specialize (IH 0%nat); lia); try (specialize (IH k); lia).
Qed.

Lemma count_from_absent (sub : string) (skip : nat) (s : string) :
  Str.contains sub s = false -> Str.count_from sub skip s = 0%Z.
Proof.
  revert skip. induction s as [|c s IH]; intros skip H.
  - cbn in H. rewrite orb_false_r in H. destruct skip; cbn [Str.count_from]; [|reflexivity].
    now rewrite H.
  - change (Str.contains sub (String c s))
      with (Str.startswith sub (String c s) || Str.contains sub s) in H.
    apply orb_false_elim in H as [H1 H2].
    destruct skip; cbn [Str.count_from]; [rewrite H1|]; now apply IH.
Qed.

Lemma count_present (sub s : string) :
  Str.contains sub s = true -> (1 <= Str.count sub s)%Z.
Proof.
  unfold Str.count. induction s as [|c s IH]; intros H.
  - cbn in H. rewrite orb_false_r in H. cbn [Str.count_from]. rewrite H. lia.
  - change (Str.contains sub (String c s))
      with (Str.startswith sub (String c s) || Str.contains sub s) in H.
    cbn [Str.count_from]. destruct (Str.startswith sub (String c s)).
    + pose proof (count_from_nonneg sub (String.length sub - 1) s). lia.
    + now apply IH.
Qed.

Lemma keyword_count_from (keywords : list string) (text_lower : string) (total : Z) :
  (0 <= total)%Z ->
  (total <= fold_left (fun total kw => total + Str.count kw text_lower) keywords total)%Z.
Proof.
  revert total. induction keywords as [|kw keywords IH]; intros total H; cbn [fold_left]; [lia|].
  pose proof (count_from_nonneg kw 0 text_lower) as Hc. fold (Str.count kw text_lower) in Hc.
  specialize (IH (total + Str.count kw text_lower)%Z). lia.
Qed.

Lemma keyword_count_nonneg (keywords : list string) (text_lower : string) :
  (0 <= keyword_count keywords text_lower)%Z.
Proof. unfold keyword_count. now apply keyword_count_from. Qed.

Lemma pillar_score_range (hits : Z) :
  (0 <= hits)%Z ->
  (22 <= pillar_score_of_hits hits <= 95)%Z
  /\ (pillar_score_of_hits hits = 22 <-> hits = 0)%Z.
Proof.
  intros H. unfold pillar_score_of_hits.
  destruct (Z.eqb_spec hits 0); [lia|]. destruct (Z.ltb_spec hits 3); lia.
Qed.

Lemma pillar_score_mono (h1 h2 : Z) :
  (0 <= h1 <= h2)%Z -> (pillar_score_of_hits h1 <= pillar_score_of_hits h2)%Z.
Proof.
  intros H. unfold pillar_score_of_hits.
  destruct (Z.eqb_spec h1 0); destruct (Z.eqb_spec h2 0);
    destruct (Z.ltb_spec h1 3); destruct (Z.ltb_spec h2 3); lia.
Qed.

Lemma estimate_lookup (text pillar : string) :
  In pillar pillar_names ->
  _estimate_pillar_scores text !! pillar
  = Some (inject_Z (pillar_score_of_hits
                      (keyword_count (keywords_of pillar) (Str.lower text)))).
Proof.
  intros Hin. cbv in Hin.
  destruct Hin as [<-|[<-|[<-|[<-|[<-|[<-|[]]]]]]]; reflexivity.
Qed.

Lemma keyword_count_shift (keywords : list string) (text_lower : string) (total : Z) :
  fold_left (fun total kw => total + Str.count kw text_lower)%Z keywords total
  = (total + fold_left (fun total kw => total + Str.count kw text_lower) keywords 0)%Z.
Proof.
  revert total. induction keywords as [|kw keywords IH]; intros total; cbn [fold_left]; [lia|].
  rewrite IH, (IH (0 + _)%Z). lia.
Qed.

Lemma keyword_count_zero (keywords : list string) (text_lower : string) :
  keyword_count keywords text_lower = 0%Z
  <-> forall kw, In kw keywords -> ~ occurs_in kw text_lower.
Proof.
  unfold keyword_count. induction keywords as [|kw keywords IH]; cbn [fold_left].
  - split; [intros _ kw [] | reflexivity].
  - rewrite keyword_count_shift.
    pose proof (keyword_count_from keywords text_lower 0 ltac:(lia)) as Hrest.
    pose proof (count_from_nonneg kw 0 text_lower) as Hc. fold (Str.count kw text_lower) in Hc.
    split.
    + intros H kw' [<-|Hin].
      * intros Hocc%contains_spec%count_present. lia.
      * apply IH; [lia | exact Hin].
    + intros H.
      assert (Habs : Str.contains kw text_lower = false).
      { apply not_true_iff_false. intros Hocc%contains_spec. apply (H kw); [now left | exact Hocc]. }
      unfold Str.count at 1. rewrite (count_from_absent _ _ _ Habs).
      assert (E : fold_left (fun total kw0 => (total + Str.count kw0 text_lower)%Z) keywords 0%Z = 0%Z).
      { apply IH. intros kw' Hin. apply H. now right. }
      lia.
Qed.

(** X22. [_estimate_pillar_scores] gives each of the six pillars an integer
    score between 22 and 95, and the score is 22 exactly when none of the
    pillar's keywords occurs in the lower-cased text. *)
Theorem estimate_pillar_scores_range (text pillar : string) :
  In pillar pillar_names ->
  exists v : Z,
    _estimate_pillar_scores text !! pillar = Some (inject_Z v)
    /\ (22 <= v <= 95)%Z
    /\ (v = 22%Z
        <-> forall kw, In kw (keywords_of pillar) -> ~ occurs_in kw (Str.lower text)).
Proof.
  intros Hin. eexists. split; [apply (estimate_lookup text pillar Hin)|].
  pose proof (keyword_count_nonneg (keywords_of pillar) (Str.lower text)) as Hn.
  destruct (pillar_score_range _ Hn) as [Hr H22].
  split; [exact Hr|]. now rewrite H22, keyword_count_zero.
Qed.

Lemma estimate_pillar_scores_range_witness :
  exists v : Z,
    _estimate_pillar_scores "Lithium and cobalt mining, then more lithium" !! "raw_materials"
    = Some (inject_Z v)
    /\ (22 <= v <= 95)%Z.
Proof.
  destruct (estimate_pillar_scores_range
              "Lithium and cobalt mining, then more lithium" "raw_materials")
    as (v & Hv & Hr & _); [cbv; tauto|].
  exists v. split; [exact Hv | exact Hr].
Defined.




Lemma offset_total_nonneg (text_lower : string) :
  (0 <= fold_left (fun total k => total + Str.count k text_lower)
                  ["offset"; "carbon credit"; "rec"] 0)%Z.
Proof. now apply keyword_count_from. Qed.

(** X24. The offset estimates of an uploaded report agree with each other:
    the quality is "None" exactly when none of "gold standard", "vcs",
    "verified carbon standard", "offset", "carbon credit", "rec" occurs in
    the lower-cased text, and then the dependency is 0; the dependency is
    always within [0,90]; and a text in which "rec" occurs (as in
    "recycling") has a quality other than "None" and a dependency of at
    least 3. *)
Theorem estimate_offsets_consistent (text : string) :
  (_estimate_offset_quality text = "None"
   <-> forall k, In k ["gold standard"; "vcs"; "verified carbon standard";
                       "offset"; "carbon credit"; "rec"] ->
                 ~ occurs_in k (Str.lower text))
  /\ (_estimate_offset_quality text = "None" -> pdf_offset_dependency text == 0)
  /\ 0 <= pdf_offset_dependency text <= 90
  /\ (occurs_in "rec" (Str.lower text) ->
      _estimate_offset_quality text <> "None" /\ 3 <= pdf_offset_dependency text).
Proof.
  set (low := Str.lower text).
  assert (Hnone : _estimate_offset_quality text = "None"
                  <-> forall k, In k ["gold standard"; "vcs"; "verified carbon standard";
                                      "offset"; "carbon credit"; "rec"] ->
                                ~ occurs_in k low).
  { unfold _estimate_offset_quality. fold low. split.
    - destruct (Str.contains "gold standard" low) eqn:E1; [discriminate|].
      destruct (Str.contains "vcs" low) eqn:E2; [discriminate|].
      destruct (Str.contains "verified carbon standard" low) eqn:E3; [discriminate|].
      destruct (Str.contains "offset" low) eqn:E4; [discriminate|].
      destruct (Str.contains "carbon credit" low) eqn:E5; [discriminate|].
      destruct (Str.contains "rec" low) eqn:E6; [discriminate|].
      intros _ k Hin Hocc%contains_spec. cbn [In] in Hin.
      destruct Hin as [<-|[<-|[<-|[<-|[<-|[<-|[]]]]]]]; congruence.
    - intros H.
      assert (Habs : forall k, In k ["gold standard"; "vcs"; "verified carbon standard";
                                     "offset"; "carbon credit"; "rec"] ->
                               Str.contains k low = false).
      { intros k Hin. apply not_true_iff_false. intros Hocc%contains_spec.
        now apply (H k). }
      rewrite !Habs by (cbn [In]; tauto). reflexivity. }
  pose proof (offset_total_nonneg low) as Htot.
  assert (Hdep : pdf_offset_dependency text
                 == Qmin 90 (inject_Z
                      (fold_left (fun total k => total + Str.count k low)%Z
                                 ["offset"; "carbon credit"; "rec"] 0%Z * 3))).
  { unfold pdf_offset_dependency. fold low. apply min_Qmin. }
  split; [exact Hnone|]. split; [|split].
  - intros H. rewrite Hdep.
    assert (E : keyword_count ["offset"; "carbon credit"; "rec"] low = 0%Z).
    { apply keyword_count_zero. intros k Hin. apply (proj1 Hnone H). cbn [In] in *. tauto. }
    unfold keyword_count in E. rewrite E. reflexivity.
  - rewrite Hdep. split.
    + apply Q.min_glb; [discriminate|]. change 0 with (inject_Z 0). rewrite <- Zle_Qle. lia.
    + apply Q.le_min_l.
  - intros Hrec. split.
    + intros H. apply (proj1 Hnone H "rec"); [cbn [In]; tauto | exact Hrec].
    + rewrite Hdep. apply Q.min_glb; [discriminate|].
      change 3 with (inject_Z 3). rewrite <- Zle_Qle.
      apply contains_spec, count_present in Hrec. cbn [fold_left].
      pose proof (count_from_nonneg "offset" 0 low) as H1.
      pose proof (count_from_nonneg "carbon credit" 0 low) as H2.
      unfold Str.count in *. lia.
Qed.

Lemma regulatory_bonus_min (alignment : list (string * bool)) :
  compute_regulatory_bonus alignment == Qmin (flagged_sum alignment) 8.
Proof.
  unfold compute_regulatory_bonus. rewrite min_Qmin, bonus_loop.
  assert (0 + flagged_sum alignment == flagged_sum alignment) as -> by ring.
  reflexivity.
Qed.

(** X25. The regulatory estimate of an uploaded report always lists the
    four standards GRI, CSRD, SEC_Climate, TCFD, in this order, and its
    bonus lies in [0,8]; "GRI" is flagged as soon as "gri" occurs anywhere
    in the lower-cased text (as in "grid" or "integrity"), and the bonus is
    then at least 2. *)
Theorem estimate_regulatory_alignment_gri (text : string) :
  let alignment := _estimate_regulatory_alignment text in
  map fst alignment = ["GRI"; "CSRD"; "SEC_Climate"; "TCFD"]
  /\ 0 <= compute_regulatory_bonus alignment <= 8
  /\ (occurs_in "gri" (Str.lower text) ->
      In ("GRI", true) alignment /\ 2 <= compute_regulatory_bonus alignment).
Proof.
  cbv zeta. split; [reflexivity|].
  set (alignment := _estimate_regulatory_alignment text).
  pose proof (regulatory_bonus_min alignment) as Hmin.
  pose proof (flagged_sum_by_standard alignment) as Hsum.
  pose proof (flagged_count_nonneg "GRI" alignment) as H1.
  pose proof (flagged_count_nonneg "CSRD" alignment) as H2.
  pose proof (flagged_count_nonneg "SEC_Climate" alignment) as H3.
  pose proof (flagged_count_nonneg "TCFD" alignment) as H4.
  rewrite Zle_Qle in H1, H2, H3, H4. change (inject_Z 0) with 0 in *.
  split.
  - rewrite Hmin. split; [apply Q.min_glb; lra | apply Q.le_min_r].
  - intros Hocc%contains_spec.
    assert (Hin : In ("GRI", true) alignment).
    { subst alignment. unfold _estimate_regulatory_alignment. rewrite Hocc. now left. }
    split; [exact Hin|]. apply flagged_count_in in Hin.
    rewrite Zle_Qle in Hin. change (inject_Z 1) with 1 in Hin.
    rewrite Hmin. apply Q.min_glb; lra.
Qed.

Lemma pdf_claims_items (full_text : string) :
  (List.length (pdf_claims full_text) <= 120)%nat
  /\ Forall (fun item => snd item = classify_claim (fst item)) (pdf_claims full_text).
Proof.
  unfold pdf_claims. split; [apply firstn_le_length|].
  apply List.Forall_forall. intros item Hin%in_firstn.
  destruct (extract_and_classify_claims _) as [|first rest] eqn:E.
  - pose proof (fallback_loop_items 120 (Str.splitlines (Str.slice_to 240000 full_text)))
      as [_ Hall].
    rewrite List.Forall_forall in Hall. now apply Hall.
  - pose proof (extract_items (Str.slice_to 240000 full_text)) as Hall.
    rewrite E, List.Forall_forall in Hall. now apply Hall.
Qed.

Lemma enrich_well_typed (item : string * Classification.t) :
  snd item = classify_claim (fst item) -> well_typed_claim (enrich item).
Proof.
  intros H. unfold well_typed_claim, enrich. cbn [Claim.text Claim.type].
  split; [eauto|]. rewrite H.
  destruct (classify_claim_known_type (fst item)) as [-> | [-> | ->]]; auto.
Qed.

Lemma synthetic_company_claims (full_text name : string) (c : Company.t) :
  synthetic_company full_text name = Some c ->
  pdf_claims full_text <> []
  /\ Company.claims c = Some (map enrich (pdf_claims full_text))
  /\ Company.pillar_scores c = Some (_estimate_pillar_scores full_text)
  /\ Company.prior_year_scores c
     = Some (pdf_prior_scores (_estimate_pillar_scores full_text))
  /\ Company.offset_quality c = Some (_estimate_offset_quality full_text)
  /\ Company.offset_dependency c = Some (pdf_offset_dependency full_text).
Proof.
  unfold synthetic_company.
  destruct (pdf_claims full_text) as [|item items]; [discriminate|].
  intros H. injection H as <-. split; [discriminate|]. repeat split.
Qed.

(** X26. The uploaded-report path never fails in the engine: whenever
    claims can be extracted (from sentences, else from lines), the
    synthesized company has between 1 and 120 claims, each with a text, one
    of the three types and "verified" set exactly for NUMERIC claims, and
    [compute_lts] returns a result for it with one entry per claim. *)
Theorem synthetic_company_is_scored (full_text name : string) (c : Company.t) :
  synthetic_company full_text name = Some c ->
  let claims := default [] (Company.claims c) in
  (1 <= List.length claims <= 120)%nat
  /\ Forall (fun claim =>
               well_typed_claim claim
               /\ (Claim.verified claim = Some true <-> Claim.type claim = Some "NUMERIC"))
            claims
  /\ (exists r, compute_lts c = Ok r
                /\ List.length (Lts.claims r) = List.length claims).
Proof.
  intros H. destruct (synthetic_company_claims _ _ _ H) as (Hne & Hclaims & _).
  destruct (pdf_claims_items full_text) as [Hlen Hall].
  assert (Htyped : Forall well_typed_claim (map enrich (pdf_claims full_text))).
  { apply List.Forall_forall. intros claim Hin. apply in_map_iff in Hin as (it & <- & Hin).
    apply enrich_well_typed. rewrite List.Forall_forall in Hall. now apply Hall. }
  assert (Hwt : well_typed c) by (unfold well_typed; now rewrite Hclaims).
  cbv zeta. rewrite Hclaims. simpl default.
  split.
  { rewrite length_map. destruct (pdf_claims full_text); [contradiction|].
    cbn [List.length] in *. lia. }
  split.
  - apply List.Forall_forall. intros claim Hin.
    split; [rewrite List.Forall_forall in Htyped; now apply Htyped|].
    apply in_map_iff in Hin as (it & <- & _). unfold enrich. cbn [Claim.verified Claim.type].
    destruct (String.eqb_spec (Classification.type (snd it)) "NUMERIC") as [->|Hne'];
      split; intros H'; try reflexivity; try discriminate; congruence.
  - destruct (compute_lts_returns c Hwt) as (r & Hr & Hmap).
    exists r. split; [exact Hr|]. rewrite Hclaims in Hmap. simpl default in Hmap.
    rewrite <- Hmap. now rewrite length_map.
Qed.

Lemma synthetic_company_is_scored_witness :
  let text := "Our plants cut Scope 1 emissions by 45% since 2019. We are committed to a sustainable future for all." in
  exists c r,
    synthetic_company text "report" = Some c
    /\ compute_lts c = Ok r
    /\ List.length (Lts.claims r) = 2%nat.
Proof.
  intros text.
  destruct (synthetic_company text "report") as [c|] eqn:E; [|vm_compute in E; discriminate E].
  destruct (synthetic_company_is_scored text "report" c E) as (_ & _ & r & Hr & Hlen).
  exists c, r. split; [reflexivity|]. split; [exact Hr|]. rewrite Hlen.
  vm_compute in E. injection E as <-. reflexivity.
Defined.

End PdfEstimates.

Section SmallHelpers.

(** X27. [_clamp] always returns at least [low]; with low <= high the
    result lies in [low, high], and with high < low it is [low]. *)
Theorem clamp_bounds_general (val low high : Q) :
  low <= _clamp val low high
  /\ (low <= high -> _clamp val low high <= high)
  /\ (high < low -> _clamp val low high == low).
Proof.
  unfold _clamp. rewrite max_Qmax. set (m := Py.min high (Py.round val 1)).
  assert (Hm : m <= high) by (subst m; rewrite min_Qmin; apply Q.le_min_l).
  split; [apply Q.le_max_l|]. split.
  - intros H. apply Q.max_lub; [exact H | exact Hm].
  - intros H. apply Q.max_l. lra.
Qed.

Lemma sum_ord_app (a b : string) : sum_ord (a ++ b) = (sum_ord a + sum_ord b)%Z.
Proof. induction a as [|c a IH]; simpl; [reflexivity | rewrite IH; lia]. Qed.

Lemma or_else_empty (text : string) : sum_ord (or_else (Some text) "") = sum_ord text.
Proof. destruct text; reflexivity. Qed.

(** X28. [_hash_bucket]: with a positive modulus the bucket exists and lies
    in [0, mod); [None] and the empty string fall in bucket 0; the bucket
    depends on the characters only, not on their order (a ++ b and b ++ a
    share a bucket); a modulus of 0 raises. *)
Theorem hash_bucket_range (text : option string) (mod_ : Z) :
  ((0 < mod_)%Z ->
   exists b, _hash_bucket text mod_ = Some b /\ (0 <= b < mod_)%Z)
  /\ (mod_ <> 0%Z -> _hash_bucket None mod_ = Some 0%Z
                     /\ _hash_bucket (Some "") mod_ = Some 0%Z)
  /\ (forall a b, _hash_bucket (Some (a ++ b)) mod_ = _hash_bucket (Some (b ++ a)) mod_)
  /\ _hash_bucket text 0 = None.
Proof.
  unfold _hash_bucket. split; [|split; [|split]].
  - intros H. destruct (Z.eqb_spec mod_ 0); [lia|].
    eexists. split; [reflexivity|]. apply Z.mod_pos_bound, H.
  - intros H. destruct (Z.eqb_spec mod_ 0); [contradiction|].
    cbn [or_else sum_ord]. now rewrite Z.mod_0_l.
  - intros a b. destruct (mod_ =? 0)%Z; [reflexivity|].
    rewrite !or_else_empty, !sum_ord_app. f_equal. f_equal. lia.
  - reflexivity.
Qed.

Lemma slug_char_not_dash (c : ascii) : is_slug_char c = true -> Ascii.eqb "-" c = false.
Proof. destruct c as [[] [] [] [] [] [] [] []]; cbv; congruence. Qed.

Lemma slug_char_lower (c : ascii) :
  is_slug_char c = true \/ c = "-"%char -> Str.lower_char c = c.
Proof.
  intros [H| ->]; [|reflexivity]. revert H.
  destruct c as [[] [] [] [] [] [] [] []]; cbv; congruence.
Qed.

Lemma dash_runs_dashed (in_run : bool) (s : string) :
  dashed in_run (dash_runs in_run s) = true.
Proof.
  revert in_run. induction s as [|c s IH]; intros in_run; [reflexivity|].
  cbn [dash_runs]. destruct (is_slug_char c) eqn:E.
  - cbn [dashed]. rewrite E. apply IH.
  - destruct in_run; [apply IH|]. cbn [dashed]. simpl is_slug_char. apply IH.
Qed.

Lemma lstrip_dashed (b : bool) (s : string) :
  dashed b s = true -> dashed true (Str.lstrip (Ascii.eqb "-") s) = true.
Proof.
  revert b. induction s as [|c s IH]; intros b H; [reflexivity|].
  cbn [dashed] in H. cbn [Str.lstrip]. destruct (is_slug_char c) eqn:E.
  - rewrite (slug_char_not_dash c E). cbn [dashed]. now rewrite E.
  - apply andb_true_iff in H as [[Hc%Ascii.eqb_eq Hb]%andb_true_iff H]. subst c.
    cbn [Ascii.eqb Bool.eqb andb]. now apply (IH true).
Qed.

Lemma rstrip_dashed (b : bool) (s : string) :
  dashed b s = true ->
  Str.rstrip (Ascii.eqb "-") s = EmptyString
  \/ slug_body b (Str.rstrip (Ascii.eqb "-") s) = true.
Proof.
  revert b. induction s as [|c s IH]; intros b H; [now left|].
  cbn [dashed] in H. cbn [Str.rstrip]. destruct (is_slug_char c) eqn:E.
  - right. destruct (IH false H) as [-> | Hr].
    + rewrite (slug_char_not_dash c E). cbn [slug_body]. now rewrite E.
    + destruct (Str.rstrip (Ascii.eqb "-") s) as [|x r] eqn:Er.
      * rewrite (slug_char_not_dash c E). cbn [slug_body]. now rewrite E.
      * cbn [slug_body]. now rewrite E.
  - apply andb_true_iff in H as [[Hc%Ascii.eqb_eq Hb]%andb_true_iff H]. subst c.
    destruct (IH true H) as [-> | Hr]; [now left|].
    destruct (Str.rstrip (Ascii.eqb "-") s) as [|x r] eqn:Er; [discriminate Hr|].
    right. cbn [slug_body]. simpl is_slug_char. rewrite Hb. exact Hr.
Qed.

Lemma slugify_is_slug (text : string) : is_slug (_slugify text).
Proof.
  unfold _slugify, Str.strip_with, is_slug.
  apply rstrip_dashed, (lstrip_dashed false), dash_runs_dashed.
Qed.

Lemma slug_lower (b : bool) (s : string) : slug_body b s = true -> Str.lower s = s.
Proof.
  revert b. induction s as [|c s IH]; intros b H; [reflexivity|].
  cbn [slug_body] in H. cbn [Str.lower]. destruct (is_slug_char c) eqn:E.
  - now rewrite (slug_char_lower c (or_introl E)), (IH false H).
  - apply andb_true_iff in H as [[Hc%Ascii.eqb_eq Hb]%andb_true_iff H]. subst c.
    now rewrite (IH true H).
Qed.

Lemma slug_dash_runs (b in_run : bool) (s : string) :
  slug_body b s = true -> (b = false -> in_run = false) -> dash_runs in_run s = s.
Proof.
  revert b in_run. induction s as [|c s IH]; intros b in_run H Hrun; [reflexivity|].
  cbn [slug_body] in H. cbn [dash_runs]. destruct (is_slug_char c) eqn:E.
  - now rewrite (IH false false H).
  - apply andb_true_iff in H as [[Hc%Ascii.eqb_eq Hb]%andb_true_iff H]. subst c.
    apply negb_true_iff in Hb. rewrite (Hrun Hb).
    rewrite (IH true true H); [reflexivity | discriminate].
Qed.

Lemma slug_rstrip (b : bool) (s : string) :
  slug_body b s = true -> Str.rstrip (Ascii.eqb "-") s = s.
Proof.
  revert b. induction s as [|c s IH]; intros b H; [reflexivity|].
  cbn [slug_body] in H. cbn [Str.rstrip]. destruct (is_slug_char c) eqn:E.
  - rewrite (IH false H). destruct s; [|reflexivity].
    now rewrite (slug_char_not_dash c E).
  - apply andb_true_iff in H as [[Hc%Ascii.eqb_eq Hb]%andb_true_iff H]. subst c.
    rewrite (IH true H). destruct s; [discriminate H | reflexivity].
Qed.

Lemma slug_lstrip (s : string) :
  slug_body true s = true -> Str.lstrip (Ascii.eqb "-") s = s.
Proof.
  destruct s as [|c s]; [reflexivity|]. cbn [slug_body Str.lstrip].
  destruct (is_slug_char c) eqn:E.
  - now rewrite (slug_char_not_dash c E).
  - rewrite andb_false_r. discriminate.
Qed.

(** X29. A slug is empty or made of runs of [a-z0-9] separated by single
    dashes, with no dash at either end; and slugifying a slug changes
    nothing. *)
Theorem slugify_shape (text : string) :
  is_slug (_slugify text)
  /\ _slugify (_slugify text) = _slugify text
  /\ (forall s, is_slug s -> _slugify s = s).
Proof.
  assert (Hfix : forall s, is_slug s -> _slugify s = s).
  { intros s [-> | H]; [reflexivity|]. unfold _slugify, Str.strip_with.
    rewrite (slug_lower _ _ H), (slug_dash_runs true false s H) by discriminate.
    now rewrite (slug_lstrip s H), (slug_rstrip _ _ H). }
  split; [apply slugify_is_slug|]. split; [apply Hfix, slugify_is_slug | exact Hfix].
Qed.

Lemma slice_to_one (s : string) :
  Str.slice_to 1 s = match s with String c _ => String c "" | EmptyString => "" end.
Proof. destruct s as [|c [|d s]]; reflexivity. Qed.

(** [_logo_for_make] always returns exactly one character: the
    upper-cased first character of the make after stripping whitespace,
    and "E" when the make is [None], empty or blank. *)
Lemma logo_for_make_one_char (make : option string) :
  String.length (_logo_for_make make) = 1%nat
  /\ (match Str.strip (or_else make "E") with
      | String c _ => _logo_for_make make = String (Str.upper_char c) ""
      | EmptyString => _logo_for_make make = "E"
      end)
  /\ _logo_for_make None = "E"
  /\ _logo_for_make (Some "") = "E".
Proof.
  unfold _logo_for_make. rewrite slice_to_one.
  destruct (Str.strip (or_else make "E")) as [|c s]; cbn [Str.upper String.length];
    repeat split; reflexivity.
Qed.

End SmallHelpers.

Section InferPillar.

Lemma max_key_first_maximum (best : string * Z) (scores : list (string * Z)) :
  exists pre post,
    (best :: scores = pre ++ max_key best scores :: post)%list
    /\ (forall x, In x pre -> (snd x < snd (max_key best scores))%Z)
    /\ (forall x, In x post -> (snd x <= snd (max_key best scores))%Z).
Proof.
  revert best. induction scores as [|item scores IH]; intros best; cbn [max_key].
  - exists [], []. repeat split; intros x [].
  - destruct (Z.ltb_spec (snd best) (snd item)) as [Hlt|Hge].
    + destruct (IH item) as (pre & post & E & Hpre & Hpost).
      exists (best :: pre), post. split; [cbn [List.app]; now rewrite <- E|].
      split; [|exact Hpost]. intros x [<-|Hin]; [|now apply Hpre].
      destruct pre as [|first pre].
      * cbn [List.app] in E. injection E as E _. rewrite <- E. exact Hlt.
      * cbn [List.app] in E. injection E as <- _.
        specialize (Hpre item (or_introl eq_refl)). lia.
    + destruct (IH best) as (pre & post & E & Hpre & Hpost).
      destruct pre as [|first pre]; cbn [List.app] in E.
      * injection E as E1 E2. exists [], (item :: post).
        split; [cbn [List.app]; rewrite <- E1, <- E2; reflexivity|].
        split; [intros x []|]. rewrite <- E1.
        intros x [<-|Hin]; [exact Hge|]. rewrite E1. now apply Hpost.
      * injection E as <- E2. exists (best :: item :: pre), post.
        split; [cbn [List.app]; do 2 f_equal; exact E2|].
        split; [|exact Hpost].
        pose proof (Hpre best (or_introl eq_refl)) as Hbest.
        intros x [<-|[<-|Hin]]; [exact Hbest | lia | apply Hpre; now right].
Qed.

Lemma infer_pillar_scores (claim_text : string) :
  map (fun '(pillar, keywords) => (pillar, keyword_hits keywords (Str.lower claim_text)))
      PILLAR_KEYWORDS
  = pillar_hits claim_text.
Proof. reflexivity. Qed.

(** X30. [_infer_pillar] picks the pillar with the most keywords occurring
    in the lower-cased claim, the first such pillar in table order on a
    tie, and "supply_chain" when no keyword occurs at all; the result is
    always one of the six pillars. *)
Theorem infer_pillar_first_maximum (claim_text : string) :
  exists pre best n post,
    (pillar_hits claim_text = pre ++ (best, n) :: post)%list
    /\ (forall p k, In (p, k) pre -> (k < n)%Z)
    /\ (forall p k, In (p, k) post -> (k <= n)%Z)
    /\ _infer_pillar claim_text = (if (0 <? n)%Z then best else "supply_chain")
    /\ In (_infer_pillar claim_text) pillar_names.
Proof.
  unfold _infer_pillar. rewrite infer_pillar_scores.
  assert (Hnames : map fst (pillar_hits claim_text) = pillar_names).
  { unfold pillar_hits. rewrite map_map. cbn [fst]. apply map_id. }
  destruct (pillar_hits claim_text) as [|first rest] eqn:E; [discriminate Hnames|].
  destruct (max_key_first_maximum first rest) as (pre & post & Hsplit & Hpre & Hpost).
  destruct (max_key first rest) as [best n] eqn:Ebest. cbn [fst snd] in *.
  exists pre, best, n, post. split; [exact Hsplit|].
  split; [intros p k Hin; apply (Hpre (p, k) Hin)|].
  split; [intros p k Hin; apply (Hpost (p, k) Hin)|].
  split; [reflexivity|].
  destruct (0 <? n)%Z; [|cbv; tauto].
  rewrite <- Hnames, Hsplit, map_app, in_app_iff. right. now left.
Qed.

End InferPillar.

(** ** The properties above on concrete inputs *)

Lemma analyze_offsets_risk_table_witness :
  OffsetAnalysis.risk_level (analyze_offsets 20 "Gold Standard") = "MODERATE"
  /\ OffsetAnalysis.risk_level (analyze_offsets 20 "Unverified") = "HIGH"
  /\ OffsetAnalysis.risk_level (analyze_offsets 20 "Blue Carbon") = "MODERATE".
Proof.
  split; [|split].
  - destruct (analyze_offsets_risk_table 20 "Gold Standard") as (_ & _ & H & _).
    apply H; [discriminate | vm_compute; discriminate | split; discriminate].
  - destruct (analyze_offsets_risk_table 20 "Unverified") as (_ & H & _).
    now apply H.
  - destruct (analyze_offsets_risk_table 20 "Blue Carbon") as (_ & _ & _ & H).
    apply H; [discriminate | discriminate | reflexivity | discriminate].
Defined.

Lemma compute_investor_esg_index_by_risk_witness :
  Esg.rating (compute_investor_esg_index 82 "MODERATE") = "AAA"
  /\ Esg.rating (compute_investor_esg_index 82 "HIGH") <> "AAA"
  /\ Esg.score (compute_investor_esg_index 82 "LOW") == 82
  /\ compute_investor_esg_index 82 "SEVERE" = compute_investor_esg_index 82 "LOW".
Proof.
  destruct (compute_investor_esg_index_by_risk 82)
    as (_ & _ & _ & Hlow & Hother & _ & Hmod & Hhigh & _).
  split; [apply Hmod; discriminate|].
  split; [intros H; apply Hhigh in H; now apply H|].
  split; [rewrite Hlow; [reflexivity | discriminate]|].
  apply Hother; discriminate.
Defined.

Lemma detect_ev_domain_reads_prefix_witness :
  let text := spaces (Z.to_nat 180000) in
  let late := "Tesla is an EV manufacturer of electric vehicles" in
  Detection.is_ev_domain (_detect_ev_domain late "report.pdf") = true
  /\ _detect_ev_domain (text ++ late) "report.pdf" = _detect_ev_domain text "report.pdf".
Proof.
  intros text late. split; [reflexivity|].
  destruct (detect_ev_domain_reads_prefix text "report.pdf") as (_ & H).
  apply H. vm_compute. reflexivity.
Defined.

Lemma estimate_offsets_consistent_witness :
  let text := "Our battery recycling programme grew" in
  _estimate_offset_quality text = "Unverified"
  /\ 3 <= pdf_offset_dependency text
  /\ _estimate_offset_quality "Nothing of the kind" = "None"
  /\ pdf_offset_dependency "Nothing of the kind" == 0.
Proof.
  intros text.
  destruct (estimate_offsets_consistent text) as (_ & _ & _ & Hrec).
  destruct (estimate_offsets_consistent "Nothing of the kind") as (_ & Hnone & _).
  split; [reflexivity|].
  split; [apply Hrec, contains_spec; reflexivity|].
  split; [reflexivity | now apply Hnone].
Defined.

Lemma estimate_regulatory_alignment_gri_witness :
  let text := "We act with integrity" in
  In ("GRI", true) (_estimate_regulatory_alignment text)
  /\ 2 <= compute_regulatory_bonus (_estimate_regulatory_alignment text).
Proof.
  intros text.
  destruct (estimate_regulatory_alignment_gri text) as (_ & _ & H).
  apply H, contains_spec. reflexivity.
Defined.

Lemma clamp_bounds_general_witness :
  _clamp (1234 # 10) 25 95 <= 95
  /\ _clamp (1234 # 10) 25 95 == 95
  /\ _clamp 50 60 40 == 60.
Proof.
  destruct (clamp_bounds_general (1234 # 10) 25 95) as (_ & Hhigh & _).
  destruct (clamp_bounds_general 50 60 40) as (_ & _ & Hlow).
  split; [apply Hhigh; discriminate|]. split; [reflexivity|]. apply Hlow. reflexivity.
Defined.

Lemma hash_bucket_range_witness :
  exists b, _hash_bucket (Some "Tesla") 40 = Some b /\ (0 <= b < 40)%Z /\ b = 25%Z.
Proof.
  destruct (hash_bucket_range (Some "Tesla") 40) as (H & _).
  destruct (H ltac:(lia)) as (b & Hb & Hr).
  exists b. split; [exact Hb|]. split; [exact Hr|].
  vm_compute in Hb. now injection Hb as <-.
Defined.

Lemma slugify_shape_witness :
  _slugify "  Mercedes-Benz  AG!" = "mercedes-benz-ag"
  /\ _slugify "mercedes-benz-ag" = "mercedes-benz-ag".
Proof.
  split; [reflexivity|].
  destruct (slugify_shape "") as (_ & _ & H). apply H. right. reflexivity.
Defined.
